(** * OAU bike app: geospatial classification and analytics core

    A shallow embedding of [app/core/geofencing.py], of the clustering,
    pickup-scoring and route-efficiency parts of
    [app/utils/location_utils.py] and of the bike-status and demand parts
    of [app/core/analytics.py], with the properties the specification
    states about them.

    Number model.  A finite Python float is a rational number, so the
    values the program receives and everything it computes from them with
    [+ - * /], comparisons, [min], [max] and [round] live in [Q] and are
    computed exactly (the rounding error of binary64 arithmetic is not
    modelled).  The values the program obtains through [math.sin],
    [math.cos], [math.sqrt] and [math.asin] live in [R]; a rational enters
    [R] through [Q2R].  The properties are those of the exact values;
    where one turns on the last bit of a float, the comment says so.

    Exceptions.  A function that can raise returns an [option], [None]
    being the exception, or a [Py.result] where the kind of exception
    matters. *)

From Stdlib Require Import Reals QArith Qreals Qround Qminmax ZArith.
From Stdlib Require Import List String Ascii Bool FinFun Lra Lia Psatz.
From Stdlib Require Import Sorted Permutation.
From Stdlib Require Import DecimalString.
Import ListNotations.

(** ** Numbers as Python has them *)

Module PyNum.

Definition Qlt_bool (a b : Q) : bool := negb (Qle_bool b a).

(** [round(x)] on an exact value: nearest integer, ties to the even one. *)
Definition Qround_half_even (x : Q) : Z :=
  let f := Qfloor x in
  match Qcompare (x - inject_Z f) (1 # 2) with
  | Lt => f
  | Gt => (f + 1)%Z
  | Eq => if Z.even f then f else (f + 1)%Z
  end.

(** [round(x, ndigits)] for a float [x]. *)
Definition Qround (x : Q) (ndigits : nat) : Q :=
  (inject_Z (Qround_half_even (x * inject_Z (10 ^ Z.of_nat ndigits)))
   / inject_Z (10 ^ Z.of_nat ndigits))%Q.

(** The same two functions on a real number. *)
Definition Rround_half_even (x : R) : Z :=
  let f := Int_part x in
  if Rlt_dec (x - IZR f) (1 / 2) then f
  else if Rlt_dec (1 / 2) (x - IZR f) then (f + 1)%Z
  else if Z.even f then f else (f + 1)%Z.

Definition Rround (x : R) (ndigits : nat) : R :=
  (IZR (Rround_half_even (x * 10 ^ ndigits)) / 10 ^ ndigits)%R.

(** [int(x)]: truncation towards zero. *)
Definition Rint (x : R) : Z :=
  if Rle_dec 0 x then Int_part x else (- Int_part (- x))%Z.

(** [str(n)] for an integer. *)
Definition str_of_Z (n : Z) : string := NilZero.string_of_int (Z.to_int n).

End PyNum.

Import PyNum.

(** ** [list.sort] and [sorted] *)

Module PySort.

Section WithOrder.
Context {A : Type} (le : A -> A -> bool).

(** Python's sort is stable: elements that compare equal keep their
    order.  [le x y] is the comparison of the keys, [key(x) <= key(y)] for
    an ascending sort and [key(y) <= key(x)] with [reverse=True]; [x] goes
    in front of the first element it is [le] to. *)
Fixpoint insert (x : A) (l : list A) : list A :=
  match l with
  | [] => [x]
  | y :: t => if le x y then x :: y :: t else y :: insert x t
  end.

Definition sort (l : list A) : list A := fold_right insert [] l.

End WithOrder.

Definition Rle_bool (a b : R) : bool := if Rle_dec a b then true else false.

End PySort.

(** ** app/config.py *)

Module settings.

Definition OAU_CENTER_LAT : Q := 7.5227.
Definition OAU_CENTER_LNG : Q := 4.5198.
Definition OAU_RADIUS_KM : Q := 5.0.

End settings.

(** ** app/core/geofencing.py *)

Module Geofencing.

Definition radians (x : R) : R := (x * (PI / 180))%R.

(** The haversine argument [a] of [calculate_distance], on angles already
    converted to radians. *)
Definition haversine_a (lat1 lon1 lat2 lon2 : R) : R :=
  let dlat := (lat2 - lat1)%R in
  let dlon := (lon2 - lon1)%R in
  (sin (dlat / 2) ^ 2 + cos lat1 * cos lat2 * sin (dlon / 2) ^ 2)%R.

Definition calculate_distance (lat1 lon1 lat2 lon2 : R) : R :=
  let R_earth := 6371%R in
  let lat1 := radians lat1 in
  let lon1 := radians lon1 in
  let lat2 := radians lat2 in
  let lon2 := radians lon2 in
  let a := haversine_a lat1 lon1 lat2 lon2 in
  let c := (2 * asin (sqrt a))%R in
  (R_earth * c)%R.

(** The distance between two float coordinates. *)
Definition distance_km (lat1 lon1 lat2 lon2 : Q) : R :=
  calculate_distance (Q2R lat1) (Q2R lon1) (Q2R lat2) (Q2R lon2).

(** *** Ray casting *)

(** The local variables of [point_in_polygon] that live across the
    iterations of its loop; [xinters] is unbound until first assigned. *)
Record ray_state : Type := mk_ray_state {
  inside : bool;
  xinters : option Q;
  p1x : Q;
  p1y : Q
}.

(** One iteration of the loop body, for the vertex [(p2x, p2y)].  [None] is
    the [NameError] of reading [xinters] before it was ever assigned. *)
Definition ray_edge (x y : Q) (st : ray_state) (p2 : Q * Q)
  : option ray_state :=
  let '(p2x, p2y) := p2 in
  let next ins xi :=
    Some {| inside := ins; xinters := xi; p1x := p2x; p1y := p2y |} in
  if Qlt_bool (Qmin (p1y st) p2y) y then
    if Qle_bool y (Qmax (p1y st) p2y) then
      if Qle_bool x (Qmax (p1x st) p2x) then
        let xi :=
          if negb (Qeq_bool (p1y st) p2y)
          then Some ((y - p1y st) * (p2x - p1x st) / (p2y - p1y st)
                     + p1x st)%Q
          else xinters st in
        if Qeq_bool (p1x st) p2x then next (negb (inside st)) xi
        else match xi with
             | None => None
             | Some v =>
                 if Qle_bool x v then next (negb (inside st)) xi
                 else next (inside st) xi
             end
      else next (inside st) (xinters st)
    else next (inside st) (xinters st)
  else next (inside st) (xinters st).

(** [for i in range(1, n + 1)], reading [polygon[i % n]]. *)
Fixpoint ray_loop (x y : Q) (polygon : list (Q * Q)) (n : nat)
  (idx : list nat) (st : ray_state) : option ray_state :=
  match idx with
  | [] => Some st
  | i :: rest =>
      match nth_error polygon (i mod n) with
      | None => None
      | Some p2 =>
          match ray_edge x y st p2 with
          | None => None
          | Some st' => ray_loop x y polygon n rest st'
          end
      end
  end.

(** [None] stands for an exception: [IndexError] on an empty polygon, or
    the [NameError] of [ray_edge]. *)
Definition point_in_polygon (lat lon : Q) (polygon : list (Q * Q))
  : option bool :=
  let x := lon in
  let y := lat in
  let n := List.length polygon in
  match nth_error polygon 0 with
  | None => None
  | Some (p1x0, p1y0) =>
      let st0 := {| inside := false; xinters := None;
                    p1x := p1x0; p1y := p1y0 |} in
      match ray_loop x y polygon n (seq 1 n) st0 with
      | None => None
      | Some st => Some (inside st)
      end
  end.

Definition oau_polygon : list (Q * Q) :=
  [ (7.5150, 4.5100);
    (7.5300, 4.5050);
    (7.5380, 4.5200);
    (7.5350, 4.5300);
    (7.5250, 4.5350);
    (7.5100, 4.5250);
    (7.5150, 4.5100) ].

Definition is_within_oau_polygon (latitude longitude : Q) : option bool :=
  point_in_polygon latitude longitude oau_polygon.

Definition is_within_oau_campus (latitude longitude : Q) : option bool :=
  let distance_from_center :=
    distance_km latitude longitude
      settings.OAU_CENTER_LAT settings.OAU_CENTER_LNG in
  if Rlt_dec (Q2R settings.OAU_RADIUS_KM) distance_from_center
  then Some false
  else is_within_oau_polygon latitude longitude.

(** *** The landmark catalog *)

Record landmark : Type := mk_landmark {
  lm_id : string;
  lm_lat : Q;
  lm_lng : Q;
  lm_name : string;
  lm_type : string;
  lm_description : string
}.

(** [OAU_LANDMARKS], in the insertion order of the dictionary. *)
Definition OAU_LANDMARKS : list landmark :=
  [ mk_landmark "main_gate" 7.5227 4.5198 "Main Gate" "entrance"
      "Primary campus entrance";
    mk_landmark "sub" 7.5245 4.5203 "Student Union Building (SUB)"
      "building" "Student activities center";
    mk_landmark "oduduwa_hall" 7.5234 4.5189 "Oduduwa Hall" "hall"
      "Main auditorium";
    mk_landmark "futa" 7.5256 4.5210 "Faculty of Technology" "faculty"
      "Engineering and Technology faculty";
    mk_landmark "science_complex" 7.5240 4.5220 "Science Complex" "faculty"
      "Pure and Applied Sciences";
    mk_landmark "arts_theatre" 7.5230 4.5180 "Arts Theatre" "theatre"
      "Creative Arts faculty";
    mk_landmark "mozambique_hostel" 7.5280 4.5167 "Mozambique Hostel"
      "hostel" "Student accommodation";
    mk_landmark "angola_hostel" 7.5289 4.5134 "Angola Hostel" "hostel"
      "Student accommodation";
    mk_landmark "madagascar_hostel" 7.5295 4.5145 "Madagascar Hostel"
      "hostel" "Student accommodation";
    mk_landmark "awolowo_hall" 7.5270 4.5150 "Awolowo Hall" "hostel"
      "Premier student hall";
    mk_landmark "sports_complex" 7.5198 4.5234 "Sports Complex" "sports"
      "Sports and recreational facilities";
    mk_landmark "teaching_hospital" 7.5345 4.5123
      "OAU Teaching Hospital (OAUTHC)" "hospital" "Medical center";
    mk_landmark "central_library" 7.5250 4.5200
      "Hezekiah Oluwasanmi Library" "library" "Main university library";
    mk_landmark "back_gate" 7.5320 4.5180 "Back Gate" "entrance"
      "Secondary campus entrance";
    mk_landmark "coop_gate" 7.5200 4.5280 "Cooperative Gate" "entrance"
      "Residential area entrance";
    mk_landmark "buka_junction" 7.5260 4.5190 "Buka Junction" "food"
      "Popular food court area";
    mk_landmark "atm_point" 7.5235 4.5195 "Banking Complex" "service"
      "ATMs and banking services";
    mk_landmark "chapel_of_wisdom" 7.5225 4.5175 "Chapel of Wisdom"
      "religious" "University chapel" ].

(** *** Nearest landmark *)

Record landmark_info : Type := mk_landmark_info {
  info_name : string;
  info_type : string;
  info_distance : R;
  info_description : string
}.

(** The three variables the scan updates; [min_distance = None] is
    [float('inf')]. *)
Record nearest_state : Type := mk_nearest_state {
  min_distance : option R;
  nearest_landmark : string;
  nearest_info : option landmark_info
}.

Definition nearest_init : nearest_state :=
  {| min_distance := None;
     nearest_landmark := "Unknown Location";
     nearest_info := None |}.

Definition below_min (distance : R) (m : option R) : bool :=
  match m with
  | None => true
  | Some d => if Rlt_dec distance d then true else false
  end.

Definition nearest_step (latitude longitude : Q) (max_distance : R)
  (st : nearest_state) (lm : landmark) : nearest_state :=
  let distance := distance_km latitude longitude (lm_lat lm) (lm_lng lm) in
  if below_min distance (min_distance st)
     && (if Rle_dec distance max_distance then true else false)
  then {| min_distance := Some distance;
          nearest_landmark := lm_name lm;
          nearest_info :=
            Some {| info_name := lm_name lm;
                    info_type := lm_type lm;
                    info_distance := Rround (distance * 1000) 0;
                    info_description := lm_description lm |} |}
  else st.

Definition nearest_scan (catalog : list landmark) (latitude longitude : Q)
  (max_distance : R) : nearest_state :=
  fold_left (nearest_step latitude longitude max_distance) catalog
    nearest_init.

Definition nearest_label (st : nearest_state) : string :=
  match nearest_info st with
  | Some info =>
      if Rlt_dec (info_distance info) 50
      then ("At " ++ nearest_landmark st)%string
      else if Rlt_dec (info_distance info) 200
      then ("Near " ++ nearest_landmark st)%string
      else ("Close to " ++ nearest_landmark st ++ " ("
            ++ str_of_Z (Rint (info_distance info)) ++ "m)")%string
  | None => "On Campus (Location Unknown)"%string
  end.

Definition get_nearest_landmark_within (latitude longitude : Q)
  (max_distance : R) : string :=
  nearest_label (nearest_scan OAU_LANDMARKS latitude longitude max_distance).

(** The default [max_distance = 1.0]. *)
Definition get_nearest_landmark (latitude longitude : Q) : string :=
  get_nearest_landmark_within latitude longitude 1.

(** *** Zones *)

Definition determine_campus_zone (latitude longitude : Q) : string :=
  if Qle_bool 7.5200 latitude && Qle_bool latitude 7.5260
     && Qle_bool 4.5180 longitude && Qle_bool longitude 4.5230
  then "Academic Zone"%string
  else if Qle_bool 7.5260 latitude && Qle_bool latitude 7.5320
          && Qle_bool 4.5120 longitude && Qle_bool longitude 4.5180
  then "Student Residential Zone"%string
  else if Qle_bool 7.5320 latitude && Qle_bool latitude 7.5380
          && Qle_bool 4.5100 longitude && Qle_bool longitude 4.5150
  then "Medical Zone"%string
  else if Qle_bool 7.5180 latitude && Qle_bool latitude 7.5220
          && Qle_bool 4.5220 longitude && Qle_bool longitude 4.5280
  then "Sports & Recreation Zone"%string
  else "General Campus Area"%string.

(** *** Coordinate validation *)

Record validation_result : Type := mk_validation_result {
  valid : bool;
  within_campus : bool;
  v_nearest_landmark : option string;
  distance_from_center : option R;
  zone : option string;
  errors : list string
}.

Definition validation_init : validation_result :=
  {| valid := false; within_campus := false; v_nearest_landmark := None;
     distance_from_center := None; zone := None; errors := [] |}.

Definition add_error (r : validation_result) (msg : string)
  : validation_result :=
  {| valid := valid r; within_campus := within_campus r;
     v_nearest_landmark := v_nearest_landmark r;
     distance_from_center := distance_from_center r;
     zone := zone r; errors := errors r ++ [msg] |}.

Definition err_latitude : string :=
  "Invalid latitude: must be between -90 and 90".
Definition err_longitude : string :=
  "Invalid longitude: must be between -180 and 180".
Definition err_outside : string :=
  "Location is outside OAU campus boundaries".

Definition lat_in_range (latitude : Q) : bool :=
  Qle_bool (-90) latitude && Qle_bool latitude 90.
Definition lon_in_range (longitude : Q) : bool :=
  Qle_bool (-180) longitude && Qle_bool longitude 180.

(** [None] only if [is_within_oau_campus] raised. *)
Definition validate_coordinates (latitude longitude : Q)
  : option validation_result :=
  let result := validation_init in
  let result :=
    if negb (lat_in_range latitude) then add_error result err_latitude
    else result in
  let result :=
    if negb (lon_in_range longitude) then add_error result err_longitude
    else result in
  match errors result with
  | _ :: _ => Some result
  | [] =>
      match is_within_oau_campus latitude longitude with
      | None => None
      | Some w =>
          let d := distance_km latitude longitude
                     settings.OAU_CENTER_LAT settings.OAU_CENTER_LNG in
          if w then
            Some {| valid := true; within_campus := w;
                    v_nearest_landmark :=
                      Some (get_nearest_landmark latitude longitude);
                    distance_from_center := Some d;
                    zone := Some (determine_campus_zone latitude longitude);
                    errors := errors result |}
          else
            Some (add_error
                    {| valid := valid result; within_campus := w;
                       v_nearest_landmark := v_nearest_landmark result;
                       distance_from_center := Some d;
                       zone := zone result; errors := errors result |}
                    err_outside)
      end
  end.

(** *** Landmarks nearby *)

(** An entry of [get_nearby_landmarks]: the catalog entry with its ["id"]
    and the ["distance"] in whole meters. *)
Record nearby_landmark : Type := mk_nearby_landmark {
  nb_landmark : landmark;
  nb_distance : R
}.

Definition nearby_step (latitude longitude : Q) (radius : R)
  (nearby : list nearby_landmark) (lm : landmark) : list nearby_landmark :=
  let distance := distance_km latitude longitude (lm_lat lm) (lm_lng lm) in
  if Rle_dec distance radius
  then nearby ++ [ {| nb_landmark := lm;
                      nb_distance := Rround (distance * 1000) 0 |} ]
  else nearby.

Definition get_nearby_landmarks_within (latitude longitude : Q) (radius : R)
  : list nearby_landmark :=
  let nearby :=
    fold_left (nearby_step latitude longitude radius) OAU_LANDMARKS [] in
  PySort.sort
    (fun a b => PySort.Rle_bool (nb_distance a) (nb_distance b)) nearby.

(** The default [radius = 0.5]. *)
Definition get_nearby_landmarks (latitude longitude : Q)
  : list nearby_landmark :=
  get_nearby_landmarks_within latitude longitude 0.5.

End Geofencing.

(** ** Python dictionaries, in insertion order *)

Module Dict.

Section WithKey.
Context {K V : Type} (eqb : K -> K -> bool).

Fixpoint get (d : list (K * V)) (k : K) : option V :=
  match d with
  | [] => None
  | (k', v) :: rest => if eqb k k' then Some v else get rest k
  end.

(** [d[k] = v]: an existing key keeps its place, a new one goes last. *)
Fixpoint set (d : list (K * V)) (k : K) (v : V) : list (K * V) :=
  match d with
  | [] => [(k, v)]
  | (k', v') :: rest =>
      if eqb k k' then (k', v) :: rest else (k', v') :: set rest k v
  end.

Definition get_default (d : list (K * V)) (k : K) (default : V) : V :=
  match get d k with
  | Some v => v
  | None => default
  end.

Definition of_items (items : list (K * V)) : list (K * V) :=
  fold_left (fun d kv => set d (fst kv) (snd kv)) items [].

(** The value a key has after a run of assignments: the one assigned
    last, or the one it had before when it is not assigned at all. *)
Fixpoint last_assigned (items : list (K * V)) (k : K) (before : option V)
  : option V :=
  match items with
  | [] => before
  | (k', v) :: rest =>
      last_assigned rest k (if eqb k k' then Some v else before)
  end.

(** [max(d.items(), key=lambda x: x[1])] and [min] likewise: the first
    item of greatest, respectively least, value; [best] is the first item
    of the dictionary. *)
Fixpoint max_item (best : K * Z) (items : list (K * Z)) : K * Z :=
  match items with
  | [] => best
  | item :: rest =>
      if (snd best <? snd item)%Z then max_item item rest
      else max_item best rest
  end.

Fixpoint min_item (best : K * Z) (items : list (K * Z)) : K * Z :=
  match items with
  | [] => best
  | item :: rest =>
      if (snd item <? snd best)%Z then min_item item rest
      else min_item best rest
  end.

End WithKey.

(** [d[k] = d.get(k, 0) + 1] *)
Definition count_up {K : Type} (eqb : K -> K -> bool) (d : list (K * Z))
  (k : K) : list (K * Z) :=
  set eqb d k (get_default eqb d k 0%Z + 1)%Z.

End Dict.

(** ** app/utils/location_utils.py *)

Module LocationUtils.

Import Geofencing.

Inductive UserRole : Type := PASSENGER | DRIVER.

(** The columns of a [LocationUpdate] row the service reads. *)
Record LocationUpdate : Type := mk_LocationUpdate {
  lu_latitude : Q;
  lu_longitude : Q;
  lu_timestamp : Z
}.

Record LocationPoint : Type := mk_LocationPoint {
  latitude : Q;
  longitude : Q;
  timestamp : option Z
}.

(** [last_updated], a reading of the wall clock, is left out. *)
Record LocationCluster : Type := mk_LocationCluster {
  center_lat : Q;
  center_lng : Q;
  radius : Q;
  locations : list LocationPoint;
  user_count : nat
}.

Definition new_cluster (center_lat center_lng radius : Q) : LocationCluster :=
  {| center_lat := center_lat; center_lng := center_lng; radius := radius;
     locations := []; user_count := 0 |}.

(** Distance in meters from a point to the centre of a cluster. *)
Definition meters_to_center (c : LocationCluster) (location : LocationPoint)
  : R :=
  (distance_km (latitude location) (longitude location)
     (center_lat c) (center_lng c) * 1000)%R.

(** [LocationCluster.add_location]: the cluster afterwards and the value
    returned. *)
Definition add_location (c : LocationCluster) (location : LocationPoint)
  : LocationCluster * bool :=
  if Rle_dec (meters_to_center c location) (Q2R (radius c))
  then ({| center_lat := center_lat c; center_lng := center_lng c;
           radius := radius c;
           locations := locations c ++ [location];
           user_count := S (user_count c) |}, true)
  else (c, false).

Definition enumerate {A : Type} (l : list A) : list (nat * A) :=
  combine (seq 0 (List.length l)) l.

Definition processed_mem (i : nat) (processed : list nat) : bool :=
  existsb (Nat.eqb i) processed.

Definition point_of (u : LocationUpdate) : LocationPoint :=
  {| latitude := lu_latitude u; longitude := lu_longitude u;
     timestamp := Some (lu_timestamp u) |}.

(** The inner loop of [_create_location_clusters], one sample [j]. *)
Definition absorb_step (st : LocationCluster * list nat)
  (je : nat * (LocationUpdate * UserRole)) : LocationCluster * list nat :=
  let '(cluster, processed_locations) := st in
  let '(j, (other_loc, other_role)) := je in
  if processed_mem j processed_locations then st
  else
    let other_point := point_of other_loc in
    let '(cluster', added) := add_location cluster other_point in
    if added then (cluster', j :: processed_locations)
    else (cluster', processed_locations).

(** The outer loop, one sample [i]. *)
Definition seed_step (location_data : list (LocationUpdate * UserRole))
  (st : list LocationCluster * list nat)
  (ie : nat * (LocationUpdate * UserRole))
  : list LocationCluster * list nat :=
  let '(clusters, processed_locations) := st in
  let '(i, (loc_update, user_role)) := ie in
  if processed_mem i processed_locations then st
  else
    let cluster :=
      new_cluster (lu_latitude loc_update) (lu_longitude loc_update) 100 in
    let location_point := point_of loc_update in
    let cluster := fst (add_location cluster location_point) in
    let processed_locations := i :: processed_locations in
    let '(cluster, processed_locations) :=
      fold_left absorb_step (enumerate location_data)
        (cluster, processed_locations) in
    if (2 <=? user_count cluster)%nat
    then (clusters ++ [cluster], processed_locations)
    else (clusters, processed_locations).

Definition _create_location_clusters
  (location_data : list (LocationUpdate * UserRole)) : list LocationCluster :=
  fst (fold_left (seed_step location_data) (enumerate location_data)
         ([], [])).

(** *** Pickup scoring *)

(** A landmark dictionary as [_calculate_pickup_score] reads it: the keys
    ["type"] and ["id"] may be missing. *)
Record pickup_landmark : Type := mk_pickup_landmark {
  pl_id : option string;
  pl_type : option string;
  pl_distance_meters : Q
}.

Record driver_location : Type := mk_driver_location {
  dl_session_id : string;
  dl_distance_meters : Q
}.

Record pickup_score : Type := mk_pickup_score {
  ps_total_score : Q;
  ps_distance : Q;
  ps_driver_count : Z;
  ps_accessibility : Q;
  ps_safety : Q;
  ps_wait_time : Z
}.

Definition accessibility_scores : list (string * Q) :=
  [ ("entrance", 90); ("building", 80); ("hall", 75); ("faculty", 85);
    ("hostel", 70); ("sports", 60); ("hospital", 95); ("library", 85);
    ("food", 65); ("service", 70); ("religious", 60) ]%string%Q.

Definition safety_landmarks : list string :=
  [ "main_gate"; "sub"; "teaching_hospital"; "central_library" ]%string.

Definition distance_score_of (distance_km : Q) : Q :=
  Qmax 0 (100 - distance_km * 50).

Definition count_nearby_drivers (driver_locations : list driver_location)
  : Z :=
  Z.of_nat
    (List.length
       (filter (fun driver => Qle_bool (dl_distance_meters driver) 500)
          driver_locations)).

Definition accessibility_of (lm : pickup_landmark) : Q :=
  Dict.get_default String.eqb accessibility_scores
    (match pl_type lm with Some t => t | None => "unknown"%string end) 50.

Definition safety_of (lm : pickup_landmark) : Q :=
  match pl_id lm with
  | Some i => if existsb (String.eqb i) safety_landmarks then 90 else 70
  | None => 70
  end.

(** The weighted sum before [round]. *)
Definition weighted_total (distance_score driver_score accessibility_score
  safety_score : Q) : Q :=
  distance_score * 0.3 + driver_score * 0.4
  + accessibility_score * 0.2 + safety_score * 0.1.

(** [passenger_location] is a parameter the body never reads. *)
Definition _calculate_pickup_score (lm : pickup_landmark)
  (passenger_location : LocationPoint)
  (driver_locations : list driver_location) : pickup_score :=
  let distance_km := pl_distance_meters lm / 1000 in
  let distance_score := distance_score_of distance_km in
  let nearby_drivers := count_nearby_drivers driver_locations in
  let driver_score := inject_Z (Z.min 100 (nearby_drivers * 25)) in
  let accessibility_score := accessibility_of lm in
  let safety_score := safety_of lm in
  let wait_time :=
    if (0 <? nearby_drivers)%Z then Z.max 2 (10 - nearby_drivers * 2)
    else 15%Z in
  let total_score :=
    weighted_total distance_score driver_score accessibility_score
      safety_score in
  {| ps_total_score := Qround total_score 1;
     ps_distance := distance_km;
     ps_driver_count := nearby_drivers;
     ps_accessibility := accessibility_score;
     ps_safety := safety_score;
     ps_wait_time := wait_time |}.

(** *** Route efficiency *)

Definition point_distance (p q : LocationPoint) : R :=
  distance_km (latitude p) (longitude p) (latitude q) (longitude q).

(** The loop over the waypoints: running total and current point. *)
Definition route_step (st : R * LocationPoint) (waypoint : LocationPoint)
  : R * LocationPoint :=
  let '(total_route_distance, current_point) := st in
  let segment_distance := point_distance current_point waypoint in
  ((total_route_distance + segment_distance)%R, waypoint).

Definition route_distance (start_location end_location : LocationPoint)
  (waypoints : option (list LocationPoint)) : R :=
  let direct_distance := point_distance start_location end_location in
  match waypoints with
  | Some (w :: ws) =>
      let '(total_route_distance, current_point) :=
        fold_left route_step (w :: ws) (0%R, start_location) in
      let final_segment := point_distance current_point end_location in
      (total_route_distance + final_segment)%R
  | _ => direct_distance
  end.

Definition efficiency_ratio_of (direct_distance total_route_distance : R)
  : R :=
  if Rlt_dec 0 total_route_distance
  then (direct_distance / total_route_distance)%R else 0%R.

Definition detour_percentage_of (direct_distance total_route_distance : R)
  : R :=
  if Rlt_dec 0 direct_distance
  then ((total_route_distance - direct_distance) / direct_distance * 100)%R
  else 0%R.

Definition _get_efficiency_rating (efficiency_ratio : R) : string :=
  if Rle_dec 0.95 efficiency_ratio then "Excellent"
  else if Rle_dec 0.85 efficiency_ratio then "Good"
  else if Rle_dec 0.70 efficiency_ratio then "Fair"
  else "Poor".

(** The report of [calculate_route_efficiency]; the suggestion texts and
    the time stamp, which read the wall clock, are left out.  The distances
    are real numbers: the model computes the sums, the quotient and the
    differences exactly, and cannot tell how two nearly equal floats
    compare. *)
Record route_report : Type := mk_route_report {
  direct_distance_km : R;
  route_distance_km : R;
  detour_distance_km : R;
  detour_percentage : R;
  efficiency_ratio : R;
  estimated_time_minutes : R;
  efficiency_rating : string
}.

Definition calculate_route_efficiency
  (start_location end_location : LocationPoint)
  (waypoints : option (list LocationPoint)) : route_report :=
  let direct_distance := point_distance start_location end_location in
  let total_route_distance :=
    route_distance start_location end_location waypoints in
  let efficiency_ratio :=
    efficiency_ratio_of direct_distance total_route_distance in
  let detour_distance := (total_route_distance - direct_distance)%R in
  let detour_percentage :=
    detour_percentage_of direct_distance total_route_distance in
  let estimated_time_minutes := (total_route_distance / 15 * 60)%R in
  {| direct_distance_km := Rround direct_distance 2;
     route_distance_km := Rround total_route_distance 2;
     detour_distance_km := Rround detour_distance 2;
     detour_percentage := Rround detour_percentage 1;
     efficiency_ratio := Rround efficiency_ratio 3;
     estimated_time_minutes := Rround estimated_time_minutes 1;
     efficiency_rating := _get_efficiency_rating efficiency_ratio |}.

End LocationUtils.

(** ** Exceptions, unpacking and query results *)

Module Py.

Inductive exn : Type :=
| TypeError
| ValueError
| IndexError
| AttributeError.

(** What a call gives: the exception it raises, or the value it
    returns. *)
Definition result (A : Type) : Type := (exn + A)%type.

(** [a, b = item] where [item] is a number: a number cannot be iterated,
    whatever the targets are. *)
Definition unpack_number {A B : Type} (item : Z) : result (A * B) :=
  inl TypeError.

(** [a, b = item] where [item] is a [str]: its characters are the items,
    and there must be exactly two of them. *)
Definition unpack_str (item : string) : result (string * string) :=
  match item with
  | String a (String b EmptyString) =>
      inr (String a EmptyString, String b EmptyString)
  | _ => inl ValueError
  end.

End Py.

Module Sql.

(** The result of a query that selects two columns is the list of its
    rows.  [result.all()] is that list; [result.scalars().all()] keeps the
    first column of every row. *)
Definition scalars {A B : Type} (rows : list (A * B)) : list A :=
  map fst rows.

End Sql.

(** ** app/core/analytics.py *)

Module Analytics.

Inductive BikeAvailability : Type := HIGH | MEDIUM | LOW | NONE.

(** [availability.value] *)
Definition value (a : BikeAvailability) : string :=
  match a with
  | HIGH => "high"
  | MEDIUM => "medium"
  | LOW => "low"
  | NONE => "none"
  end.

Record availability_stat : Type := mk_availability_stat {
  stat_count : Z;
  stat_percentage : Q
}.

Definition stats_dict : Type := list (string * availability_stat).

(** [stats.get(key, {}).get("percentage", 0)] *)
Definition percentage_of (stats : stats_dict) (key : string) : Q :=
  match Dict.get String.eqb stats key with
  | Some entry => stat_percentage entry
  | None => 0
  end.

Definition _determine_overall_bike_status (stats : stats_dict) : string :=
  match stats with
  | [] => "unknown"
  | _ :: _ =>
      let high_percentage := percentage_of stats "high" in
      let medium_percentage := percentage_of stats "medium" in
      let low_percentage := percentage_of stats "low" in
      let none_percentage := percentage_of stats "none" in
      if Qle_bool 50 high_percentage then "excellent"
      else if Qle_bool 60 (high_percentage + medium_percentage) then "good"
      else if Qle_bool 60 (low_percentage + none_percentage) then "poor"
      else "moderate"
  end.

(** What [_get_bike_availability_stats] returns: either the one-key
    dictionary with ["status"], or the full report. *)
Inductive bike_availability_stats : Type :=
| StatusOnly (status : string)
| BikeReport (total_reports : Z) (distribution : stats_dict)
    (overall_status : string).

(** The sum of the counts of a list of [(key, count)] items. *)
Definition sum_counts {A : Type} (rows : list (A * Z)) : Z :=
  fold_left (fun acc row => (acc + snd row)%Z) rows 0%Z.

(** [sum(count for _, count in availability_data)].  The items are what
    [.scalars().all()] kept, members of [BikeAvailability], each a [str]:
    the first one is unpacked into its characters, and the second
    character, a [str], cannot be added to the integer total. *)
Definition total_of (availability_data : list BikeAvailability)
  : Py.result Z :=
  match availability_data with
  | [] => inr 0%Z
  | item :: _ =>
      match Py.unpack_str (value item) with
      | inl e => inl e
      | inr (_, count) => inl Py.TypeError
      end
  end.

(** [for availability, count in availability_data: stats[availability.value]
    = ...]: unpacked from a [str], [availability] is a character, a plain
    [str] that has no [value]. *)
Definition stats_of (availability_data : list BikeAvailability)
  (total_reports : Z) : Py.result stats_dict :=
  match availability_data with
  | [] => inr []
  | item :: _ =>
      match Py.unpack_str (value item) with
      | inl e => inl e
      | inr (availability, count) => inl Py.AttributeError
      end
  end.

(** [availability_rows] is the result of the grouped query, one
    [(bike_availability, count)] row per category that has reports in the
    last ten minutes. *)
Definition _get_bike_availability_stats
  (availability_rows : list (BikeAvailability * Z))
  : Py.result bike_availability_stats :=
  let availability_data := Sql.scalars availability_rows in
  match total_of availability_data with
  | inl e => inl e
  | inr total_reports =>
      if (total_reports =? 0)%Z then inr (StatusOnly "no_recent_data")
      else
        match stats_of availability_data total_reports with
        | inl e => inl e
        | inr stats =>
            inr (BikeReport total_reports stats
                   (_determine_overall_bike_status stats))
        end
  end.

(** *** Hourly demand *)

Inductive UserRole : Type := PASSENGER | DRIVER.

(** The columns of a [UserSession] row the query reads; [created_at] in
    seconds since the epoch (UTC). *)
Record UserSession : Type := mk_UserSession {
  session_id : Z;
  role : UserRole;
  created_at : Z
}.

Definition hour_of (t : Z) : Z := ((t / 3600) mod 24)%Z.

Definition is_passenger (s : UserSession) : bool :=
  match role s with PASSENGER => true | DRIVER => false end.

(** The sessions the [where] clause of the query keeps. *)
Definition passenger_sessions (sessions : list UserSession)
  (start_date end_date : Z) : list UserSession :=
  filter (fun s => (start_date <=? created_at s)%Z
                   && (created_at s <=? end_date)%Z
                   && is_passenger s) sessions.

Definition count_at_hour (l : list UserSession) (h : Z) : Z :=
  Z.of_nat
    (List.length (filter (fun s => (hour_of (created_at s) =? h)%Z) l)).

Definition hours_of_day : list Z := map Z.of_nat (seq 0 24).

(** The grouped query of [_analyze_hourly_demand]: one
    [(hour, passenger_count)] row per hour of the day in which at least one
    kept session was created, ordered by hour. *)
Definition hourly_query (sessions : list UserSession)
  (start_date end_date : Z) : list (Z * Z) :=
  let kept := passenger_sessions sessions start_date end_date in
  filter (fun row => (0 <? snd row)%Z)
    (map (fun h => (h, count_at_hour kept h)) hours_of_day).

(** [max(items, key=lambda x: x[1])]: the first item of greatest value. *)
Fixpoint max_by_value (best : Z * Z) (items : list (Z * Z)) : Z * Z :=
  match items with
  | [] => best
  | item :: rest =>
      if (snd best <? snd item)%Z then max_by_value item rest
      else max_by_value best rest
  end.

(** [min(items, key=lambda x: x[1])]: the first item of least value. *)
Fixpoint min_by_value (best : Z * Z) (items : list (Z * Z)) : Z * Z :=
  match items with
  | [] => best
  | item :: rest =>
      if (snd item <? snd best)%Z then min_by_value item rest
      else min_by_value best rest
  end.

Record hourly_demand : Type := mk_hourly_demand {
  hourly_distribution : list (Z * Z);
  peak_hour : Z;
  lowest_hour : Z;
  average_hourly : Q
}.

(** [{int(hour): count for hour, count in items}], as the list of the
    items of the dictionary in the order they are assigned: every item is
    unpacked, and the items here are what [.scalars().all()] kept, the
    hours, which are numbers. *)
Fixpoint hourly_items (items : list Z) : Py.result (list (Z * Z)) :=
  match items with
  | [] => inr []
  | item :: rest =>
      match Py.unpack_number item with
      | inl e => inl e
      | inr (hour, count) =>
          match hourly_items rest with
          | inl e => inl e
          | inr assigned => inr ((hour, count) :: assigned)
          end
      end
  end.

(** The part of [_analyze_hourly_demand] after the comprehension, on the
    items assigned to [hourly_data].  [None] is the [ValueError] of [max]
    and [min] on an empty sequence. *)
Definition analyze_hourly_rows (rows : list (Z * Z)) : option hourly_demand :=
  let hourly_data := Dict.of_items Z.eqb rows in
  let complete_hourly :=
    map (fun hour => (hour, Dict.get_default Z.eqb hourly_data hour 0%Z))
      hours_of_day in
  match complete_hourly with
  | [] => None
  | first :: rest =>
      Some {| hourly_distribution := complete_hourly;
              peak_hour := fst (max_by_value first rest);
              lowest_hour := fst (min_by_value first rest);
              average_hourly :=
                inject_Z (fold_left Z.add (map snd complete_hourly) 0%Z)
                / 24 |}
  end.

Definition _analyze_hourly_demand (sessions : list UserSession)
  (start_date end_date : Z) : Py.result hourly_demand :=
  let fetched := Sql.scalars (hourly_query sessions start_date end_date) in
  match hourly_items fetched with
  | inl e => inl e
  | inr assigned =>
      match analyze_hourly_rows assigned with
      | None => inl Py.ValueError
      | Some report => inr report
      end
  end.

End Analytics.

(** ** app/utils/location_utils.py, the rest of [LocationService] *)

Module LocationService.

Import Geofencing LocationUtils.

(** [LocationCluster.get_density] *)
Definition get_density (c : LocationCluster) : R :=
  let area := (PI * Q2R (radius c) ^ 2)%R in
  if Rlt_dec 0 area then (INR (user_count c) / area)%R else 0%R.

(** An entry of [_get_landmarks_within_radius]: the catalog entry with its
    ["id"] and ["distance_meters"], a float of integral value that is kept
    as that integer. *)
Record radius_landmark : Type := mk_radius_landmark {
  rl_landmark : landmark;
  rl_distance_meters : Z
}.

Definition landmark_meters_from (location : LocationPoint) (lm : landmark)
  : R :=
  (distance_km (latitude location) (longitude location)
     (lm_lat lm) (lm_lng lm) * 1000)%R.

Definition within_radius_step (location : LocationPoint) (radius_meters : R)
  (nearby_landmarks : list radius_landmark) (lm : landmark)
  : list radius_landmark :=
  let distance := landmark_meters_from location lm in
  if Rle_dec distance radius_meters
  then nearby_landmarks
       ++ [ {| rl_landmark := lm;
               rl_distance_meters := Rround_half_even distance |} ]
  else nearby_landmarks.

Definition _get_landmarks_within_radius (location : LocationPoint)
  (radius_meters : R) : list radius_landmark :=
  let nearby_landmarks :=
    fold_left (within_radius_step location radius_meters) OAU_LANDMARKS []
  in
  PySort.sort
    (fun a b => (rl_distance_meters a <=? rl_distance_meters b)%Z)
    nearby_landmarks.

Definition count_types (nearby_landmarks : list radius_landmark)
  : list (string * Z) :=
  fold_left
    (fun type_counts lm =>
       Dict.count_up String.eqb type_counts (lm_type (rl_landmark lm)))
    nearby_landmarks [].

Definition _determine_location_type (location : LocationPoint) : string :=
  let nearby_landmarks := _get_landmarks_within_radius location 200 in
  match nearby_landmarks with
  | [] => "general"
  | _ :: _ =>
      match count_types nearby_landmarks with
      | first :: rest => fst (Dict.max_item first rest)
      | [] => "general"
      end
  end.

Definition _assess_accessibility (location : LocationPoint) : string :=
  let major_landmarks := _get_landmarks_within_radius location 100 in
  if (2 <=? List.length major_landmarks)%nat then "high"
  else if (List.length major_landmarks =? 1)%nat then "medium"
  else "low".

Definition count_reports (bike_reports : list Analytics.BikeAvailability)
  : list (string * Z) :=
  fold_left
    (fun counts report =>
       Dict.count_up String.eqb counts (Analytics.value report))
    bike_reports [].

Definition _analyze_bike_availability
  (bike_reports : list Analytics.BikeAvailability) : string :=
  match bike_reports with
  | [] => "unknown"
  | _ :: _ =>
      match count_reports bike_reports with
      | first :: rest => fst (Dict.max_item first rest)
      | [] => "unknown"
      end
  end.

Definition _determine_activity_level (user_count : Z) : string :=
  if (10 <=? user_count)%Z then "high"
  else if (5 <=? user_count)%Z then "medium"
  else if (1 <=? user_count)%Z then "low"
  else "none".

Definition _classify_movement_pattern (avg_speed total_distance : R)
  (location_count : Z) : string :=
  if (if Rlt_dec avg_speed 1 then true else false)
     && (if Rlt_dec total_distance 0.1 then true else false)
  then "stationary"
  else if Rlt_dec avg_speed 5 then "walking"
  else if (if Rle_dec 5 avg_speed then true else false)
          && (if Rle_dec avg_speed 20 then true else false)
  then "cycling"
  else if Rlt_dec 20 avg_speed then "vehicle"
  else "unknown".

Definition _estimate_transport_mode (avg_speed : R) : string :=
  if Rlt_dec avg_speed 2 then "on_foot"
  else if (if Rle_dec 2 avg_speed then true else false)
          && (if Rle_dec avg_speed 8 then true else false)
  then "bicycle"
  else if (if Rle_dec 8 avg_speed then true else false)
          && (if Rle_dec avg_speed 25 then true else false)
  then "motorcycle"
  else if Rlt_dec 25 avg_speed then "car"
  else "unknown".

(** [_cache_location] on the dictionary [self.location_cache]. *)
Definition _cache_location (location_cache : list (string * list LocationPoint))
  (session_id : string) (location : LocationPoint)
  : list (string * list LocationPoint) :=
  let location_cache :=
    match Dict.get String.eqb location_cache session_id with
    | None => Dict.set String.eqb location_cache session_id []
    | Some _ => location_cache
    end in
  let appended :=
    Dict.get_default String.eqb location_cache session_id [] ++ [location] in
  let location_cache :=
    Dict.set String.eqb location_cache session_id appended in
  if (50 <? List.length appended)%nat
  then Dict.set String.eqb location_cache session_id
         (skipn (List.length appended - 50) appended)
  else location_cache.

(** *** Hotspots and zone activity *)

Record spot : Type := mk_spot {
  spot_lat : Q;
  spot_lng : Q;
  spot_role : UserRole;
  spot_timestamp : Z
}.

Record activity : Type := mk_activity {
  act_drivers : Z;
  act_passengers : Z;
  act_total : Z;
  act_locations : list spot
}.

Definition is_driver (r : UserRole) : bool :=
  match r with DRIVER => true | PASSENGER => false end.

Definition hotspot_step (landmark_activity : list (string * activity))
  (row : LocationUpdate * UserRole) : list (string * activity) :=
  let '(loc_update, user_role) := row in
  let lm :=
    get_nearest_landmark (lu_latitude loc_update) (lu_longitude loc_update) in
  let landmark_activity :=
    match Dict.get String.eqb landmark_activity lm with
    | None =>
        Dict.set String.eqb landmark_activity lm
          {| act_drivers := 0; act_passengers := 0; act_total := 0;
             act_locations := [] |}
    | Some _ => landmark_activity
    end in
  match Dict.get String.eqb landmark_activity lm with
  | None => landmark_activity
  | Some a =>
      Dict.set String.eqb landmark_activity lm
        {| act_drivers :=
             if is_driver user_role then (act_drivers a + 1)%Z
             else act_drivers a;
           act_passengers :=
             if is_driver user_role then act_passengers a
             else (act_passengers a + 1)%Z;
           act_total := (act_total a + 1)%Z;
           act_locations :=
             act_locations a
             ++ [ {| spot_lat := lu_latitude loc_update;
                     spot_lng := lu_longitude loc_update;
                     spot_role := user_role;
                     spot_timestamp := lu_timestamp loc_update |} ] |}
  end.

Record hotspot : Type := mk_hotspot {
  hs_landmark : string;
  hs_total_activity : Z;
  hs_drivers : Z;
  hs_passengers : Z;
  hs_ratio : Q;
  hs_activity_level : string
}.

Definition hotspot_of (item : string * activity) : hotspot :=
  let '(lm, a) := item in
  {| hs_landmark := lm;
     hs_total_activity := act_total a;
     hs_drivers := act_drivers a;
     hs_passengers := act_passengers a;
     hs_ratio := inject_Z (act_drivers a)
                 / inject_Z (Z.max (act_passengers a) 1);
     hs_activity_level := _determine_activity_level (act_total a) |}.

Definition _identify_activity_hotspots
  (location_data : list (LocationUpdate * UserRole)) : list hotspot :=
  let landmark_activity := fold_left hotspot_step location_data [] in
  let hotspots :=
    map hotspot_of
      (filter (fun item => (3 <=? act_total (snd item))%Z)
         landmark_activity) in
  let hotspots :=
    PySort.sort
      (fun a b => (hs_total_activity b <=? hs_total_activity a)%Z) hotspots
  in
  firstn 10 hotspots.

Record zone_counts : Type := mk_zone_counts {
  zc_drivers : Z;
  zc_passengers : Z;
  zc_total : Z
}.

Definition zone_step (zone_activity : list (string * zone_counts))
  (row : LocationUpdate * UserRole) : list (string * zone_counts) :=
  let '(loc_update, user_role) := row in
  let zone :=
    determine_campus_zone (lu_latitude loc_update)
      (lu_longitude loc_update) in
  let zone_activity :=
    match Dict.get String.eqb zone_activity zone with
    | None =>
        Dict.set String.eqb zone_activity zone
          {| zc_drivers := 0; zc_passengers := 0; zc_total := 0 |}
    | Some _ => zone_activity
    end in
  match Dict.get String.eqb zone_activity zone with
  | None => zone_activity
  | Some z =>
      Dict.set String.eqb zone_activity zone
        {| zc_drivers :=
             if is_driver user_role then (zc_drivers z + 1)%Z
             else zc_drivers z;
           zc_passengers :=
             if is_driver user_role then zc_passengers z
             else (zc_passengers z + 1)%Z;
           zc_total := (zc_total z + 1)%Z |}
  end.

Definition _calculate_zone_activity
  (location_data : list (LocationUpdate * UserRole))
  : list (string * zone_counts) :=
  fold_left zone_step location_data [].

(** *** Pickup recommendations *)

Record pickup_option : Type := mk_pickup_option {
  po_landmark : radius_landmark;
  po_score : Q;
  po_distance : Q;
  po_available_drivers : Z;
  po_accessibility : Q;
  po_safety_rating : Q;
  po_estimated_wait_time : Z
}.

(** The dictionary [_calculate_pickup_score] reads, for an entry of
    [_get_landmarks_within_radius]. *)
Definition as_pickup_landmark (lm : radius_landmark) : pickup_landmark :=
  {| pl_id := Some (lm_id (rl_landmark lm));
     pl_type := Some (lm_type (rl_landmark lm));
     pl_distance_meters := inject_Z (rl_distance_meters lm) |}.

Definition pickup_option_of (passenger_location : LocationPoint)
  (driver_locations : list driver_location) (lm : radius_landmark)
  : pickup_option :=
  let location_score :=
    _calculate_pickup_score (as_pickup_landmark lm) passenger_location
      driver_locations in
  {| po_landmark := lm;
     po_score := ps_total_score location_score;
     po_distance := ps_distance location_score;
     po_available_drivers := ps_driver_count location_score;
     po_accessibility := ps_accessibility location_score;
     po_safety_rating := ps_safety location_score;
     po_estimated_wait_time := ps_wait_time location_score |}.

(** [get_optimal_pickup_locations]; [driver_locations] is what
    [_get_nearby_drivers] returned, and [[]] when there is no database
    session. *)
Definition get_optimal_pickup_locations (passenger_location : LocationPoint)
  (max_distance : R) (driver_locations : list driver_location)
  : list pickup_option :=
  let nearby_landmarks :=
    _get_landmarks_within_radius passenger_location max_distance in
  let optimal_locations :=
    map (pickup_option_of passenger_location driver_locations)
      nearby_landmarks in
  let optimal_locations :=
    PySort.sort (fun a b => Qle_bool (po_score b) (po_score a))
      optimal_locations in
  firstn 10 optimal_locations.

End LocationService.

(** ** app/core/analytics.py, more of [CampusAnalytics] *)

Module CampusAnalytics.

Import Geofencing Analytics.

(** The columns of an [EmergencyAlert] row; times in seconds. *)
Record EmergencyAlert : Type := mk_EmergencyAlert {
  ea_latitude : Q;
  ea_longitude : Q;
  ea_alert_type : string;
  ea_created_at : Z;
  ea_resolved_at : option Z;
  ea_is_resolved : bool;
  ea_authorities_notified : bool
}.

Definition count_where {A : Type} (f : A -> bool) (l : list A) : Z :=
  Z.of_nat (List.length (filter f l)).

Definition _calculate_safety_score (recent_emergencies : list EmergencyAlert)
  : Q :=
  let base_score := 100.0%Q in
  let emergency_penalty :=
    (Z.of_nat (List.length recent_emergencies) * 5)%Z in
  let unresolved_count :=
    count_where (fun alert => negb (ea_is_resolved alert))
      recent_emergencies in
  let unresolved_penalty := (unresolved_count * 10)%Z in
  let response_penalty := 0%Z in
  let safety_score :=
    Qmax 0
      (base_score - inject_Z emergency_penalty
       - inject_Z unresolved_penalty - inject_Z response_penalty) in
  Qround safety_score 1.

Definition _calculate_response_rate (emergencies : list EmergencyAlert) : Q :=
  match emergencies with
  | [] => 100.0
  | _ :: _ =>
      let responded_count :=
        count_where ea_authorities_notified emergencies in
      Qround
        (inject_Z responded_count
         / inject_Z (Z.of_nat (List.length emergencies)) * 100) 1
  end.

(** An alert counts as resolved when it is flagged so and has a resolution
    time. *)
Definition resolved_with_time (alert : EmergencyAlert) : bool :=
  ea_is_resolved alert
  && match ea_resolved_at alert with Some _ => true | None => false end.

(** [(alert.resolved_at - alert.created_at).total_seconds() / 60] *)
Definition resolution_minutes (alert : EmergencyAlert) : Q :=
  match ea_resolved_at alert with
  | Some t => inject_Z (t - ea_created_at alert) / 60
  | None => 0
  end.

(** The sum, the quotient and [round] are computed exactly here; the
    binary64 value can differ from it in the last decimal reported (three
    seconds are 0.05 min exactly, which rounds to 0.0, and a little more
    than 0.05 as a float, which rounds to 0.1). *)
Definition _calculate_avg_resolution_time (emergencies : list EmergencyAlert)
  : option Q :=
  let resolved_emergencies := filter resolved_with_time emergencies in
  match resolved_emergencies with
  | [] => None
  | _ :: _ =>
      let total_resolution_time :=
        fold_left (fun total alert => total + resolution_minutes alert)
          resolved_emergencies 0 in
      Some (Qround
              (total_resolution_time
               / inject_Z (Z.of_nat (List.length resolved_emergencies))) 1)
  end.

Definition demand_recommendations : list (string * string) :=
  [ ("high",
     "More drivers needed. Consider incentivizing driver participation.");
    ("medium",
     "Moderate activity expected. Current driver count should suffice.");
    ("low",
     "Low demand period. Good time for driver breaks or maintenance.") ]%string.

Definition _get_demand_recommendation (predicted_demand : string) : string :=
  Dict.get_default String.eqb demand_recommendations predicted_demand
    "Monitor situation closely."%string.

(** [_generate_demand_predictions] without ["based_on"], a text made from
    the wall clock; [historical] is what the count query returned. *)
Record demand_prediction : Type := mk_demand_prediction {
  next_hour_demand : string;
  confidence : string;
  recommendation : string
}.

(** [x or 0] for the result of [scalar_one_or_none()]. *)
Definition or_zero (x : option Z) : Z :=
  match x with Some n => n | None => 0%Z end.

Definition _generate_demand_predictions (historical : option Z)
  : demand_prediction :=
  let historical_count := or_zero historical in
  let predicted_demand :=
    (if (20 <? historical_count)%Z then "high"
     else if (10 <? historical_count)%Z then "medium"
     else "low")%string in
  {| next_hour_demand := predicted_demand;
     confidence := "low";
     recommendation := _get_demand_recommendation predicted_demand |}.

(** [l[i]] for a Python list: negative indices count from the end, and
    [None] is the [IndexError]. *)
Definition py_index {A : Type} (l : list A) (i : Z) : option A :=
  if (0 <=? i)%Z then nth_error l (Z.to_nat i)
  else if (- Z.of_nat (List.length l) <=? i)%Z
  then nth_error l (Z.to_nat (Z.of_nat (List.length l) + i))
  else None.

Definition day_names : list string :=
  [ "Sunday"; "Monday"; "Tuesday"; "Wednesday"; "Thursday"; "Friday";
    "Saturday" ]%string.

Record daily_demand : Type := mk_daily_demand {
  daily_distribution : list (string * Z);
  busiest_day : option string;
  quietest_day : option string
}.

(** [{day_names[int(day)]: count for day, count in items}], as the list
    of the items in the order they are assigned: every item is unpacked,
    and the items here are what [.scalars().all()] kept, the day numbers. *)
Fixpoint daily_items (items : list Z) : Py.result (list (string * Z)) :=
  match items with
  | [] => inr []
  | item :: rest =>
      match Py.unpack_number item with
      | inl e => inl e
      | inr (day, count) =>
          match py_index day_names day with
          | None => inl Py.IndexError
          | Some name =>
              match daily_items rest with
              | inl e => inl e
              | inr assigned => inr ((name, count) :: assigned)
              end
          end
      end
  end.

(** [daily_rows] is the result of the grouped query, one
    [(day_of_week, passenger_count)] row per day that has sessions. *)
Definition _analyze_daily_demand (daily_rows : list (Z * Z))
  : Py.result daily_demand :=
  match daily_items (Sql.scalars daily_rows) with
  | inl e => inl e
  | inr assigned =>
      let daily_data := Dict.of_items String.eqb assigned in
      inr {| daily_distribution := daily_data;
             busiest_day :=
               match daily_data with
               | first :: rest => Some (fst (Dict.max_item first rest))
               | [] => None
               end;
             quietest_day :=
               match daily_data with
               | first :: rest => Some (fst (Dict.min_item first rest))
               | [] => None
               end |}
  end.

(** The ["active_users"] part of [get_real_time_stats]; each count is
    [scalar_one_or_none() or 0]. *)
Record active_users : Type := mk_active_users {
  au_total : Z;
  au_drivers : Z;
  au_passengers : Z;
  au_ratio : Q
}.

Definition active_users_of (total drivers passengers : option Z)
  : active_users :=
  let total_active := or_zero total in
  let active_drivers := or_zero drivers in
  let active_passengers := or_zero passengers in
  {| au_total := total_active;
     au_drivers := active_drivers;
     au_passengers := active_passengers;
     au_ratio :=
       Qround (inject_Z active_passengers
               / inject_Z (Z.max active_drivers 1)) 2 |}.

(** *** Heat map *)

Record heatmap_point : Type := mk_heatmap_point {
  hp_lat : Q;
  hp_lng : Q;
  hp_intensity : Z;
  hp_timestamp : Z
}.

Record heatmap : Type := mk_heatmap {
  hm_total_data_points : Z;
  hm_zone_activity : list (string * Z);
  hm_landmark_activity : list (string * Z);
  hm_heatmap_points : list heatmap_point;
  hm_most_active_zone : option string;
  hm_most_active_landmark : option string
}.

Definition most_active (d : list (string * Z)) : option string :=
  match d with
  | first :: rest => Some (fst (Dict.max_item first rest))
  | [] => None
  end.

(** The part of [get_campus_heatmap_data] after the query. *)
Definition heatmap_of (locations : list LocationUtils.LocationUpdate)
  : heatmap :=
  let zone_activity :=
    fold_left
      (fun d location =>
         Dict.count_up String.eqb d
           (determine_campus_zone (LocationUtils.lu_latitude location)
              (LocationUtils.lu_longitude location)))
      locations [] in
  let landmark_activity :=
    fold_left
      (fun d location =>
         Dict.count_up String.eqb d
           (get_nearest_landmark (LocationUtils.lu_latitude location)
              (LocationUtils.lu_longitude location)))
      locations [] in
  let heatmap_points :=
    map (fun location =>
           {| hp_lat := LocationUtils.lu_latitude location;
              hp_lng := LocationUtils.lu_longitude location;
              hp_intensity := 1;
              hp_timestamp := LocationUtils.lu_timestamp location |})
      locations in
  {| hm_total_data_points := Z.of_nat (List.length locations);
     hm_zone_activity := zone_activity;
     hm_landmark_activity := landmark_activity;
     hm_heatmap_points := heatmap_points;
     hm_most_active_zone := most_active zone_activity;
     hm_most_active_landmark := most_active landmark_activity |}.

End CampusAnalytics.

(** ** The specification's own wording, for comparison with the code *)

Module Spec.

(** A named rectangle of the zone table: latitude and longitude bounds,
    both ends included. *)
Record zone_rect : Type := mk_zone_rect {
  zr_name : string;
  zr_lat_lo : Q;
  zr_lat_hi : Q;
  zr_lng_lo : Q;
  zr_lng_hi : Q
}.

(** The table in its priority order. *)
Definition zone_rectangles : list zone_rect :=
  [ mk_zone_rect "Academic Zone" 7.5200 7.5260 4.5180 4.5230;
    mk_zone_rect "Student Residential Zone" 7.5260 7.5320 4.5120 4.5180;
    mk_zone_rect "Medical Zone" 7.5320 7.5380 4.5100 4.5150;
    mk_zone_rect "Sports & Recreation Zone" 7.5180 7.5220 4.5220 4.5280 ].

Definition rect_contains (lat lon : Q) (r : zone_rect) : bool :=
  Qle_bool (zr_lat_lo r) lat && Qle_bool lat (zr_lat_hi r)
  && Qle_bool (zr_lng_lo r) lon && Qle_bool lon (zr_lng_hi r).

(** First match in priority order, else the catch-all zone. *)
Definition resolveZone (lat lon : Q) : string :=
  match find (rect_contains lat lon) zone_rectangles with
  | Some r => zr_name r
  | None => "General Campus Area"%string
  end.

(** The four bike-status rules, first match wins. *)
Definition bike_status (high medium low none : Q) : string :=
  if Qle_bool 50 high then "excellent"
  else if Qle_bool 60 (high + medium) then "good"
  else if Qle_bool 60 (low + none) then "poor"
  else "moderate".

(** The point of the unit sphere with latitude [lat] and longitude [lon],
    both in radians. *)
Definition sphere_point (lat lon : R) : R * R * R :=
  (cos lat * cos lon, cos lat * sin lon, sin lat)%R.

Definition dot3 (u v : R * R * R) : R :=
  let '(u1, u2, u3) := u in
  let '(v1, v2, v3) := v in
  (u1 * v1 + u2 * v2 + u3 * v3)%R.

(** The haversine of an angle. *)
Definition hav (theta : R) : R := (sin (theta / 2) ^ 2)%R.

(** The haversine formula for the great-circle distance on a sphere of
    the given radius, between two points given in degrees. *)
Definition haversine_distance (radius lat1 lon1 lat2 lon2 : R) : R :=
  let phi1 := (lat1 * (PI / 180))%R in
  let phi2 := (lat2 * (PI / 180))%R in
  let lambda1 := (lon1 * (PI / 180))%R in
  let lambda2 := (lon2 * (PI / 180))%R in
  (2 * radius
   * asin (sqrt (hav (phi2 - phi1)
                 + cos phi1 * cos phi2 * hav (lambda2 - lambda1))))%R.

(** The central angle [calculate_distance] multiplies by the radius, on
    angles in radians. *)
Definition central_angle (lat1 lon1 lat2 lon2 : R) : R :=
  (2 * asin (sqrt (Geofencing.haversine_a lat1 lon1 lat2 lon2)))%R.

Definition det3 (u v w : R * R * R) : R :=
  let '(u1, u2, u3) := u in
  let '(v1, v2, v3) := v in
  let '(w1, w2, w3) := w in
  (u1 * (v2 * w3 - v3 * w2) - u2 * (v1 * w3 - v3 * w1)
   + u3 * (v1 * w2 - v2 * w1))%R.

(** The length of the path from [current] through [waypoints] to
    [destination]: the sum of the consecutive segment distances. *)
Fixpoint segments_length (current : LocationUtils.LocationPoint)
  (waypoints : list LocationUtils.LocationPoint)
  (destination : LocationUtils.LocationPoint) : R :=
  match waypoints with
  | [] => LocationUtils.point_distance current destination
  | w :: ws =>
      (LocationUtils.point_distance current w
       + segments_length w ws destination)%R
  end.

(** Distance in kilometers from a point to a landmark, and the same in
    whole meters as [get_nearest_landmark] records it. *)
Definition landmark_km (lat lon : Q) (lm : Geofencing.landmark) : R :=
  Geofencing.distance_km lat lon (Geofencing.lm_lat lm) (Geofencing.lm_lng lm).

Definition landmark_meters (lat lon : Q) (lm : Geofencing.landmark) : R :=
  Rround (landmark_km lat lon lm * 1000) 0.

(** The three proximity tiers, on a count of meters. *)
Definition tier_label (name : string) (meters : R) : string :=
  if Rlt_dec meters 50 then ("At " ++ name)%string
  else if Rlt_dec meters 200 then ("Near " ++ name)%string
  else ("Close to " ++ name ++ " (" ++ str_of_Z (Rint meters) ++ "m)")%string.

(** The state of the scan once it has settled on a landmark. *)
Definition settled_on (lat lon : Q) (lm : Geofencing.landmark)
  : Geofencing.nearest_state :=
  {| Geofencing.min_distance := Some (landmark_km lat lon lm);
     Geofencing.nearest_landmark := Geofencing.lm_name lm;
     Geofencing.nearest_info :=
       Some {| Geofencing.info_name := Geofencing.lm_name lm;
               Geofencing.info_type := Geofencing.lm_type lm;
               Geofencing.info_distance := landmark_meters lat lon lm;
               Geofencing.info_description :=
                 Geofencing.lm_description lm |} |}.

(** Whether a sample lies within [radius] meters of a centre. *)
Definition sample_within (center_lat center_lng radius : Q)
  (s : LocationUtils.LocationUpdate) : bool :=
  if Rle_dec
       (Geofencing.distance_km (LocationUtils.lu_latitude s)
          (LocationUtils.lu_longitude s) center_lat center_lng * 1000)%R
       (Q2R radius)
  then true else false.

Definition near_seed (radius : Q) (seed s : LocationUtils.LocationUpdate)
  : bool :=
  sample_within (LocationUtils.lu_latitude seed)
    (LocationUtils.lu_longitude seed) radius s.

(** A cluster that has taken in the samples [ss], in that order. *)
Definition grow (c : LocationUtils.LocationCluster)
  (ss : list LocationUtils.LocationUpdate) : LocationUtils.LocationCluster :=
  {| LocationUtils.center_lat := LocationUtils.center_lat c;
     LocationUtils.center_lng := LocationUtils.center_lng c;
     LocationUtils.radius := LocationUtils.radius c;
     LocationUtils.locations :=
       LocationUtils.locations c ++ map LocationUtils.point_of ss;
     LocationUtils.user_count :=
       (List.length ss + LocationUtils.user_count c)%nat |}.

(** The cluster seeded at [seed] that has absorbed [absorbed]. *)
Definition seeded_cluster (radius : Q) (seed : LocationUtils.LocationUpdate)
  (absorbed : list LocationUtils.LocationUpdate)
  : LocationUtils.LocationCluster :=
  {| LocationUtils.center_lat := LocationUtils.lu_latitude seed;
     LocationUtils.center_lng := LocationUtils.lu_longitude seed;
     LocationUtils.radius := radius;
     LocationUtils.locations :=
       map LocationUtils.point_of (seed :: absorbed);
     LocationUtils.user_count := S (List.length absorbed) |}.

(** Greedy clustering as the specification words it: the first sample not
    yet processed seeds a cluster, every other unprocessed sample within
    the radius of the seed is absorbed and thereby processed, the cluster
    is kept when it has at least 2 members, and the same is done with the
    samples that are left.  [fuel] bounds the number of seeds. *)
Fixpoint greedy_clusters (radius : Q) (fuel : nat)
  (samples : list LocationUtils.LocationUpdate)
  : list LocationUtils.LocationCluster :=
  match fuel with
  | O => []
  | S fuel' =>
      match samples with
      | [] => []
      | seed :: rest =>
          let absorbed := filter (near_seed radius seed) rest in
          let left := filter (fun s => negb (near_seed radius seed s)) rest in
          let cluster := seeded_cluster radius seed absorbed in
          (if (2 <=? LocationUtils.user_count cluster)%nat
           then [cluster] else [])
          ++ greedy_clusters radius fuel' left
      end
  end.

(** The samples of an indexed list whose index is not yet processed. *)
Definition unprocessed (processed : list nat)
  (je : nat * (LocationUtils.LocationUpdate * LocationUtils.UserRole))
  : bool :=
  negb (LocationUtils.processed_mem (fst je) processed).

Definition sample_of
  (je : nat * (LocationUtils.LocationUpdate * LocationUtils.UserRole))
  : LocationUtils.LocationUpdate :=
  fst (snd je).

(** What one run of the inner loop absorbs into cluster [c]. *)
Definition absorbed_by (c : LocationUtils.LocationCluster)
  (processed : list nat)
  (l : list (nat * (LocationUtils.LocationUpdate * LocationUtils.UserRole)))
  : list (nat * (LocationUtils.LocationUpdate * LocationUtils.UserRole)) :=
  filter
    (fun je =>
       unprocessed processed je
       && sample_within (LocationUtils.center_lat c)
            (LocationUtils.center_lng c) (LocationUtils.radius c)
            (sample_of je))
    l.

End Spec.

(** * Properties *)

(** ** Rounding *)

Section Rounding.

Local Open Scope Q_scope.

Lemma Qround_half_even_bounds (x : Q) :
  (Qfloor x <= Qround_half_even x <= Qfloor x + 1)%Z.
Proof.
  unfold Qround_half_even.
  destruct (Qcompare (x - inject_Z (Qfloor x)) (1 # 2)); try lia.
  destruct (Z.even (Qfloor x)); lia.
Qed.

Lemma Qfloor_frac (x : Q) : 0 <= x - inject_Z (Qfloor x) < 1.
Proof.
  pose proof (Qfloor_le x) as H1.
  pose proof (Qlt_floor x) as H2.
  rewrite inject_Z_plus in H2. change (inject_Z 1) with 1 in H2.
  split; lra.
Qed.

Lemma Qround_half_even_mono (x y : Q) :
  x <= y -> (Qround_half_even x <= Qround_half_even y)%Z.
Proof.
  intros Hxy.
  pose proof (Qfloor_resp_le _ _ Hxy) as Hfl.
  destruct (Z.eq_dec (Qfloor x) (Qfloor y)) as [Heq | Hne].
  - unfold Qround_half_even. rewrite <- Heq.
    destruct (Qcompare_spec (x - inject_Z (Qfloor x)) (1 # 2)) as [Hx | Hx | Hx];
      destruct (Qcompare_spec (y - inject_Z (Qfloor x)) (1 # 2)) as [Hy | Hy | Hy];
      try destruct (Z.even (Qfloor x)); try lia; exfalso; lra.
  - pose proof (Qround_half_even_bounds x).
    pose proof (Qround_half_even_bounds y).
    lia.
Qed.

Lemma Qround_mono (x y : Q) (n : nat) : x <= y -> Qround x n <= Qround y n.
Proof.
  intros Hxy. unfold Qround.
  assert (Hpos : (0 < 10 ^ Z.of_nat n)%Z) by (apply Z.pow_pos_nonneg; lia).
  assert (HposQ : 0 < inject_Z (10 ^ Z.of_nat n)).
  { change 0 with (inject_Z 0). rewrite <- Zlt_Qlt. exact Hpos. }
  apply Qmult_le_compat_r.
  - rewrite <- Zle_Qle. apply Qround_half_even_mono.
    apply Qmult_le_compat_r; [exact Hxy | apply Qlt_le_weak; exact HposQ].
  - apply Qlt_le_weak, Qinv_lt_0_compat, HposQ.
Qed.

End Rounding.

(** ** Zones *)

Section Zones.

Import Geofencing.

Lemma resolveZone_unfold (lat lon : Q) :
  Spec.resolveZone lat lon =
  match Spec.zone_rectangles with
  | [academic; residential; medical; sports] =>
      if Spec.rect_contains lat lon academic then Spec.zr_name academic
      else if Spec.rect_contains lat lon residential
      then Spec.zr_name residential
      else if Spec.rect_contains lat lon medical then Spec.zr_name medical
      else if Spec.rect_contains lat lon sports then Spec.zr_name sports
      else "General Campus Area"%string
  | _ => "General Campus Area"%string
  end.
Proof.
  unfold Spec.resolveZone, Spec.zone_rectangles, find.
  repeat match goal with
         | |- context [if ?c then Some ?r else _] => destruct c
         end; reflexivity.
Qed.

(** C5.  [determine_campus_zone] is the first match over the zone table
    taken in the order Academic, Student Residential, Medical, Sports &
    Recreation, with "General Campus Area" when no rectangle contains the
    point; at (0, 0) it answers "General Campus Area". *)
Theorem determine_campus_zone_first_match :
  map Spec.zr_name Spec.zone_rectangles =
    [ "Academic Zone"; "Student Residential Zone"; "Medical Zone";
      "Sports & Recreation Zone" ]%string
  /\ (forall lat lon : Q,
        determine_campus_zone lat lon = Spec.resolveZone lat lon)
  /\ determine_campus_zone 0 0 = "General Campus Area"%string.
Proof.
  split; [reflexivity |]. split; [| reflexivity].
  intros lat lon. rewrite resolveZone_unfold.
  unfold determine_campus_zone, Spec.zone_rectangles, Spec.rect_contains.
  cbn [Spec.zr_name Spec.zr_lat_lo Spec.zr_lat_hi Spec.zr_lng_lo
       Spec.zr_lng_hi].
  reflexivity.
Qed.

(** The rectangles share their edges; there the earlier zone wins. *)
Example zone_priority_on_shared_corner :
  map (Spec.rect_contains 7.5260 4.5180) Spec.zone_rectangles =
    [true; true; false; false]
  /\ determine_campus_zone 7.5260 4.5180 = "Academic Zone"%string.
Proof. split; reflexivity. Qed.

End Zones.

(** ** Dictionaries *)

Section DictFacts.

Context {K V : Type} (eqb : K -> K -> bool).
Hypothesis eqb_spec : forall a b : K, eqb a b = true <-> a = b.

Lemma eqb_refl_true (a : K) : eqb a a = true.
Proof. apply eqb_spec; reflexivity. Qed.

Lemma dict_set_not_nil (d : list (K * V)) (k : K) (v : V) :
  Dict.set eqb d k v <> [].
Proof.
  destruct d as [| [k' v'] rest]; simpl; [discriminate |].
  destruct (eqb k k'); discriminate.
Qed.

Lemma dict_get_set (d : list (K * V)) (k k' : K) (v : V) :
  Dict.get eqb (Dict.set eqb d k v) k' =
  if eqb k' k then Some v else Dict.get eqb d k'.
Proof.
  induction d as [| [k0 v0] rest IH]; simpl.
  - reflexivity.
  - destruct (eqb k k0) eqn:Hk; simpl.
    + apply eqb_spec in Hk; subst k0.
      destruct (eqb k' k); reflexivity.
    + destruct (eqb k' k0) eqn:Hk0.
      * apply eqb_spec in Hk0; subst k0.
        destruct (eqb k' k) eqn:Hk'; [| reflexivity].
        apply eqb_spec in Hk'; subst k'.
        rewrite eqb_refl_true in Hk; discriminate.
      * exact IH.
Qed.

Lemma dict_keys_set (d : list (K * V)) (k : K) (v : V) :
  map fst (Dict.set eqb d k v) =
  if existsb (eqb k) (map fst d) then map fst d else map fst d ++ [k].
Proof.
  induction d as [| [k0 v0] rest IH]; simpl.
  - reflexivity.
  - destruct (eqb k k0) eqn:Hk; simpl; [reflexivity |].
    rewrite IH. destruct (existsb (eqb k) (map fst rest)); reflexivity.
Qed.

Lemma dict_get_fold_set (items : list (K * V)) :
  forall (d : list (K * V)) (k : K),
    Dict.get eqb
      (fold_left (fun d kv => Dict.set eqb d (fst kv) (snd kv)) items d) k =
    Dict.last_assigned eqb items k (Dict.get eqb d k).
Proof.
  induction items as [| [k0 v0] rest IH]; intros d k; simpl.
  - reflexivity.
  - rewrite IH, dict_get_set. reflexivity.
Qed.

Lemma last_assigned_absent (items : list (K * V)) (k : K) :
  forall before : option V,
    ~ In k (map fst items) -> Dict.last_assigned eqb items k before = before.
Proof.
  induction items as [| [k0 v0] rest IH]; intros before Hnin; simpl.
  - reflexivity.
  - simpl in Hnin. rewrite IH by tauto.
    destruct (eqb k k0) eqn:Hk; [| reflexivity].
    apply eqb_spec in Hk. subst k0. tauto.
Qed.

Lemma last_assigned_in (items : list (K * V)) (k : K) :
  forall before : option V,
    In k (map fst items) ->
    exists v, In (k, v) items /\ Dict.last_assigned eqb items k before = Some v.
Proof.
  induction items as [| [k0 v0] rest IH]; intros before Hin; simpl in *.
  - contradiction.
  - destruct (existsb (eqb k) (map fst rest)) eqn:Hex.
    + apply existsb_exists in Hex. destruct Hex as [k1 [Hk1 Hk1']].
      apply eqb_spec in Hk1'; subst k1.
      destruct (IH (if eqb k k0 then Some v0 else before) Hk1)
        as [v [Hv1 Hv2]].
      exists v; split; [right; exact Hv1 | exact Hv2].
    + assert (Hr : ~ In k (map fst rest)).
      { intros Hc. apply Bool.not_true_iff_false in Hex. apply Hex.
        apply existsb_exists. exists k; split;
          [exact Hc | apply eqb_refl_true]. }
      destruct Hin as [Hk | Hk]; [| contradiction].
      subst k0. rewrite last_assigned_absent by exact Hr.
      rewrite eqb_refl_true. exists v0; split; [left |]; reflexivity.
Qed.

(** With pairwise distinct keys a dictionary built from items lists them
    unchanged. *)
Lemma dict_fold_set_nodup (items : list (K * V)) :
  forall d : list (K * V),
    NoDup (map fst (d ++ items)) ->
    fold_left (fun d kv => Dict.set eqb d (fst kv) (snd kv)) items d =
    d ++ items.
Proof.
  induction items as [| [k0 v0] rest IH]; intros d Hnd; simpl.
  - rewrite app_nil_r; reflexivity.
  - assert (Hset : Dict.set eqb d k0 v0 = d ++ [(k0, v0)]).
    { clear IH. induction d as [| [k1 v1] d' IHd]; simpl; [reflexivity |].
      simpl in Hnd. inversion Hnd as [| ? ? Hnotin Hnd']; subst.
      destruct (eqb k0 k1) eqn:Hk.
      - apply eqb_spec in Hk; subst k1. exfalso; apply Hnotin.
        rewrite map_app, in_app_iff; right; simpl; left; reflexivity.
      - rewrite IHd by exact Hnd'. reflexivity. }
    rewrite Hset, IH.
    + rewrite <- app_assoc; reflexivity.
    + rewrite <- app_assoc; exact Hnd.
Qed.

End DictFacts.

(** ** Bike availability status *)

Section BikeStatus.

Import Analytics.

Lemma determine_status_rules (stats : stats_dict) :
  stats <> [] ->
  _determine_overall_bike_status stats =
  Spec.bike_status (percentage_of stats "high")
    (percentage_of stats "medium") (percentage_of stats "low")
    (percentage_of stats "none").
Proof.
  intros Hne. destruct stats as [| entry rest]; [contradiction |].
  reflexivity.
Qed.

Lemma determine_status_empty : _determine_overall_bike_status [] = "unknown"%string.
Proof. reflexivity. Qed.

(** Iterated as a sequence, every member of [BikeAvailability] has more
    than two characters. *)
Lemma unpack_availability (a : BikeAvailability) :
  Py.unpack_str (value a) = inl Py.ValueError.
Proof. destruct a; reflexivity. Qed.

(** C8.  The rules are those of the claim: on a distribution that is given,
    [_determine_overall_bike_status] answers by the first matching rule
    among high >= 50 "excellent", high + medium >= 60 "good", low + none
    >= 60 "poor", else "moderate"; and with no recent report the result is
    the status "no_recent_data".  But no status is ever computed from
    reports.  The query selects two columns and the code keeps the first
    one of every row with [.scalars().all()], then unpacks each item as
    [availability, count]: the item is a member of [BikeAvailability], a
    [str] of more than two characters, so that every result with a row
    raises [ValueError].  With six reports "high" and four "low" the
    function raises, where the distribution high 60 %, low 40 % is
    "excellent". *)
Theorem bike_status_lost_on_reports :
  _get_bike_availability_stats [(HIGH, 6%Z); (LOW, 4%Z)] = inl Py.ValueError
  /\ (forall availability_rows : list (BikeAvailability * Z),
        _get_bike_availability_stats availability_rows =
        match availability_rows with
        | [] => inr (StatusOnly "no_recent_data")
        | _ :: _ => inl Py.ValueError
        end)
  /\ (forall stats : stats_dict,
        _determine_overall_bike_status stats =
        match stats with
        | [] => "unknown"%string
        | _ :: _ =>
            Spec.bike_status (percentage_of stats "high")
              (percentage_of stats "medium") (percentage_of stats "low")
              (percentage_of stats "none")
        end)
  /\ _determine_overall_bike_status
       [ ("high"%string, mk_availability_stat 6 60);
         ("low"%string, mk_availability_stat 4 40) ] = "excellent"%string.
Proof.
  assert (Hall : forall availability_rows : list (BikeAvailability * Z),
            _get_bike_availability_stats availability_rows =
            match availability_rows with
            | [] => inr (StatusOnly "no_recent_data")
            | _ :: _ => inl Py.ValueError
            end).
  { intros [| [a c] rest]; [reflexivity |].
    unfold _get_bike_availability_stats, Sql.scalars, total_of.
    cbn [map fst]. rewrite unpack_availability. reflexivity. }
  split; [apply Hall |]. split; [exact Hall |]. split; [| reflexivity].
  intros [| entry rest]; [reflexivity |].
  apply determine_status_rules. discriminate.
Qed.

(** The specification's sample distributions, given to the rules. *)
Example bike_status_high_60 :
  _determine_overall_bike_status
    [ ("high"%string, mk_availability_stat 6 60);
      ("medium"%string, mk_availability_stat 4 40) ] = "excellent"%string.
Proof. reflexivity. Qed.

Example bike_status_low_40_none_30 :
  _determine_overall_bike_status
    [ ("low"%string, mk_availability_stat 4 40);
      ("none"%string, mk_availability_stat 3 30);
      ("medium"%string, mk_availability_stat 3 30) ] = "poor"%string.
Proof. reflexivity. Qed.

End BikeStatus.

(** ** Hourly demand *)

Section HourlyDemand.

Import Analytics.

Lemma Z_eqb_spec' (a b : Z) : Z.eqb a b = true <-> a = b.
Proof. apply Z.eqb_eq. Qed.

Lemma hours_of_day_NoDup : NoDup hours_of_day.
Proof.
  unfold hours_of_day. apply Injective_map_NoDup.
  - intros a b Hab. apply Nat2Z.inj. exact Hab.
  - apply seq_NoDup.
Qed.

Lemma in_hours_of_day (h : Z) : In h hours_of_day <-> (0 <= h <= 23)%Z.
Proof.
  unfold hours_of_day. rewrite in_map_iff. split.
  - intros [n [Hn Hin]]. apply in_seq in Hin. lia.
  - intros Hh. exists (Z.to_nat h). split; [lia | apply in_seq; lia].
Qed.

Lemma max_by_value_spec (items : list (Z * Z)) :
  forall best : Z * Z,
    In (max_by_value best items) (best :: items)
    /\ forall item, In item (best :: items) ->
         (snd item <= snd (max_by_value best items))%Z.
Proof.
  induction items as [| item rest IH]; intros best; simpl.
  - split; [left; reflexivity |]. intros it [<- | []]. lia.
  - destruct (Z.ltb_spec (snd best) (snd item)) as [Hlt | Hge].
    + destruct (IH item) as [Hin Hmax]. split.
      * right. exact Hin.
      * intros it [<- | Hit].
        -- specialize (Hmax item (or_introl eq_refl)). lia.
        -- apply Hmax. exact Hit.
    + destruct (IH best) as [Hin Hmax]. split.
      * destruct Hin as [Hin | Hin]; [left; exact Hin | right; right; exact Hin].
      * intros it [<- | [<- | Hit]].
        -- apply Hmax. left. reflexivity.
        -- specialize (Hmax best (or_introl eq_refl)). lia.
        -- apply Hmax. right. exact Hit.
Qed.

Lemma min_by_value_spec (items : list (Z * Z)) :
  forall best : Z * Z,
    In (min_by_value best items) (best :: items)
    /\ forall item, In item (best :: items) ->
         (snd (min_by_value best items) <= snd item)%Z.
Proof.
  induction items as [| item rest IH]; intros best; simpl.
  - split; [left; reflexivity |]. intros it [<- | []]. lia.
  - destruct (Z.ltb_spec (snd item) (snd best)) as [Hlt | Hge].
    + destruct (IH item) as [Hin Hmin]. split.
      * right. exact Hin.
      * intros it [<- | Hit].
        -- specialize (Hmin item (or_introl eq_refl)). lia.
        -- apply Hmin. exact Hit.
    + destruct (IH best) as [Hin Hmin]. split.
      * destruct Hin as [Hin | Hin]; [left; exact Hin | right; right; exact Hin].
      * intros it [<- | [<- | Hit]].
        -- apply Hmin. left. reflexivity.
        -- specialize (Hmin best (or_introl eq_refl)). lia.
        -- apply Hmin. right. exact Hit.
Qed.

(** Looking a key up in a table written as [key -> (key, f key)]. *)
Lemma dict_get_tabulate (f : Z -> Z) (keys : list Z) (k : Z) :
  In k keys ->
  Dict.get Z.eqb (map (fun h => (h, f h)) keys) k = Some (f k).
Proof.
  induction keys as [| k0 rest IH]; intros Hin; simpl in *.
  - contradiction.
  - destruct (Z.eqb_spec k k0) as [-> | Hne]; [reflexivity |].
    apply IH. destruct Hin as [Hin | Hin]; [congruence | exact Hin].
Qed.

Lemma map_fst_tabulate (f : Z -> Z) (keys : list Z) :
  map fst (map (fun h => (h, f h)) keys) = keys.
Proof.
  rewrite map_map. simpl. apply map_id.
Qed.

(** The post-processing of the query rows, whatever the rows are. *)
Lemma analyze_hourly_rows_spec (rows : list (Z * Z)) :
  exists r : hourly_demand,
    analyze_hourly_rows rows = Some r
    /\ hourly_distribution r =
       map (fun hour =>
              (hour,
               Dict.get_default Z.eqb (Dict.of_items Z.eqb rows) hour 0%Z))
         hours_of_day
    /\ (exists v, In (peak_hour r, v) (hourly_distribution r)
                  /\ forall h c, In (h, c) (hourly_distribution r) ->
                                 (c <= v)%Z)
    /\ (exists v, In (lowest_hour r, v) (hourly_distribution r)
                  /\ forall h c, In (h, c) (hourly_distribution r) ->
                                 (v <= c)%Z).
Proof.
  unfold analyze_hourly_rows.
  set (complete :=
         map (fun hour =>
                (hour,
                 Dict.get_default Z.eqb (Dict.of_items Z.eqb rows) hour 0%Z))
           hours_of_day).
  destruct complete as [| first rest] eqn:Hc.
  - exfalso. subst complete. discriminate Hc.
  - eexists. split; [reflexivity |]. cbn [hourly_distribution peak_hour lowest_hour].
    split; [reflexivity |]. split.
    + destruct (max_by_value_spec rest first) as [Hin Hmax].
      exists (snd (max_by_value first rest)). split.
      * rewrite <- surjective_pairing. exact Hin.
      * intros h c Hhc. apply (Hmax (h, c)). exact Hhc.
    + destruct (min_by_value_spec rest first) as [Hin Hmin].
      exists (snd (min_by_value first rest)). split.
      * rewrite <- surjective_pairing. exact Hin.
      * intros h c Hhc. apply (Hmin (h, c)). exact Hhc.
Qed.

Lemma count_at_hour_nonneg (l : list UserSession) (h : Z) :
  (0 <= count_at_hour l h)%Z.
Proof. unfold count_at_hour. lia. Qed.

Lemma count_at_hour_absent (l : list UserSession) (h : Z) :
  (forall s, In s l -> hour_of (created_at s) <> h) ->
  count_at_hour l h = 0%Z.
Proof.
  intros Habs. unfold count_at_hour.
  replace (filter (fun s => (hour_of (created_at s) =? h)%Z) l) with
    (@nil UserSession); [reflexivity |].
  symmetry. induction l as [| s rest IH]; simpl; [reflexivity |].
  destruct (Z.eqb_spec (hour_of (created_at s)) h) as [Heq | Hne].
  - exfalso. apply (Habs s); [left; reflexivity | exact Heq].
  - apply IH. intros s' Hs'. apply Habs. right. exact Hs'.
Qed.

Lemma hourly_query_keys_NoDup (sessions : list UserSession) (a b : Z) :
  NoDup (map fst (hourly_query sessions a b)).
Proof.
  unfold hourly_query.
  generalize hours_of_day_NoDup.
  generalize hours_of_day as keys.
  induction keys as [| k rest IH]; intros Hnd; simpl; [constructor |].
  inversion Hnd as [| ? ? Hnotin Hnd']; subst.
  match goal with
  | |- context [if ?c then _ else _] => destruct c
  end; simpl.
  - constructor; [| apply IH; exact Hnd'].
    intros Hin. apply Hnotin.
    apply in_map_iff in Hin. destruct Hin as [[k' c'] [Hk' Hin]].
    simpl in Hk'; subst k'. apply filter_In in Hin. destruct Hin as [Hin _].
    apply in_map_iff in Hin. destruct Hin as [k'' [Heq Hin]].
    inversion Heq; subst. exact Hin.
  - apply IH; exact Hnd'.
Qed.

Lemma hourly_query_get (sessions : list UserSession) (a b hour : Z) :
  Dict.get_default Z.eqb (hourly_query sessions a b) hour 0%Z =
  if in_dec Z.eq_dec hour hours_of_day
  then count_at_hour (passenger_sessions sessions a b) hour
  else 0%Z.
Proof.
  unfold hourly_query, Dict.get_default.
  set (kept := passenger_sessions sessions a b).
  generalize hours_of_day as keys.
  induction keys as [| k rest IH]; simpl; [reflexivity |].
  destruct (Z.ltb_spec 0 (count_at_hour kept k)) as [Hpos | Hzero]; simpl.
  - destruct (Z.eqb_spec hour k) as [-> | Hne].
    + destruct (Z.eq_dec k k); [reflexivity | contradiction].
    + destruct (Z.eq_dec k hour); [congruence |].
      rewrite IH. destruct (in_dec Z.eq_dec hour rest); reflexivity.
  - rewrite IH.
    destruct (Z.eq_dec k hour) as [-> | Hne].
    + pose proof (count_at_hour_nonneg kept hour).
      destruct (in_dec Z.eq_dec hour rest); lia.
    + destruct (in_dec Z.eq_dec hour rest); reflexivity.
Qed.

(** What the rest of the function makes of rows that unpack into an hour
    and a count, as [.all()] yields them: the distribution has exactly the
    keys 0 .. 23 in that order, each with the number of passenger sessions
    of the window created in that hour, and the peak and the lowest hour
    carry a greatest and a least value. *)
Lemma hourly_rows_complete :
  forall (sessions : list UserSession) (start_date end_date : Z),
    exists r : hourly_demand,
      analyze_hourly_rows (hourly_query sessions start_date end_date)
      = Some r
      /\ map fst (hourly_distribution r) = map Z.of_nat (seq 0 24)
      /\ (forall hour : Z,
            In hour (map Z.of_nat (seq 0 24)) ->
            Dict.get Z.eqb (hourly_distribution r) hour =
            Some (count_at_hour
                    (passenger_sessions sessions start_date end_date) hour))
      /\ (forall hour : Z,
            In hour (map Z.of_nat (seq 0 24)) ->
            ~ In hour
                (map fst (hourly_query sessions start_date end_date)) ->
            Dict.get Z.eqb (hourly_distribution r) hour = Some 0%Z)
      /\ (exists v : Z,
            In (peak_hour r, v) (hourly_distribution r)
            /\ forall h c, In (h, c) (hourly_distribution r) -> (c <= v)%Z)
      /\ (exists v : Z,
            In (lowest_hour r, v) (hourly_distribution r)
            /\ forall h c, In (h, c) (hourly_distribution r) -> (v <= c)%Z).
Proof.
  intros sessions a b.
  destruct (analyze_hourly_rows_spec (hourly_query sessions a b))
    as [r [Hr [Hdist [Hmax Hmin]]]].
  exists r. split; [exact Hr |].
  assert (Hitems : Dict.of_items Z.eqb (hourly_query sessions a b) =
                   hourly_query sessions a b).
  { unfold Dict.of_items.
    rewrite (dict_fold_set_nodup Z.eqb Z_eqb_spec'); [reflexivity |].
    simpl. apply hourly_query_keys_NoDup. }
  rewrite Hitems in Hdist.
  assert (Hget : forall hour : Z,
             In hour hours_of_day ->
             Dict.get Z.eqb (hourly_distribution r) hour =
             Some (count_at_hour (passenger_sessions sessions a b) hour)).
  { intros hour Hin. rewrite Hdist.
    rewrite (dict_get_tabulate
               (fun hour => Dict.get_default Z.eqb
                              (hourly_query sessions a b) hour 0%Z))
      by exact Hin.
    rewrite hourly_query_get.
    destruct (in_dec Z.eq_dec hour hours_of_day); [reflexivity | contradiction]. }
  split; [rewrite Hdist; apply map_fst_tabulate |].
  split; [exact Hget |].
  split; [| split; [exact Hmax | exact Hmin]].
  intros hour Hin Hnot. rewrite Hget by exact Hin. f_equal.
  pose proof (count_at_hour_nonneg (passenger_sessions sessions a b) hour)
    as Hnn.
  destruct (Z.eq_dec (count_at_hour (passenger_sessions sessions a b) hour) 0)
    as [Hz | Hnz]; [exact Hz |].
  exfalso. apply Hnot. unfold hourly_query.
  apply in_map_iff.
  exists (hour, count_at_hour (passenger_sessions sessions a b) hour).
  split; [reflexivity |]. apply filter_In. split.
  - apply in_map_iff. exists hour. split; [reflexivity | exact Hin].
  - simpl. apply Z.ltb_lt. lia.
Qed.

Lemma hourly_query_nil_iff (sessions : list UserSession) (a b : Z) :
  hourly_query sessions a b = [] <-> passenger_sessions sessions a b = [].
Proof.
  unfold hourly_query. split.
  - intros Hq.
    destruct (passenger_sessions sessions a b) as [| s kept] eqn:Hkept;
      [reflexivity |].
    exfalso.
    assert (Hh : In (hour_of (created_at s)) hours_of_day).
    { apply in_hours_of_day. unfold hour_of.
      pose proof (Z.mod_pos_bound (created_at s / 3600) 24). lia. }
    assert (Hin : In (hour_of (created_at s),
                      count_at_hour (s :: kept) (hour_of (created_at s)))
                    (filter (fun row => (0 <? snd row)%Z)
                       (map (fun h => (h, count_at_hour (s :: kept) h))
                          hours_of_day))).
    { apply filter_In. split.
      - apply in_map_iff. exists (hour_of (created_at s)).
        split; [reflexivity | exact Hh].
      - cbn [snd]. apply Z.ltb_lt. unfold count_at_hour. cbn [filter].
        rewrite Z.eqb_refl. simpl List.length. lia. }
    rewrite Hq in Hin. exact Hin.
  - intros ->. reflexivity.
Qed.

(** C9.  The completed distribution is never produced from data.  The
    query selects the hour and the count, and the code keeps the hour
    alone with [.scalars().all()], then unpacks each item as [hour, count]:
    the item is a number, so that the function raises [TypeError] as soon
    as one passenger session falls into the window, and returns only when
    there is none, with 24 zeros and hour 0 for both the peak and the
    lowest hour.  One passenger session at 13:00 makes it raise, where
    the claim has the distribution with 1 at hour 13. *)
Theorem hourly_demand_raises_on_data :
  _analyze_hourly_demand [ mk_UserSession 1 PASSENGER 46800 ] 0 200000
  = inl Py.TypeError
  /\ forall (sessions : list UserSession) (start_date end_date : Z),
       match passenger_sessions sessions start_date end_date with
       | [] =>
           exists r : hourly_demand,
             _analyze_hourly_demand sessions start_date end_date = inr r
             /\ hourly_distribution r =
                map (fun hour => (hour, 0%Z)) (map Z.of_nat (seq 0 24))
             /\ peak_hour r = 0%Z /\ lowest_hour r = 0%Z
       | _ :: _ =>
           _analyze_hourly_demand sessions start_date end_date
           = inl Py.TypeError
       end.
Proof.
  split; [reflexivity |].
  intros sessions a b.
  pose proof (hourly_query_nil_iff sessions a b) as Hnil.
  unfold _analyze_hourly_demand.
  destruct (passenger_sessions sessions a b) as [| s kept].
  - rewrite (proj2 Hnil eq_refl).
    eexists. split; [reflexivity |]. repeat split.
  - destruct (hourly_query sessions a b) as [| row rows].
    + pose proof (proj1 Hnil eq_refl) as H. discriminate H.
    + reflexivity.
Qed.

End HourlyDemand.

(** ** Pickup scoring *)

Section PickupScore.

Import LocationUtils.
Local Open Scope Q_scope.

Lemma distance_score_nonincreasing (d1 d2 : Q) :
  d1 <= d2 -> distance_score_of d2 <= distance_score_of d1.
Proof.
  intros Hd. unfold distance_score_of.
  apply Q.max_le_compat_l. lra.
Qed.

Lemma weighted_total_mono (s1 s2 drv acc1 acc2 saf1 saf2 : Q) :
  s2 <= s1 -> acc1 == acc2 -> saf1 == saf2 ->
  weighted_total s2 drv acc2 saf2 <= weighted_total s1 drv acc1 saf1.
Proof.
  intros Hs Hacc Hsaf. unfold weighted_total. lra.
Qed.

(** C7.  The distance score [max(0, 100 - km * 50)] does not increase with
    the distance; it enters the weighted total with the weight 0.3, so the
    total does not decrease when the distance score grows; and of two
    landmarks whose scores report the same driver count, accessibility and
    safety, the strictly closer one is given a total score, before as well
    as after rounding, at least as high as the farther one. *)
Theorem closer_landmark_never_scores_lower :
  (forall d1 d2 : Q,
      d1 <= d2 ->
      Qmax 0 (100 - d2 * 50) <= Qmax 0 (100 - d1 * 50)
      /\ distance_score_of d2 <= distance_score_of d1)
  /\ (forall s1 s2 drv acc saf : Q,
        weighted_total s1 drv acc saf ==
        0.3 * s1 + 0.4 * drv + 0.2 * acc + 0.1 * saf
        /\ (s2 <= s1 ->
            weighted_total s2 drv acc saf <= weighted_total s1 drv acc saf))
  /\ (forall (near far : pickup_landmark) (passenger : LocationPoint)
        (drivers_near drivers_far : list driver_location),
        ps_driver_count (_calculate_pickup_score near passenger drivers_near)
        = ps_driver_count (_calculate_pickup_score far passenger drivers_far)
        ->
        ps_accessibility (_calculate_pickup_score near passenger drivers_near)
        == ps_accessibility
             (_calculate_pickup_score far passenger drivers_far) ->
        ps_safety (_calculate_pickup_score near passenger drivers_near) ==
        ps_safety (_calculate_pickup_score far passenger drivers_far) ->
        pl_distance_meters near < pl_distance_meters far ->
        weighted_total
          (distance_score_of (pl_distance_meters far / 1000))
          (inject_Z (Z.min 100 (count_nearby_drivers drivers_far * 25)))
          (accessibility_of far) (safety_of far)
        <= weighted_total
             (distance_score_of (pl_distance_meters near / 1000))
             (inject_Z (Z.min 100 (count_nearby_drivers drivers_near * 25)))
             (accessibility_of near) (safety_of near)
        /\ ps_total_score (_calculate_pickup_score far passenger drivers_far)
           <= ps_total_score
                (_calculate_pickup_score near passenger drivers_near)).
Proof.
  split; [| split].
  - intros d1 d2 Hd. split; apply distance_score_nonincreasing; exact Hd.
  - intros s1 s2 drv acc saf. split.
    + unfold weighted_total. ring.
    + intros Hs. apply weighted_total_mono; [exact Hs | |]; reflexivity.
  - intros near far passenger dn df Hdrv Hacc Hsaf Hdist.
    unfold _calculate_pickup_score in *.
    cbn [ps_total_score ps_driver_count ps_accessibility ps_safety] in *.
    rewrite Hdrv.
    assert (Hw : weighted_total
                   (distance_score_of (pl_distance_meters far / 1000))
                   (inject_Z (Z.min 100 (count_nearby_drivers df * 25)))
                   (accessibility_of far) (safety_of far)
                 <= weighted_total
                      (distance_score_of (pl_distance_meters near / 1000))
                      (inject_Z (Z.min 100 (count_nearby_drivers df * 25)))
                      (accessibility_of near) (safety_of near)).
    { apply weighted_total_mono; [| exact Hacc | exact Hsaf].
      apply distance_score_nonincreasing.
      apply Qmult_le_compat_r; [apply Qlt_le_weak; exact Hdist |].
      apply Qlt_le_weak, Qinv_lt_0_compat. reflexivity. }
    split; [exact Hw | apply Qround_mono; exact Hw].
Qed.

Lemma closer_landmark_never_scores_lower_witness :
  ps_total_score
    (_calculate_pickup_score
       (mk_pickup_landmark (Some "back_gate"%string)
          (Some "entrance"%string) 600)
       (mk_LocationPoint 7.5227 4.5198 None)
       [mk_driver_location "d1" 120])
  <= ps_total_score
       (_calculate_pickup_score
          (mk_pickup_landmark (Some "coop_gate"%string)
             (Some "entrance"%string) 100)
          (mk_LocationPoint 7.5227 4.5198 None)
          [mk_driver_location "d2" 300; mk_driver_location "d3" 900]).
Proof.
  apply (proj2 (proj2 closer_landmark_never_scores_lower)
           (mk_pickup_landmark (Some "coop_gate"%string)
              (Some "entrance"%string) 100)
           (mk_pickup_landmark (Some "back_gate"%string)
              (Some "entrance"%string) 600)
           (mk_LocationPoint 7.5227 4.5198 None)
           [mk_driver_location "d2" 300; mk_driver_location "d3" 900]
           [mk_driver_location "d1" 120]).
  - reflexivity.
  - vm_compute. reflexivity.
  - vm_compute. reflexivity.
  - vm_compute. reflexivity.
Defined.

Example pickup_score_sample :
  ps_total_score
    (_calculate_pickup_score
       (mk_pickup_landmark (Some "main_gate"%string)
          (Some "entrance"%string) 400)
       (mk_LocationPoint 7.5227 4.5198 None) [])
  == 51.0
  /\ ps_wait_time
       (_calculate_pickup_score
          (mk_pickup_landmark (Some "main_gate"%string)
             (Some "entrance"%string) 400)
          (mk_LocationPoint 7.5227 4.5198 None) []) = 15%Z.
Proof. split; reflexivity. Qed.

End PickupScore.

(** ** Great-circle distance *)

Section GreatCircle.

Import Geofencing.
Local Open Scope R_scope.

Lemma hav_half (x : R) : sin (x / 2) ^ 2 = (1 - cos x) / 2.
Proof.
  replace x with (2 * (x / 2)) at 2 by lra.
  rewrite cos_2a_sin. lra.
Qed.

Lemma sin2_cos2' (x : R) : sin x * sin x + cos x * cos x = 1.
Proof. pose proof (sin2_cos2 x) as H. unfold Rsqr in H. exact H. Qed.

Lemma haversine_a_dot (lat1 lon1 lat2 lon2 : R) :
  haversine_a lat1 lon1 lat2 lon2 =
  (1 - Spec.dot3 (Spec.sphere_point lat1 lon1) (Spec.sphere_point lat2 lon2)) / 2.
Proof.
  unfold haversine_a, Spec.dot3, Spec.sphere_point.
  rewrite !hav_half, !cos_minus.
  pose proof (sin2_cos2' lon1). pose proof (sin2_cos2' lon2).
  lra.
Qed.

Lemma sphere_point_unit (lat lon : R) :
  Spec.dot3 (Spec.sphere_point lat lon) (Spec.sphere_point lat lon) = 1.
Proof.
  unfold Spec.dot3, Spec.sphere_point.
  pose proof (sin2_cos2' lat) as Hlat. pose proof (sin2_cos2' lon) as Hlon.
  replace (cos lat * cos lon * (cos lat * cos lon)
           + cos lat * sin lon * (cos lat * sin lon) + sin lat * sin lat)
    with (cos lat * cos lat * (sin lon * sin lon + cos lon * cos lon)
          + sin lat * sin lat) by ring.
  rewrite Hlon. lra.
Qed.

Lemma dot3_unit_bounds (u v : R * R * R) :
  Spec.dot3 u u = 1 -> Spec.dot3 v v = 1 -> -1 <= Spec.dot3 u v <= 1.
Proof.
  destruct u as [[u1 u2] u3], v as [[v1 v2] v3]. unfold Spec.dot3.
  intros Hu Hv.
  pose proof (Rle_0_sqr (u1 + v1)) as A1. pose proof (Rle_0_sqr (u2 + v2)) as A2.
  pose proof (Rle_0_sqr (u3 + v3)) as A3. pose proof (Rle_0_sqr (u1 - v1)) as B1.
  pose proof (Rle_0_sqr (u2 - v2)) as B2. pose proof (Rle_0_sqr (u3 - v3)) as B3.
  unfold Rsqr in *. split; lra.
Qed.

Lemma haversine_a_range (lat1 lon1 lat2 lon2 : R) :
  0 <= haversine_a lat1 lon1 lat2 lon2 <= 1.
Proof.
  rewrite haversine_a_dot.
  pose proof (dot3_unit_bounds _ _ (sphere_point_unit lat1 lon1)
                (sphere_point_unit lat2 lon2)).
  lra.
Qed.

Lemma asin_nonneg (y : R) : 0 <= y <= 1 -> 0 <= asin y <= PI / 2.
Proof.
  intros Hy. pose proof (asin_bound y) as [Hlo Hhi]. split; [| exact Hhi].
  destruct (Rle_or_lt 0 (asin y)) as [H | H]; [exact H | exfalso].
  pose proof PI_RGT_0.
  assert (Hs : sin (asin y) < 0) by (apply sin_lt_0_var; lra).
  rewrite sin_asin in Hs by lra. lra.
Qed.

Lemma sqrt_unit (a : R) : 0 <= a <= 1 -> 0 <= sqrt a <= 1.
Proof.
  intros [H0 H1]. split; [apply sqrt_pos |].
  rewrite <- sqrt_1. apply sqrt_le_1_alt. exact H1.
Qed.

Lemma central_angle_range (lat1 lon1 lat2 lon2 : R) :
  0 <= Spec.central_angle lat1 lon1 lat2 lon2 <= PI.
Proof.
  unfold Spec.central_angle.
  pose proof (asin_nonneg _ (sqrt_unit _ (haversine_a_range lat1 lon1 lat2 lon2))).
  lra.
Qed.

Lemma cos_central_angle (lat1 lon1 lat2 lon2 : R) :
  cos (Spec.central_angle lat1 lon1 lat2 lon2) =
  Spec.dot3 (Spec.sphere_point lat1 lon1) (Spec.sphere_point lat2 lon2).
Proof.
  unfold Spec.central_angle.
  pose proof (haversine_a_range lat1 lon1 lat2 lon2) as Ha.
  rewrite cos_2a_sin, sin_asin by (pose proof (sqrt_unit _ Ha); lra).
  rewrite Rmult_assoc, sqrt_sqrt by lra.
  rewrite haversine_a_dot. lra.
Qed.

Lemma calculate_distance_angle (lat1 lon1 lat2 lon2 : R) :
  calculate_distance lat1 lon1 lat2 lon2 =
  6371 * Spec.central_angle (radians lat1) (radians lon1)
           (radians lat2) (radians lon2).
Proof. reflexivity. Qed.

Lemma gram_nonneg (u v w : R * R * R) :
  Spec.dot3 u u = 1 -> Spec.dot3 v v = 1 -> Spec.dot3 w w = 1 ->
  0 <= 1 + 2 * Spec.dot3 u v * Spec.dot3 v w * Spec.dot3 u w
       - Spec.dot3 u v * Spec.dot3 u v - Spec.dot3 v w * Spec.dot3 v w
       - Spec.dot3 u w * Spec.dot3 u w.
Proof.
  intros Hu Hv Hw.
  assert (Hid : Spec.det3 u v w * Spec.det3 u v w =
                Spec.dot3 u u * Spec.dot3 v v * Spec.dot3 w w
                + 2 * Spec.dot3 u v * Spec.dot3 v w * Spec.dot3 u w
                - Spec.dot3 u u * (Spec.dot3 v w * Spec.dot3 v w)
                - Spec.dot3 v v * (Spec.dot3 u w * Spec.dot3 u w)
                - Spec.dot3 w w * (Spec.dot3 u v * Spec.dot3 u v)).
  { destruct u as [[u1 u2] u3], v as [[v1 v2] v3], w as [[w1 w2] w3].
    unfold Spec.det3, Spec.dot3. ring. }
  rewrite Hu, Hv, Hw in Hid.
  pose proof (Rle_0_sqr (Spec.det3 u v w)) as Hsq. unfold Rsqr in Hsq.
  lra.
Qed.

Lemma sin_sqr_of_cos (x : R) : sin x * sin x = 1 - cos x * cos x.
Proof. pose proof (sin2_cos2' x). lra. Qed.

(** Angles in [0, PI] whose cosines are the pairwise dot products of three
    unit vectors satisfy the triangle inequality. *)
Lemma angle_triangle (u v w : R * R * R) (alpha beta gamma : R) :
  Spec.dot3 u u = 1 -> Spec.dot3 v v = 1 -> Spec.dot3 w w = 1 ->
  0 <= alpha <= PI -> 0 <= beta <= PI -> 0 <= gamma <= PI ->
  cos alpha = Spec.dot3 u v -> cos beta = Spec.dot3 v w ->
  cos gamma = Spec.dot3 u w ->
  gamma <= alpha + beta.
Proof.
  intros Hu Hv Hw Ha Hb Hg Hca Hcb Hcg.
  destruct (Rle_or_lt PI (alpha + beta)) as [Hbig | Hsmall]; [lra |].
  apply cos_decr_0; try lra.
  rewrite cos_plus, Hca, Hcb, Hcg.
  pose proof (gram_nonneg u v w Hu Hv Hw) as Hgram.
  pose proof (sin_ge_0 alpha (proj1 Ha) (proj2 Ha)) as Hsa.
  pose proof (sin_ge_0 beta (proj1 Hb) (proj2 Hb)) as Hsb.
  pose proof (sin_sqr_of_cos alpha) as Hsa2. rewrite Hca in Hsa2.
  pose proof (sin_sqr_of_cos beta) as Hsb2. rewrite Hcb in Hsb2.
  set (p := Spec.dot3 u v) in *. set (q := Spec.dot3 v w) in *.
  set (r := Spec.dot3 u w) in *.
  set (sa := sin alpha) in *. set (sb := sin beta) in *.
  destruct (Rle_or_lt (p * q - r) 0) as [Hneg | Hpos].
  - assert (0 <= sa * sb) by (apply Rmult_le_pos; assumption). lra.
  - assert (Hprod : 0 <= sa * sb) by (apply Rmult_le_pos; assumption).
    assert (Hsq : (p * q - r) * (p * q - r) <= (sa * sb) * (sa * sb)).
    { replace (sa * sb * (sa * sb)) with ((sa * sa) * (sb * sb)) by ring.
      rewrite Hsa2, Hsb2. lra. }
    assert (p * q - r <= sa * sb).
    { apply Rsqr_incr_0; [exact Hsq | lra | exact Hprod]. }
    lra.
Qed.

Lemma distance_triangle (lat1 lon1 lat2 lon2 lat3 lon3 : R) :
  calculate_distance lat1 lon1 lat3 lon3 <=
  calculate_distance lat1 lon1 lat2 lon2 + calculate_distance lat2 lon2 lat3 lon3.
Proof.
  rewrite !calculate_distance_angle.
  pose proof (angle_triangle
    (Spec.sphere_point (radians lat1) (radians lon1))
    (Spec.sphere_point (radians lat2) (radians lon2))
    (Spec.sphere_point (radians lat3) (radians lon3))
    _ _ _
    (sphere_point_unit _ _) (sphere_point_unit _ _) (sphere_point_unit _ _)
    (central_angle_range (radians lat1) (radians lon1) (radians lat2) (radians lon2))
    (central_angle_range (radians lat2) (radians lon2) (radians lat3) (radians lon3))
    (central_angle_range (radians lat1) (radians lon1) (radians lat3) (radians lon3))
    (cos_central_angle _ _ _ _) (cos_central_angle _ _ _ _) (cos_central_angle _ _ _ _)).
  lra.
Qed.

Lemma dot3_comm (u v : R * R * R) : Spec.dot3 u v = Spec.dot3 v u.
Proof.
  destruct u as [[u1 u2] u3], v as [[v1 v2] v3]. unfold Spec.dot3. ring.
Qed.

Lemma haversine_a_sym (lat1 lon1 lat2 lon2 : R) :
  haversine_a lat1 lon1 lat2 lon2 = haversine_a lat2 lon2 lat1 lon1.
Proof.
  rewrite !haversine_a_dot, dot3_comm. reflexivity.
Qed.

Lemma haversine_a_same (lat lon : R) : haversine_a lat lon lat lon = 0.
Proof.
  rewrite haversine_a_dot, sphere_point_unit. lra.
Qed.

Lemma calculate_distance_sym (lat1 lon1 lat2 lon2 : R) :
  calculate_distance lat1 lon1 lat2 lon2 =
  calculate_distance lat2 lon2 lat1 lon1.
Proof.
  unfold calculate_distance. rewrite haversine_a_sym. reflexivity.
Qed.

Lemma calculate_distance_same (lat lon : R) :
  calculate_distance lat lon lat lon = 0.
Proof.
  unfold calculate_distance.
  rewrite haversine_a_same, sqrt_0, asin_0. lra.
Qed.

Lemma calculate_distance_nonneg (lat1 lon1 lat2 lon2 : R) :
  0 <= calculate_distance lat1 lon1 lat2 lon2.
Proof.
  rewrite calculate_distance_angle.
  pose proof (central_angle_range (radians lat1) (radians lon1)
                (radians lat2) (radians lon2)).
  lra.
Qed.

(** C3.  The distance is symmetric in its two points, it is 0 from a
    point to itself, and it is the haversine great-circle distance on a
    sphere of radius 6371: 6371 times the angle in [0, PI] between the two
    points of the unit sphere. *)
Theorem calculate_distance_haversine :
  (forall lat1 lon1 lat2 lon2 : R,
      calculate_distance lat1 lon1 lat2 lon2 =
      calculate_distance lat2 lon2 lat1 lon1)
  /\ (forall lat lon : R, calculate_distance lat lon lat lon = 0)
  /\ (forall lat1 lon1 lat2 lon2 : R,
        calculate_distance lat1 lon1 lat2 lon2 =
        Spec.haversine_distance 6371 lat1 lon1 lat2 lon2)
  /\ (forall lat1 lon1 lat2 lon2 : R,
        exists theta : R,
          0 <= theta <= PI
          /\ cos theta =
             Spec.dot3 (Spec.sphere_point (radians lat1) (radians lon1))
               (Spec.sphere_point (radians lat2) (radians lon2))
          /\ calculate_distance lat1 lon1 lat2 lon2 = 6371 * theta).
Proof.
  split; [exact calculate_distance_sym |].
  split; [exact calculate_distance_same |].
  split.
  - intros lat1 lon1 lat2 lon2.
    unfold calculate_distance, Spec.haversine_distance, Spec.hav,
      haversine_a, radians.
    ring.
  - intros lat1 lon1 lat2 lon2.
    exists (Spec.central_angle (radians lat1) (radians lon1)
              (radians lat2) (radians lon2)).
    split; [apply central_angle_range |].
    split; [apply cos_central_angle | apply calculate_distance_angle].
Qed.

(** The sample of the specification: the campus centre against itself. *)
Example distance_center_center :
  distance_km 7.5227 4.5198 7.5227 4.5198 = 0.
Proof. apply calculate_distance_same. Qed.

End GreatCircle.

(** ** Rounding of reals *)

Section RealRounding.

Local Open Scope R_scope.

Lemma Int_part_bounds (x : R) : IZR (Int_part x) <= x < IZR (Int_part x) + 1.
Proof.
  pose proof (base_Int_part x) as [H1 H2]. lra.
Qed.

Lemma Int_part_mono (x y : R) : x <= y -> (Int_part x <= Int_part y)%Z.
Proof.
  intros Hxy.
  pose proof (Int_part_bounds x) as [Hx _].
  pose proof (Int_part_bounds y) as [_ Hy].
  assert (H : IZR (Int_part x) < IZR (Int_part y + 1)).
  { rewrite plus_IZR. lra. }
  apply lt_IZR in H. lia.
Qed.

Lemma Int_part_IZR (z : Z) : Int_part (IZR z) = z.
Proof.
  pose proof (Int_part_bounds (IZR z)) as [H1 H2].
  assert (A : IZR (Int_part (IZR z)) < IZR (z + 1)) by (rewrite plus_IZR; lra).
  assert (B : IZR z < IZR (Int_part (IZR z) + 1)) by (rewrite plus_IZR; lra).
  apply lt_IZR in A. apply lt_IZR in B. lia.
Qed.

Lemma Rround_half_even_bounds (x : R) :
  (Int_part x <= Rround_half_even x <= Int_part x + 1)%Z.
Proof.
  unfold Rround_half_even.
  destruct (Rlt_dec (x - IZR (Int_part x)) (1 / 2)); [lia |].
  destruct (Rlt_dec (1 / 2) (x - IZR (Int_part x))); [lia |].
  destruct (Z.even (Int_part x)); lia.
Qed.

Lemma Rround_half_even_mono (x y : R) :
  x <= y -> (Rround_half_even x <= Rround_half_even y)%Z.
Proof.
  intros Hxy. pose proof (Int_part_mono x y Hxy) as Hfl.
  destruct (Z.eq_dec (Int_part x) (Int_part y)) as [Heq | Hne].
  - unfold Rround_half_even. rewrite <- Heq.
    destruct (Rlt_dec (x - IZR (Int_part x)) (1 / 2));
      destruct (Rlt_dec (1 / 2) (x - IZR (Int_part x)));
      destruct (Rlt_dec (y - IZR (Int_part x)) (1 / 2));
      destruct (Rlt_dec (1 / 2) (y - IZR (Int_part x)));
      try destruct (Z.even (Int_part x)); try lia; exfalso; lra.
  - pose proof (Rround_half_even_bounds x).
    pose proof (Rround_half_even_bounds y).
    lia.
Qed.

Lemma Rround_half_even_IZR (z : Z) : Rround_half_even (IZR z) = z.
Proof.
  unfold Rround_half_even. rewrite Int_part_IZR.
  destruct (Rlt_dec (IZR z - IZR z) (1 / 2)) as [H | H]; [reflexivity |].
  exfalso. apply H. lra.
Qed.

Lemma pow10_pos (n : nat) : 0 < 10 ^ n.
Proof. apply pow_lt. lra. Qed.

Lemma Rround_mono (x y : R) (n : nat) : x <= y -> Rround x n <= Rround y n.
Proof.
  intros Hxy. unfold Rround. pose proof (pow10_pos n) as Hp.
  apply Rmult_le_compat_r; [apply Rlt_le, Rinv_0_lt_compat, Hp |].
  apply IZR_le, Rround_half_even_mono.
  apply Rmult_le_compat_r; lra.
Qed.

Lemma Rround_0 (n : nat) : Rround 0 n = 0.
Proof.
  unfold Rround. rewrite Rmult_0_l, Rround_half_even_IZR.
  unfold Rdiv. apply Rmult_0_l.
Qed.

Lemma Rround_1 (n : nat) : Rround 1 n = 1.
Proof.
  unfold Rround. rewrite Rmult_1_l.
  replace (10 ^ n) with (IZR (10 ^ Z.of_nat n)).
  - rewrite Rround_half_even_IZR. field.
    apply not_0_IZR. pose proof (Z.pow_pos_nonneg 10 (Z.of_nat n)). lia.
  - rewrite <- pow_IZR. reflexivity.
Qed.

Lemma Rround_nonneg (x : R) (n : nat) : 0 <= x -> 0 <= Rround x n.
Proof.
  intros Hx. rewrite <- (Rround_0 n). apply Rround_mono. exact Hx.
Qed.

Lemma Rround_le_1 (x : R) (n : nat) : x <= 1 -> Rround x n <= 1.
Proof.
  intros Hx. rewrite <- (Rround_1 n). apply Rround_mono. exact Hx.
Qed.

Lemma Rround_half_even_near (x : R) (z : Z) :
  IZR z - 1 / 2 < x < IZR z + 1 / 2 -> Rround_half_even x = z.
Proof.
  intros [Hlo Hhi]. unfold Rround_half_even.
  pose proof (Int_part_bounds x) as [Hf1 Hf2].
  destruct (Rle_or_lt (IZR z) x) as [Hge | Hlt].
  - assert (Hf : Int_part x = z).
    { assert (A : IZR (Int_part x) < IZR (z + 1)) by (rewrite plus_IZR; lra).
      assert (B : IZR z < IZR (Int_part x + 1)) by (rewrite plus_IZR; lra).
      apply lt_IZR in A. apply lt_IZR in B. lia. }
    rewrite Hf. destruct (Rlt_dec (x - IZR z) (1 / 2)); [reflexivity | lra].
  - assert (Hf : Int_part x = (z - 1)%Z).
    { assert (A : IZR (Int_part x) < IZR z) by lra.
      assert (B : IZR (z - 1) < IZR (Int_part x + 1))
        by (rewrite plus_IZR, minus_IZR; lra).
      apply lt_IZR in A. apply lt_IZR in B. lia. }
    rewrite Hf, minus_IZR.
    destruct (Rlt_dec (x - (IZR z - 1)) (1 / 2)); [lra |].
    destruct (Rlt_dec (1 / 2) (x - (IZR z - 1))); [lia | lra].
Qed.

Lemma Rround_0_digits (x : R) : Rround x 0 = IZR (Rround_half_even x).
Proof.
  unfold Rround. simpl. rewrite Rmult_1_r. field.
Qed.

Lemma Rint_IZR (z : Z) : Rint (IZR z) = z.
Proof.
  unfold Rint. destruct (Rle_dec 0 (IZR z)) as [H | H].
  - apply Int_part_IZR.
  - rewrite <- opp_IZR, Int_part_IZR. lia.
Qed.

End RealRounding.

(** ** Route efficiency *)

Section RouteEfficiency.

Import Geofencing LocationUtils.
Local Open Scope R_scope.

Lemma point_distance_nonneg (p q : LocationPoint) : 0 <= point_distance p q.
Proof. apply calculate_distance_nonneg. Qed.

Lemma point_distance_triangle (p q r : LocationPoint) :
  point_distance p r <= point_distance p q + point_distance q r.
Proof. apply distance_triangle. Qed.

(** The loop adds up the segments through the waypoints. *)
Lemma route_loop_segments (destination : LocationPoint)
  (waypoints : list LocationPoint) :
  forall (total : R) (current : LocationPoint),
    fst (fold_left route_step waypoints (total, current))
    + point_distance
        (snd (fold_left route_step waypoints (total, current))) destination
    = total + Spec.segments_length current waypoints destination.
Proof.
  induction waypoints as [| w ws IH]; intros total current; simpl.
  - reflexivity.
  - rewrite IH. lra.
Qed.

Lemma route_distance_segments (start_location end_location : LocationPoint)
  (waypoints : option (list LocationPoint)) :
  route_distance start_location end_location waypoints =
  match waypoints with
  | Some (w :: ws) =>
      Spec.segments_length start_location (w :: ws) end_location
  | _ => point_distance start_location end_location
  end.
Proof.
  unfold route_distance.
  destruct waypoints as [[| w ws] |]; try reflexivity.
  pose proof (route_loop_segments end_location (w :: ws) 0 start_location)
    as H.
  destruct (fold_left route_step (w :: ws) (0, start_location))
    as [total current].
  simpl fst in H. simpl snd in H. rewrite H. lra.
Qed.

Lemma segments_length_ge_direct (destination : LocationPoint)
  (waypoints : list LocationPoint) :
  forall current : LocationPoint,
    point_distance current destination <=
    Spec.segments_length current waypoints destination.
Proof.
  induction waypoints as [| w ws IH]; intros current; simpl.
  - lra.
  - pose proof (IH w). pose proof (point_distance_triangle current w destination).
    lra.
Qed.

Lemma route_distance_ge_direct (start_location end_location : LocationPoint)
  (waypoints : option (list LocationPoint)) :
  point_distance start_location end_location <=
  route_distance start_location end_location waypoints.
Proof.
  rewrite route_distance_segments.
  destruct waypoints as [[| w ws] |]; try lra.
  apply segments_length_ge_direct.
Qed.

Lemma efficiency_ratio_of_range (direct route : R) :
  0 <= direct <= route -> 0 <= efficiency_ratio_of direct route <= 1.
Proof.
  intros [H0 H1]. unfold efficiency_ratio_of.
  destruct (Rlt_dec 0 route) as [Hpos | Hnpos]; [| lra].
  split.
  - apply Rmult_le_pos; [exact H0 | apply Rlt_le, Rinv_0_lt_compat, Hpos].
  - apply (Rmult_le_reg_r route); [exact Hpos |].
    unfold Rdiv. rewrite Rmult_assoc, Rinv_l by lra. lra.
Qed.

Lemma detour_percentage_of_nonneg (direct route : R) :
  0 <= direct <= route -> 0 <= detour_percentage_of direct route.
Proof.
  intros [H0 H1]. unfold detour_percentage_of.
  destruct (Rlt_dec 0 direct) as [Hpos | Hnpos]; [| lra].
  apply Rmult_le_pos; [| lra].
  apply Rmult_le_pos; [lra | apply Rlt_le, Rinv_0_lt_compat, Hpos].
Qed.

(** In exact arithmetic the route distance, the sum of the consecutive
    segment distances through the waypoints, is never less than the direct
    distance, so that the efficiency ratio lies in [0, 1] and the detour
    distance and the detour percentage are not negative.  This is a fact
    about the formula: the binary64 sum of the rounded segment distances
    can fall short of the rounded direct distance by a unit in the last
    place, which the number model does not show. *)
Lemma route_never_shorter_than_direct :
  forall (start_location end_location : LocationPoint)
    (waypoints : option (list LocationPoint)),
    let direct := point_distance start_location end_location in
    let route := route_distance start_location end_location waypoints in
    let report :=
      calculate_route_efficiency start_location end_location waypoints in
    route = match waypoints with
            | Some (w :: ws) =>
                Spec.segments_length start_location (w :: ws) end_location
            | _ => direct
            end
    /\ direct <= route
    /\ 0 <= efficiency_ratio_of direct route <= 1
    /\ 0 <= route - direct
    /\ 0 <= detour_percentage_of direct route
    /\ 0 <= efficiency_ratio report <= 1
    /\ 0 <= detour_distance_km report
    /\ 0 <= detour_percentage report.
Proof.
  intros s e wps direct route report.
  pose proof (route_distance_ge_direct s e wps) as Hge.
  pose proof (point_distance_nonneg s e) as Hnn.
  fold direct in Hge, Hnn. fold route in Hge.
  assert (Hrange : 0 <= direct <= route) by lra.
  pose proof (efficiency_ratio_of_range direct route Hrange) as Hratio.
  pose proof (detour_percentage_of_nonneg direct route Hrange) as Hpct.
  split; [apply route_distance_segments |].
  split; [exact Hge |].
  split; [exact Hratio |].
  split; [lra |].
  split; [exact Hpct |].
  subst report. unfold calculate_route_efficiency.
  cbn [efficiency_ratio detour_distance_km detour_percentage].
  fold direct. fold route.
  split; [split; [apply Rround_nonneg | apply Rround_le_1]; lra |].
  split; apply Rround_nonneg; [lra | exact Hpct].
Qed.

End RouteEfficiency.

(** ** Distances along and across meridians *)

Section Meridian.

Import Geofencing.
Local Open Scope R_scope.

Lemma radians_quarter_turn (lat : R) :
  -90 <= lat <= 90 -> - (PI / 2) <= radians lat <= PI / 2.
Proof.
  intros [Hlo Hhi]. unfold radians. pose proof PI_RGT_0 as Hpi.
  split; nra.
Qed.

Lemma cos_radians_nonneg (lat : R) : -90 <= lat <= 90 -> 0 <= cos (radians lat).
Proof.
  intros Hlat. pose proof (radians_quarter_turn lat Hlat) as [Hlo Hhi].
  apply cos_ge_0; lra.
Qed.

Lemma dot3_sphere_points (lat1 lon1 lat2 lon2 : R) :
  Spec.dot3 (Spec.sphere_point lat1 lon1) (Spec.sphere_point lat2 lon2) =
  cos lat1 * cos lat2 * cos (lon1 - lon2) + sin lat1 * sin lat2.
Proof.
  unfold Spec.dot3, Spec.sphere_point. rewrite cos_minus. ring.
Qed.

Lemma cos_Rabs (x : R) : cos (Rabs x) = cos x.
Proof.
  unfold Rabs. destruct (Rcase_abs x); [apply cos_neg | reflexivity].
Qed.

Lemma Rabs_radians_diff (lat1 lat2 : R) :
  Rabs (radians lat2 - radians lat1) = Rabs (lat2 - lat1) * (PI / 180).
Proof.
  unfold radians. rewrite <- Rmult_minus_distr_r, Rabs_mult.
  rewrite (Rabs_right (PI / 180)); [reflexivity |].
  pose proof PI_RGT_0. lra.
Qed.

(** Two points are at least as far apart as their parallels are. *)
Lemma distance_ge_meridian (lat1 lon1 lat2 lon2 : R) :
  -90 <= lat1 <= 90 -> -90 <= lat2 <= 90 ->
  6371 * (Rabs (lat2 - lat1) * (PI / 180)) <=
  calculate_distance lat1 lon1 lat2 lon2.
Proof.
  intros H1 H2. rewrite calculate_distance_angle, <- Rabs_radians_diff.
  pose proof (radians_quarter_turn lat1 H1) as Hq1.
  pose proof (radians_quarter_turn lat2 H2) as Hq2.
  pose proof (central_angle_range (radians lat1) (radians lon1)
                (radians lat2) (radians lon2)) as Hrange.
  apply Rmult_le_compat_l; [lra |].
  apply cos_decr_0; try lra.
  - apply Rabs_pos.
  - unfold Rabs. destruct (Rcase_abs (radians lat2 - radians lat1)); lra.
  - rewrite cos_central_angle, dot3_sphere_points, cos_Rabs.
    rewrite (cos_minus (radians lat2) (radians lat1)).
    pose proof (cos_radians_nonneg lat1 H1) as Hc1.
    pose proof (cos_radians_nonneg lat2 H2) as Hc2.
    pose proof (COS_bound (radians lon1 - radians lon2)) as [_ Hcos].
    assert (Hprod : 0 <= cos (radians lat1) * cos (radians lat2))
      by (apply Rmult_le_pos; assumption).
    pose proof (Rmult_le_compat_l _ _ _ Hprod Hcos) as Hle.
    lra.
Qed.

(** On one meridian the distance is the difference of the latitudes. *)
Lemma distance_same_meridian (lat1 lat2 lon : R) :
  -90 <= lat1 <= 90 -> -90 <= lat2 <= 90 ->
  calculate_distance lat1 lon lat2 lon =
  6371 * (Rabs (lat2 - lat1) * (PI / 180)).
Proof.
  intros H1 H2. rewrite calculate_distance_angle, <- Rabs_radians_diff.
  pose proof (radians_quarter_turn lat1 H1) as Hq1.
  pose proof (radians_quarter_turn lat2 H2) as Hq2.
  f_equal. apply cos_inj.
  - apply central_angle_range.
  - split; [apply Rabs_pos |].
    unfold Rabs. destruct (Rcase_abs (radians lat2 - radians lat1)); lra.
  - rewrite cos_central_angle, dot3_sphere_points, cos_Rabs.
    rewrite (cos_minus (radians lat2) (radians lat1)).
    replace (radians lon - radians lon) with 0 by ring.
    rewrite cos_0. ring.
Qed.

Lemma PI_gt_3 : 3 < PI.
Proof. pose proof PI2_3_2. lra. Qed.

Lemma PI_bounds : 3.13 < PI < 3.15.
Proof.
  pose proof (PI_2_3_7_ineq 0) as [Hlo _].
  pose proof (PI_2_3_7_ineq 1) as [_ Hhi].
  unfold sum_f_R0, tg_alt, PI_2_3_7_tg, Ratan_seq in Hlo, Hhi.
  simpl in Hlo, Hhi.
  match type of Hlo with
  | ?e <= _ => replace e with (21778 / 27783) in Hlo by field
  end.
  match type of Hhi with
  | _ <= ?e =>
      replace e with (21778 / 27783 + 2 / 1215 + 1 / 84035) in Hhi by field
  end.
  split; lra.
Qed.

End Meridian.

(** ** The geofence *)

Section Geofence.

Import Geofencing.

Lemma Qlt_bool_iff (a b : Q) : Qlt_bool a b = true <-> (a < b)%Q.
Proof.
  unfold Qlt_bool. rewrite negb_true_iff. split.
  - intros H. apply Qnot_le_lt. intros Hle.
    apply Qle_bool_iff in Hle. congruence.
  - intros H. destruct (Qle_bool b a) eqn:E; [| reflexivity].
    apply Qle_bool_iff in E. exfalso. apply (Qlt_not_le _ _ H E).
Qed.

(** An edge whose ends have the same second coordinate is never entered,
    so [xinters] is never read before it is assigned. *)
Lemma ray_edge_total (x y : Q) (st : ray_state) (p2 : Q * Q) :
  exists st', ray_edge x y st p2 = Some st'.
Proof.
  destruct p2 as [p2x p2y]. unfold ray_edge.
  destruct (Qlt_bool (Qmin (p1y st) p2y) y) eqn:Hmin; [| eexists; reflexivity].
  destruct (Qle_bool y (Qmax (p1y st) p2y)) eqn:Hmax; [| eexists; reflexivity].
  destruct (Qle_bool x (Qmax (p1x st) p2x)); [| eexists; reflexivity].
  destruct (Qeq_bool (p1y st) p2y) eqn:Heq; simpl.
  - exfalso. apply Qeq_bool_iff in Heq. apply Qlt_bool_iff in Hmin.
    apply Qle_bool_iff in Hmax.
    pose proof (Q.min_l (p1y st) p2y) as Hl.
    pose proof (Q.max_l (p1y st) p2y) as Hr.
    rewrite Hl in Hmin by (rewrite Heq; apply Qle_refl).
    rewrite Hr in Hmax by (rewrite Heq; apply Qle_refl).
    apply (Qlt_not_le _ _ Hmin Hmax).
  - destruct (Qeq_bool (p1x st) p2x); [eexists; reflexivity |].
    destruct (Qle_bool x _); eexists; reflexivity.
Qed.

Lemma ray_loop_total (x y : Q) (polygon : list (Q * Q)) (idx : list nat) :
  polygon <> [] ->
  forall st : ray_state,
    exists st', ray_loop x y polygon (List.length polygon) idx st = Some st'.
Proof.
  intros Hne. induction idx as [| i rest IH]; intros st; simpl.
  - eexists; reflexivity.
  - destruct (nth_error polygon (i mod List.length polygon)) as [p2 |] eqn:Hp.
    + destruct (ray_edge_total x y st p2) as [st' Hst']. rewrite Hst'.
      apply IH.
    + exfalso. apply nth_error_None in Hp.
      assert (Hlen : List.length polygon <> 0%nat).
      { destruct polygon; [contradiction | discriminate]. }
      pose proof (Nat.mod_upper_bound i _ Hlen). lia.
Qed.

(** [point_in_polygon] raises only on an empty polygon. *)
Lemma point_in_polygon_total (lat lon : Q) (polygon : list (Q * Q)) :
  polygon <> [] -> exists b, point_in_polygon lat lon polygon = Some b.
Proof.
  intros Hne. unfold point_in_polygon.
  destruct polygon as [| [p1x0 p1y0] rest] eqn:Hp; [contradiction |].
  rewrite <- Hp in *. replace (nth_error polygon 0) with (Some (p1x0, p1y0))
    by (rewrite Hp; reflexivity).
  assert (Hne' : polygon <> []) by (rewrite Hp; discriminate).
  destruct (ray_loop_total lon lat polygon
              (seq 1 (List.length polygon)) Hne'
              {| inside := false; xinters := None;
                 p1x := p1x0; p1y := p1y0 |}) as [st' Hst'].
  rewrite Hst'. eexists; reflexivity.
Qed.

(** The flag is only toggled on an edge whose second coordinates bracket
    the first coordinate [lat] of the point. *)
Lemma ray_edge_outside_band (x y lo hi : Q) (st : ray_state) (p2 : Q * Q) :
  (lo <= p1y st <= hi)%Q -> (lo <= snd p2 <= hi)%Q ->
  (y <= lo)%Q \/ (hi < y)%Q ->
  exists st', ray_edge x y st p2 = Some st'
              /\ inside st' = inside st /\ p1y st' = snd p2.
Proof.
  intros H1 H2 Hout. destruct p2 as [p2x p2y]. simpl in H2. unfold ray_edge.
  destruct (Qlt_bool (Qmin (p1y st) p2y) y) eqn:Hmin;
    [| eexists; split; [reflexivity | split; reflexivity]].
  destruct (Qle_bool y (Qmax (p1y st) p2y)) eqn:Hmax;
    [| eexists; split; [reflexivity | split; reflexivity]].
  exfalso. apply Qlt_bool_iff in Hmin. apply Qle_bool_iff in Hmax.
  destruct Hout as [Hlow | Hhigh].
  - assert (Hb : (lo <= Qmin (p1y st) p2y)%Q) by (apply Q.min_glb; tauto).
    apply (Qlt_not_le _ _ Hmin). apply (Qle_trans _ lo); assumption.
  - assert (Hb : (Qmax (p1y st) p2y <= hi)%Q) by (apply Q.max_lub; tauto).
    apply (Qlt_not_le _ _ Hhigh). apply (Qle_trans _ (Qmax (p1y st) p2y));
      assumption.
Qed.

Lemma ray_loop_outside_band (x y lo hi : Q) (polygon : list (Q * Q))
  (n : nat) (idx : list nat) :
  (forall p, In p polygon -> (lo <= snd p <= hi)%Q) ->
  (y <= lo)%Q \/ (hi < y)%Q ->
  forall st st' : ray_state,
    (lo <= p1y st <= hi)%Q ->
    ray_loop x y polygon n idx st = Some st' -> inside st' = inside st.
Proof.
  intros Hpoly Hout. induction idx as [| i rest IH]; intros st st' Hst Hloop;
    simpl in Hloop.
  - inversion Hloop; reflexivity.
  - destruct (nth_error polygon (i mod n)) as [p2 |] eqn:Hp; [| discriminate].
    assert (Hp2 : (lo <= snd p2 <= hi)%Q)
      by (apply Hpoly; eapply nth_error_In; exact Hp).
    destruct (ray_edge_outside_band x y lo hi st p2 Hst Hp2 Hout)
      as [st1 [Hedge [Hin Hy]]].
    rewrite Hedge in Hloop.
    rewrite (IH st1 st') by (try rewrite Hy; assumption).
    exact Hin.
Qed.

Lemma point_in_polygon_outside_band (lat lon lo hi : Q)
  (polygon : list (Q * Q)) :
  (forall p, In p polygon -> (lo <= snd p <= hi)%Q) ->
  (lat <= lo)%Q \/ (hi < lat)%Q ->
  point_in_polygon lat lon polygon <> Some true.
Proof.
  intros Hpoly Hout. unfold point_in_polygon.
  destruct (nth_error polygon 0) as [[p1x0 p1y0] |] eqn:H0; [| discriminate].
  destruct (ray_loop lon lat polygon (List.length polygon)
              (seq 1 (List.length polygon)) _) as [st |] eqn:Hloop;
    [| discriminate].
  apply (ray_loop_outside_band lon lat lo hi polygon _ _ Hpoly Hout) in Hloop.
  - simpl in Hloop. rewrite Hloop. discriminate.
  - simpl. apply (Hpoly (p1x0, p1y0)). eapply nth_error_In; exact H0.
Qed.

Lemma oau_polygon_band (p : Q * Q) :
  In p oau_polygon -> (4.5050 <= snd p <= 4.5350)%Q.
Proof.
  unfold oau_polygon. simpl.
  intros H. repeat (destruct H as [<- | H]; [simpl; split; discriminate |]).
  contradiction.
Qed.

Lemma Q2R_literal (n : Z) (d : positive) :
  Q2R (n # d) = (IZR n / IZR (Z.pos d))%R.
Proof. reflexivity. Qed.

Lemma is_within_oau_polygon_band (lat lon : Q) :
  is_within_oau_polygon lat lon = Some true ->
  (4.5050 < lat)%Q /\ (lat <= 4.5350)%Q.
Proof.
  intros Hin. split.
  - apply Qnot_le_lt. intros Hle.
    apply (point_in_polygon_outside_band lat lon 4.5050 4.5350 oau_polygon
             oau_polygon_band (or_introl Hle)).
    exact Hin.
  - apply Qnot_lt_le. intros Hlt.
    apply (point_in_polygon_outside_band lat lon 4.5050 4.5350 oau_polygon
             oau_polygon_band (or_intror Hlt)).
    exact Hin.
Qed.

Lemma is_within_oau_polygon_total (lat lon : Q) :
  exists b, is_within_oau_polygon lat lon = Some b.
Proof.
  apply point_in_polygon_total. discriminate.
Qed.

(** The polygon test asks for a latitude between 4.505 and 4.535 degrees,
    the distance test for one within 5 km of latitude 7.5227: no point
    passes both. *)
Lemma is_within_oau_campus_never (lat lon : Q) :
  is_within_oau_campus lat lon = Some false.
Proof.
  unfold is_within_oau_campus.
  destruct (Rlt_dec _ _) as [Hfar | Hnear]; [reflexivity |].
  destruct (is_within_oau_polygon_total lat lon) as [[|] Hb];
    [exfalso | exact Hb].
  apply is_within_oau_polygon_band in Hb. destruct Hb as [Hlo Hhi].
  apply Qlt_Rlt in Hlo. apply Qle_Rle in Hhi.
  apply Hnear. unfold distance_km.
  unfold settings.OAU_CENTER_LAT, settings.OAU_RADIUS_KM.
  rewrite Q2R_literal in Hlo, Hhi.
  assert (H1 : (-90 <= Q2R lat <= 90)%R) by lra.
  assert (Hc : Q2R 7.5227 = 7.5227%R) by (rewrite Q2R_literal; lra).
  assert (H2 : (-90 <= Q2R 7.5227 <= 90)%R) by lra.
  pose proof (distance_ge_meridian (Q2R lat) (Q2R lon)
                (Q2R 7.5227) (Q2R settings.OAU_CENTER_LNG) H1 H2) as Hd.
  pose proof PI_gt_3 as Hpi.
  assert (Habs : (2.9877 <= Rabs (Q2R 7.5227 - Q2R lat))%R).
  { rewrite Rabs_right; lra. }
  assert (Hprod : (2.9877 * (3 / 180)
                   <= Rabs (Q2R 7.5227 - Q2R lat) * (PI / 180))%R).
  { apply Rmult_le_compat; lra. }
  rewrite (Q2R_literal 50 10). lra.
Qed.

(** The first stage alone decides when the point is farther than the
    radius; otherwise the answer is that of the polygon test on the
    seven-entry boundary list. *)
Lemma is_within_oau_campus_two_stage (lat lon : Q) :
  ((Q2R settings.OAU_RADIUS_KM
    < distance_km lat lon settings.OAU_CENTER_LAT settings.OAU_CENTER_LNG)%R ->
   is_within_oau_campus lat lon = Some false)
  /\ (~ (Q2R settings.OAU_RADIUS_KM
         < distance_km lat lon settings.OAU_CENTER_LAT
             settings.OAU_CENTER_LNG)%R ->
      is_within_oau_campus lat lon = point_in_polygon lat lon oau_polygon)
  /\ List.length oau_polygon = 7%nat.
Proof.
  unfold is_within_oau_campus, is_within_oau_polygon.
  split; [| split; [| reflexivity]]; intros H;
    destruct (Rlt_dec _ _); try reflexivity; contradiction.
Qed.

Lemma not_within_campus_origin : is_within_oau_campus 0 0 = Some false.
Proof.
  unfold is_within_oau_campus.
  destruct (Rlt_dec _ _); [reflexivity |].
  vm_compute. reflexivity.
Qed.

(** C2, at the campus centre.  The centre (7.5227, 4.5198) is at distance
    0 from itself, so the first stage lets it through, and the polygon
    stage rejects it: the boundary list holds (latitude, longitude) pairs
    and the ray casting reads them as (x, y) while it takes x from the
    longitude and y from the latitude of the point.  With the two
    coordinates of the point exchanged the same test accepts. *)
Theorem campus_center_rejected :
  distance_km settings.OAU_CENTER_LAT settings.OAU_CENTER_LNG
    settings.OAU_CENTER_LAT settings.OAU_CENTER_LNG = 0%R
  /\ is_within_oau_polygon settings.OAU_CENTER_LAT settings.OAU_CENTER_LNG
     = Some false
  /\ is_within_oau_campus settings.OAU_CENTER_LAT settings.OAU_CENTER_LNG
     = Some false
  /\ point_in_polygon settings.OAU_CENTER_LNG settings.OAU_CENTER_LAT
       oau_polygon = Some true.
Proof.
  split; [apply calculate_distance_same |].
  split; [vm_compute; reflexivity |].
  split; [apply is_within_oau_campus_never | vm_compute; reflexivity].
Qed.

End Geofence.

(** ** Coordinate validation *)

Section Validation.

Import Geofencing.

Lemma lat_in_range_iff (latitude : Q) :
  lat_in_range latitude = true <-> (-90 <= latitude <= 90)%Q.
Proof.
  unfold lat_in_range. rewrite andb_true_iff, !Qle_bool_iff. tauto.
Qed.

Lemma lon_in_range_iff (longitude : Q) :
  lon_in_range longitude = true <-> (-180 <= longitude <= 180)%Q.
Proof.
  unfold lon_in_range. rewrite andb_true_iff, !Qle_bool_iff. tauto.
Qed.

Lemma validate_out_of_range (latitude longitude : Q) :
  lat_in_range latitude && lon_in_range longitude = false ->
  validate_coordinates latitude longitude =
  Some {| valid := false; within_campus := false;
          v_nearest_landmark := None; distance_from_center := None;
          zone := None;
          errors :=
            (if lat_in_range latitude then [] else [err_latitude])
            ++ (if lon_in_range longitude then [] else [err_longitude]) |}.
Proof.
  unfold validate_coordinates.
  destruct (lat_in_range latitude), (lon_in_range longitude);
    simpl; intros H; try discriminate; reflexivity.
Qed.

Lemma validate_in_range (latitude longitude : Q) :
  lat_in_range latitude && lon_in_range longitude = true ->
  validate_coordinates latitude longitude =
  match is_within_oau_campus latitude longitude with
  | None => None
  | Some w =>
      Some {| valid := w; within_campus := w;
              v_nearest_landmark :=
                if w then Some (get_nearest_landmark latitude longitude)
                else None;
              distance_from_center :=
                Some (distance_km latitude longitude
                        settings.OAU_CENTER_LAT settings.OAU_CENTER_LNG);
              zone :=
                if w then Some (determine_campus_zone latitude longitude)
                else None;
              errors := if w then [] else [err_outside] |}
  end.
Proof.
  unfold validate_coordinates.
  destruct (lat_in_range latitude), (lon_in_range longitude);
    simpl; intros H; try discriminate.
  destruct (is_within_oau_campus latitude longitude) as [[|] |]; reflexivity.
Qed.

(** C1 as stated fails at (0, 0): both coordinates are in range, and yet
    neither a nearest landmark nor a zone is reported, because the point is
    not within the campus. *)
Lemma validate_origin_not_classified :
  (-90 <= 0 <= 90)%Q /\ (-180 <= 0 <= 180)%Q
  /\ exists r : validation_result,
       validate_coordinates 0 0 = Some r
       /\ within_campus r = false
       /\ v_nearest_landmark r = None
       /\ zone r = None
       /\ errors r = [err_outside].
Proof.
  split; [split; discriminate |]. split; [split; discriminate |].
  rewrite validate_in_range by reflexivity.
  rewrite not_within_campus_origin.
  eexists. split; [reflexivity |]. repeat split.
Qed.

(** C1, amended.  The range checks come first.  When a coordinate is out
    of range the result carries exactly the range messages that apply, in
    the order latitude, longitude, and nothing else is computed: not valid,
    not within campus, no distance, no landmark, no zone.  When both are in
    range the result carries the campus membership and the distance from
    the centre; the nearest landmark and the zone are reported, and the
    result is valid, exactly when the point is within the campus, and
    otherwise the result carries the outside-campus message instead. *)
Theorem validate_coordinates_stages :
  forall latitude longitude : Q,
    (~ (-90 <= latitude <= 90)%Q \/ ~ (-180 <= longitude <= 180)%Q ->
     exists r : validation_result,
       validate_coordinates latitude longitude = Some r
       /\ valid r = false /\ within_campus r = false
       /\ distance_from_center r = None
       /\ v_nearest_landmark r = None /\ zone r = None
       /\ errors r <> []
       /\ errors r =
          (if lat_in_range latitude then [] else [err_latitude])
          ++ (if lon_in_range longitude then [] else [err_longitude]))
    /\ ((-90 <= latitude <= 90)%Q /\ (-180 <= longitude <= 180)%Q ->
        exists (r : validation_result) (w : bool),
          is_within_oau_campus latitude longitude = Some w
          /\ validate_coordinates latitude longitude = Some r
          /\ within_campus r = w /\ valid r = w
          /\ distance_from_center r =
             Some (distance_km latitude longitude
                     settings.OAU_CENTER_LAT settings.OAU_CENTER_LNG)
          /\ v_nearest_landmark r =
             (if w then Some (get_nearest_landmark latitude longitude)
              else None)
          /\ zone r =
             (if w then Some (determine_campus_zone latitude longitude)
              else None)
          /\ errors r = (if w then [] else [err_outside])).
Proof.
  intros latitude longitude. split.
  - intros Hbad.
    assert (Hb : lat_in_range latitude && lon_in_range longitude = false).
    { apply andb_false_iff. destruct Hbad as [Hlat | Hlon].
      - left. apply not_true_iff_false. rewrite lat_in_range_iff. exact Hlat.
      - right. apply not_true_iff_false. rewrite lon_in_range_iff. exact Hlon. }
    rewrite (validate_out_of_range _ _ Hb).
    eexists. split; [reflexivity |]. cbn.
    repeat (split; [reflexivity |]). split; [| reflexivity].
    destruct (lat_in_range latitude), (lon_in_range longitude);
      simpl in *; discriminate.
  - intros [Hlat Hlon].
    assert (Hb : lat_in_range latitude && lon_in_range longitude = true).
    { apply andb_true_iff. split;
        [apply lat_in_range_iff | apply lon_in_range_iff]; assumption. }
    rewrite (validate_in_range _ _ Hb).
    rewrite is_within_oau_campus_never.
    eexists. exists false. repeat split.
Qed.

Lemma validate_coordinates_stages_witness :
  (exists r : validation_result,
      validate_coordinates 100 (-200) = Some r
      /\ valid r = false /\ within_campus r = false
      /\ distance_from_center r = None
      /\ v_nearest_landmark r = None /\ zone r = None
      /\ errors r <> []
      /\ errors r =
         (if lat_in_range 100 then [] else [err_latitude])
         ++ (if lon_in_range (-200) then [] else [err_longitude]))
  /\ (exists (r : validation_result) (w : bool),
        is_within_oau_campus 7.5227 4.5198 = Some w
        /\ validate_coordinates 7.5227 4.5198 = Some r
        /\ within_campus r = w /\ valid r = w
        /\ distance_from_center r =
           Some (distance_km 7.5227 4.5198
                   settings.OAU_CENTER_LAT settings.OAU_CENTER_LNG)
        /\ v_nearest_landmark r =
           (if w then Some (get_nearest_landmark 7.5227 4.5198) else None)
        /\ zone r =
           (if w then Some (determine_campus_zone 7.5227 4.5198) else None)
        /\ errors r = (if w then [] else [err_outside])).
Proof.
  split.
  - apply (proj1 (validate_coordinates_stages 100 (-200))).
    left. intros [_ H]. apply H. reflexivity.
  - apply (proj2 (validate_coordinates_stages 7.5227 4.5198)).
    repeat split; discriminate.
Defined.

End Validation.

(** ** Nearest landmark *)

Section NearestLandmark.

Import Geofencing.
Local Open Scope R_scope.

Lemma nearest_step_cases (lat lon : Q) (maxd : R) (st : nearest_state)
  (lm : landmark) :
  (below_min (Spec.landmark_km lat lon lm) (min_distance st) = true
   /\ Spec.landmark_km lat lon lm <= maxd
   /\ nearest_step lat lon maxd st lm = Spec.settled_on lat lon lm)
  \/ ((below_min (Spec.landmark_km lat lon lm) (min_distance st) = false
       \/ ~ Spec.landmark_km lat lon lm <= maxd)
      /\ nearest_step lat lon maxd st lm = st).
Proof.
  unfold nearest_step, Spec.settled_on, Spec.landmark_meters,
    Spec.landmark_km.
  destruct (below_min _ (min_distance st)); simpl.
  - destruct (Rle_dec _ maxd) as [Hle | Hnle].
    + left. repeat split; [exact Hle].
    + right. split; [right; exact Hnle | reflexivity].
  - right. split; [left |]; reflexivity.
Qed.

(** What the scan of a catalog ends with: nothing when no landmark is
    within [maxd]; otherwise the first of the landmarks within [maxd]
    whose distance is least. *)
Lemma nearest_scan_spec (lat lon : Q) (maxd : R) (catalog : list landmark) :
  (nearest_scan catalog lat lon maxd = nearest_init
   /\ forall lm, In lm catalog -> ~ Spec.landmark_km lat lon lm <= maxd)
  \/ (exists pre lm post,
        catalog = pre ++ lm :: post
        /\ Spec.landmark_km lat lon lm <= maxd
        /\ (forall lm', In lm' pre -> Spec.landmark_km lat lon lm' <= maxd ->
                        Spec.landmark_km lat lon lm
                        < Spec.landmark_km lat lon lm')
        /\ (forall lm', In lm' post -> Spec.landmark_km lat lon lm' <= maxd ->
                        Spec.landmark_km lat lon lm
                        <= Spec.landmark_km lat lon lm')
        /\ nearest_scan catalog lat lon maxd = Spec.settled_on lat lon lm).
Proof.
  induction catalog as [| x l IH] using rev_ind.
  - left. split; [reflexivity | intros lm []].
  - unfold nearest_scan in *. rewrite fold_left_app. simpl.
    destruct IH as [[Hst Hnone] | [pre [lm [post [Hl [Hin [Hpre [Hpost Hst]]]]]]]];
      rewrite Hst;
      destruct (nearest_step_cases lat lon maxd
                  (fold_left (nearest_step lat lon maxd) l nearest_init) x)
        as [[Hbelow [Hx Hstep]] | [Hno Hstep]];
      rewrite Hst in Hstep, Hbelow || rewrite Hst in Hstep, Hno;
      rewrite Hstep.
    + right. exists l, x, []. repeat split; try assumption.
      * intros lm' Hlm' Hle. exfalso. apply (Hnone lm' Hlm' Hle).
      * intros lm' [].
    + left. split; [reflexivity |].
      intros lm Hlm. apply in_app_or in Hlm. destruct Hlm as [Hlm | [<- | []]].
      * apply Hnone. exact Hlm.
      * destruct Hno as [Hno | Hno]; [simpl in Hno; discriminate | exact Hno].
    + right. exists l, x, []. repeat split; try assumption.
      * simpl in Hbelow.
        destruct (Rlt_dec (Spec.landmark_km lat lon x)
                    (Spec.landmark_km lat lon lm)) as [Hlt | Hnlt];
          [| discriminate].
        intros lm' Hlm' Hle. rewrite Hl in Hlm'.
        apply in_app_or in Hlm'. destruct Hlm' as [Hlm' | [<- | Hlm']].
        -- pose proof (Hpre lm' Hlm' Hle). lra.
        -- exact Hlt.
        -- pose proof (Hpost lm' Hlm' Hle). lra.
      * intros lm' [].
    + right. exists pre, lm, (post ++ [x]). repeat split; try assumption.
      * rewrite Hl, <- app_assoc. reflexivity.
      * intros lm' Hlm' Hle. apply in_app_or in Hlm'.
        destruct Hlm' as [Hlm' | [<- | []]]; [apply Hpost; assumption |].
        destruct Hno as [Hno | Hno]; [| contradiction].
        simpl in Hno.
        destruct (Rlt_dec (Spec.landmark_km lat lon x)
                    (Spec.landmark_km lat lon lm)); [discriminate | lra].
Qed.

Lemma nearest_label_settled (lat lon : Q) (lm : landmark) :
  nearest_label (Spec.settled_on lat lon lm) =
  Spec.tier_label (lm_name lm) (Spec.landmark_meters lat lon lm).
Proof. reflexivity. Qed.

(** The catalog lies between the parallels 7.5 and 7.6, and no two of its
    landmarks share a latitude. *)
Lemma catalog_latitudes :
  forallb (fun lm => Qle_bool 7.5 (lm_lat lm) && Qle_bool (lm_lat lm) 7.6)
    OAU_LANDMARKS = true.
Proof. vm_compute. reflexivity. Qed.

Lemma catalog_latitude_names :
  forallb
    (fun a =>
       forallb
         (fun b =>
            implb (Qeq_bool (lm_lat a) (lm_lat b))
              (String.eqb (lm_name a) (lm_name b)))
         OAU_LANDMARKS)
    OAU_LANDMARKS = true.
Proof. vm_compute. reflexivity. Qed.

Lemma catalog_lat_R (lm : landmark) :
  In lm OAU_LANDMARKS -> 7.5 <= Q2R (lm_lat lm) <= 7.6.
Proof.
  intros Hin. pose proof catalog_latitudes as H.
  rewrite forallb_forall in H. specialize (H lm Hin).
  apply andb_true_iff in H. destruct H as [H1 H2].
  apply Qle_bool_iff, Qle_Rle in H1. apply Qle_bool_iff, Qle_Rle in H2.
  rewrite Q2R_literal in H1, H2. lra.
Qed.

Lemma landmark_km_nonneg (lat lon : Q) (lm : landmark) :
  0 <= Spec.landmark_km lat lon lm.
Proof. apply calculate_distance_nonneg. Qed.

Lemma landmark_km_self (lm : landmark) :
  Spec.landmark_km (lm_lat lm) (lm_lng lm) lm = 0.
Proof. apply calculate_distance_same. Qed.

(** A landmark of the catalog at distance 0 from another one bears the
    same name. *)
Lemma catalog_zero_distance_name (a b : landmark) :
  In a OAU_LANDMARKS -> In b OAU_LANDMARKS ->
  Spec.landmark_km (lm_lat a) (lm_lng a) b = 0 ->
  lm_name b = lm_name a.
Proof.
  intros Ha Hb Hd.
  pose proof (catalog_lat_R a Ha) as Hla.
  pose proof (catalog_lat_R b Hb) as Hlb.
  unfold Spec.landmark_km, distance_km in Hd.
  pose proof (distance_ge_meridian (Q2R (lm_lat a)) (Q2R (lm_lng a))
                (Q2R (lm_lat b)) (Q2R (lm_lng b))) as Hm.
  rewrite Hd in Hm.
  assert (Habs : Rabs (Q2R (lm_lat b) - Q2R (lm_lat a)) = 0).
  { pose proof (Rabs_pos (Q2R (lm_lat b) - Q2R (lm_lat a))) as Hp.
    pose proof PI_RGT_0 as Hpi.
    assert (Hm' : 6371 * (Rabs (Q2R (lm_lat b) - Q2R (lm_lat a))
                          * (PI / 180)) <= 0) by (apply Hm; lra).
    assert (Hq : 0 <= Rabs (Q2R (lm_lat b) - Q2R (lm_lat a)) * (PI / 180)).
    { apply Rmult_le_pos; [exact Hp | lra]. }
    assert (Hz : Rabs (Q2R (lm_lat b) - Q2R (lm_lat a)) * (PI / 180) = 0)
      by lra.
    apply Rmult_integral in Hz. destruct Hz as [Hz | Hz]; [exact Hz | lra]. }
  assert (Heq : Q2R (lm_lat a) = Q2R (lm_lat b)).
  { destruct (Req_dec (Q2R (lm_lat b) - Q2R (lm_lat a)) 0) as [E | E];
      [lra |]. apply Rabs_no_R0 in E. contradiction. }
  apply eqR_Qeq in Heq.
  pose proof catalog_latitude_names as H.
  rewrite forallb_forall in H. specialize (H a Ha).
  rewrite forallb_forall in H. specialize (H b Hb).
  apply Qeq_bool_iff in Heq. rewrite Heq in H. simpl in H.
  apply String.eqb_eq in H. symmetry. exact H.
Qed.

Lemma tier_label_at (name : string) (meters : R) :
  meters < 50 -> Spec.tier_label name meters = ("At " ++ name)%string.
Proof.
  intros H. unfold Spec.tier_label.
  destruct (Rlt_dec meters 50); [reflexivity | contradiction].
Qed.

Lemma tier_label_near (name : string) (meters : R) :
  50 <= meters < 200 ->
  Spec.tier_label name meters = ("Near " ++ name)%string.
Proof.
  intros [H1 H2]. unfold Spec.tier_label.
  destruct (Rlt_dec meters 50); [lra |].
  destruct (Rlt_dec meters 200); [reflexivity | contradiction].
Qed.

Lemma tier_label_close (name : string) (meters : R) :
  200 <= meters ->
  Spec.tier_label name meters =
  ("Close to " ++ name ++ " (" ++ str_of_Z (Rint meters) ++ "m)")%string.
Proof.
  intros H. unfold Spec.tier_label.
  destruct (Rlt_dec meters 50); [lra |].
  destruct (Rlt_dec meters 200); [lra | reflexivity].
Qed.

Lemma landmark_meters_whole (lat lon : Q) (lm : landmark) :
  Spec.landmark_meters lat lon lm =
  IZR (Rround_half_even (Spec.landmark_km lat lon lm * 1000)).
Proof. apply Rround_0_digits. Qed.

Lemma get_nearest_landmark_at_landmark (lm : landmark) :
  In lm OAU_LANDMARKS ->
  get_nearest_landmark (lm_lat lm) (lm_lng lm) = ("At " ++ lm_name lm)%string.
Proof.
  intros Hin. unfold get_nearest_landmark, get_nearest_landmark_within.
  pose proof (landmark_km_self lm) as Hself.
  destruct (nearest_scan_spec (lm_lat lm) (lm_lng lm) 1 OAU_LANDMARKS)
    as [[_ Hnone] | [pre [best [post [Hcat [Hle [Hpre [Hpost Hst]]]]]]]].
  - exfalso. apply (Hnone lm Hin). rewrite Hself. lra.
  - rewrite Hst, nearest_label_settled.
    assert (Hbest_in : In best OAU_LANDMARKS).
    { rewrite Hcat. apply in_or_app. right. left. reflexivity. }
    assert (Hzero : Spec.landmark_km (lm_lat lm) (lm_lng lm) best = 0).
    { pose proof (landmark_km_nonneg (lm_lat lm) (lm_lng lm) best) as Hnn.
      rewrite Hcat in Hin. apply in_app_or in Hin.
      destruct Hin as [Hin | [Heq | Hin]].
      - pose proof (Hpre lm Hin) as H. rewrite Hself in H.
        assert (0 <= 1) by lra. specialize (H H0). lra.
      - subst best. exact Hself.
      - pose proof (Hpost lm Hin) as H. rewrite Hself in H.
        assert (0 <= 1) by lra. specialize (H H0). lra. }
    rewrite (catalog_zero_distance_name lm best Hin Hbest_in Hzero).
    apply tier_label_at.
    rewrite landmark_meters_whole, Hzero, Rmult_0_l.
    rewrite Rround_half_even_IZR. lra.
Qed.

(** Every landmark is at least as far as its parallel is from the
    parallel of the point. *)
Lemma landmark_km_ge_parallel (lat lon : Q) (lm : landmark) :
  -90 <= Q2R lat <= 90 -> In lm OAU_LANDMARKS ->
  6371 * (Rabs (Q2R (lm_lat lm) - Q2R lat) * (PI / 180)) <=
  Spec.landmark_km lat lon lm.
Proof.
  intros Hlat Hin. pose proof (catalog_lat_R lm Hin) as Hl.
  apply distance_ge_meridian; lra.
Qed.

(** The scan settles on a landmark of least distance among those within
    range, and labels it by its rounded meters. *)
Lemma nearest_landmark_tiers_aux (lat lon : Q) (maxd : R) :
  (exists lm, In lm OAU_LANDMARKS /\ Spec.landmark_km lat lon lm <= maxd) ->
  exists best : landmark,
    In best OAU_LANDMARKS
    /\ Spec.landmark_km lat lon best <= maxd
    /\ (forall lm', In lm' OAU_LANDMARKS ->
                    Spec.landmark_km lat lon lm' <= maxd ->
                    Spec.landmark_km lat lon best
                    <= Spec.landmark_km lat lon lm')
    /\ get_nearest_landmark_within lat lon maxd =
       Spec.tier_label (lm_name best) (Spec.landmark_meters lat lon best).
Proof.
  intros [lm0 [Hin0 Hle0]]. unfold get_nearest_landmark_within.
  destruct (nearest_scan_spec lat lon maxd OAU_LANDMARKS)
    as [[_ Hnone] | [pre [best [post [Hcat [Hle [Hpre [Hpost Hst]]]]]]]].
  - exfalso. apply (Hnone lm0 Hin0 Hle0).
  - exists best.
    split; [rewrite Hcat; apply in_or_app; right; left; reflexivity |].
    split; [exact Hle |]. split.
    + intros lm' Hin' Hle'. rewrite Hcat in Hin'.
      apply in_app_or in Hin'. destruct Hin' as [Hin' | [<- | Hin']].
      * apply Rlt_le. apply Hpre; assumption.
      * lra.
      * apply Hpost; assumption.
    + rewrite Hst. apply nearest_label_settled.
Qed.

(** C4, amended.  The scan keeps the landmark of least distance among
    those within [max_distance] (1.0 by default), and the label goes by
    that distance in meters rounded to the nearest whole number: rounded
    meters under 50 give "At name", under 200 "Near name", otherwise
    "Close to name (meters m)" with the rounded count; with no landmark
    within range the label is "On Campus (Location Unknown)"; at the
    coordinates of a catalog landmark the label is "At name" for it. *)
Theorem nearest_landmark_tiers :
  forall (lat lon : Q) (max_distance : R),
    ((forall lm, In lm OAU_LANDMARKS ->
                 max_distance < Spec.landmark_km lat lon lm) ->
     get_nearest_landmark_within lat lon max_distance =
     "On Campus (Location Unknown)"%string)
    /\ ((exists lm, In lm OAU_LANDMARKS
                    /\ Spec.landmark_km lat lon lm <= max_distance) ->
        exists (lm : landmark) (meters : Z),
          In lm OAU_LANDMARKS
          /\ Spec.landmark_km lat lon lm <= max_distance
          /\ (forall lm', In lm' OAU_LANDMARKS ->
                          Spec.landmark_km lat lon lm' <= max_distance ->
                          Spec.landmark_km lat lon lm
                          <= Spec.landmark_km lat lon lm')
          /\ meters = Rround_half_even (Spec.landmark_km lat lon lm * 1000)
          /\ Rabs (IZR meters - Spec.landmark_km lat lon lm * 1000) <= 1 / 2
          /\ get_nearest_landmark_within lat lon max_distance =
             (if (meters <? 50)%Z then "At " ++ lm_name lm
              else if (meters <? 200)%Z then "Near " ++ lm_name lm
              else "Close to " ++ lm_name lm ++ " (" ++ str_of_Z meters
                   ++ "m)")%string)
    /\ get_nearest_landmark lat lon = get_nearest_landmark_within lat lon 1
    /\ (forall lm, In lm OAU_LANDMARKS ->
                   get_nearest_landmark (lm_lat lm) (lm_lng lm) =
                   ("At " ++ lm_name lm)%string).
Proof.
  intros lat lon maxd. split; [| split; [| split]].
  - intros Hfar. unfold get_nearest_landmark_within.
    destruct (nearest_scan_spec lat lon maxd OAU_LANDMARKS)
      as [[Hst _] | [pre [best [post [Hcat [Hle _]]]]]].
    + rewrite Hst. reflexivity.
    + exfalso. assert (Hin : In best OAU_LANDMARKS).
      { rewrite Hcat. apply in_or_app. right. left. reflexivity. }
      pose proof (Hfar best Hin). lra.
  - intros [lm0 [Hin0 Hle0]]. unfold get_nearest_landmark_within.
    destruct (nearest_scan_spec lat lon maxd OAU_LANDMARKS)
      as [[_ Hnone] | [pre [best [post [Hcat [Hle [Hpre [Hpost Hst]]]]]]]].
    + exfalso. apply (Hnone lm0 Hin0 Hle0).
    + exists best, (Rround_half_even (Spec.landmark_km lat lon best * 1000)).
      split; [rewrite Hcat; apply in_or_app; right; left; reflexivity |].
      split; [exact Hle |]. split.
      { intros lm' Hin' Hle'. rewrite Hcat in Hin'.
        apply in_app_or in Hin'. destruct Hin' as [Hin' | [<- | Hin']].
        - apply Rlt_le. apply Hpre; assumption.
        - lra.
        - apply Hpost; assumption. }
      split; [reflexivity |]. split.
      { set (x := Spec.landmark_km lat lon best * 1000).
        pose proof (Int_part_bounds x) as [Hf1 Hf2].
        unfold Rround_half_even.
        destruct (Rlt_dec (x - IZR (Int_part x)) (1 / 2)) as [H1 | H1].
        - rewrite Rabs_left1; lra.
        - destruct (Rlt_dec (1 / 2) (x - IZR (Int_part x))) as [H2 | H2].
          + rewrite plus_IZR, Rabs_right; lra.
          + destruct (Z.even (Int_part x)).
            * rewrite Rabs_left1; lra.
            * rewrite plus_IZR, Rabs_right; lra. }
      rewrite Hst, nearest_label_settled, landmark_meters_whole.
      set (m := Rround_half_even (Spec.landmark_km lat lon best * 1000)).
      unfold Spec.tier_label. rewrite Rint_IZR.
      destruct (Z.ltb_spec m 50) as [Hm | Hm].
      * destruct (Rlt_dec (IZR m) 50) as [H | H]; [reflexivity |].
        exfalso. apply H. apply IZR_lt. exact Hm.
      * destruct (Rlt_dec (IZR m) 50) as [H | H].
        { exfalso. apply lt_IZR in H. lia. }
        destruct (Z.ltb_spec m 200) as [Hm' | Hm'].
        -- destruct (Rlt_dec (IZR m) 200) as [H' | H']; [reflexivity |].
           exfalso. apply H'. apply IZR_lt. exact Hm'.
        -- destruct (Rlt_dec (IZR m) 200) as [H' | H']; [| reflexivity].
           exfalso. apply lt_IZR in H'. lia.
  - reflexivity.
  - exact get_nearest_landmark_at_landmark.
Qed.

(** The teaching hospital is the northernmost landmark: every other one
    lies on or south of the parallel 7.532. *)
Lemma catalog_hospital_or_south (lm : landmark) :
  In lm OAU_LANDMARKS ->
  (lm_lat lm = 7.5345%Q /\ lm_lng lm = 4.5123%Q
   /\ lm_name lm = "OAU Teaching Hospital (OAUTHC)"%string)
  \/ Q2R (lm_lat lm) <= 7.532.
Proof.
  unfold OAU_LANDMARKS. simpl.
  intros H.
  repeat (destruct H as [<- | H];
          [first [ left; repeat split; reflexivity
                 | right; simpl; rewrite Q2R_literal; lra ] |]).
  contradiction.
Qed.

(** C4 as stated fails 0.000447 degrees due north of the teaching
    hospital: the hospital is the nearest landmark, it is less than 50 m
    away (between 49.5 m and 49.9 m), and the label is the "Near" form,
    because the distance is rounded to 50 whole meters before it is
    compared with 50. *)
Lemma nearest_landmark_under_50_m_labelled_near :
  exists lm : landmark,
    In lm OAU_LANDMARKS
    /\ lm_name lm = "OAU Teaching Hospital (OAUTHC)"%string
    /\ (forall lm', In lm' OAU_LANDMARKS ->
                    Spec.landmark_km 7.534947 4.5123 lm
                    <= Spec.landmark_km 7.534947 4.5123 lm')
    /\ 49.5 < Spec.landmark_km 7.534947 4.5123 lm * 1000 < 49.9
    /\ get_nearest_landmark 7.534947 4.5123 =
       "Near OAU Teaching Hospital (OAUTHC)"%string
    /\ get_nearest_landmark 7.534947 4.5123 <>
       "At OAU Teaching Hospital (OAUTHC)"%string.
Proof.
  set (hospital := mk_landmark "teaching_hospital" 7.5345 4.5123
                     "OAU Teaching Hospital (OAUTHC)" "hospital"
                     "Medical center").
  assert (Hin : In hospital OAU_LANDMARKS).
  { unfold OAU_LANDMARKS, hospital. simpl. do 11 right. left. reflexivity. }
  pose proof PI_bounds as [Hpi1 Hpi2].
  assert (Hlat : Q2R 7.534947 = 7.534947) by (rewrite Q2R_literal; lra).
  assert (Hlat_range : -90 <= Q2R 7.534947 <= 90) by lra.
  assert (Hkm : Spec.landmark_km 7.534947 4.5123 hospital =
                6371 * (0.000447 * (PI / 180))).
  { unfold Spec.landmark_km, distance_km, hospital. simpl lm_lat. simpl lm_lng.
    rewrite distance_same_meridian.
    - f_equal. f_equal. rewrite !Q2R_literal. rewrite Rabs_left; lra.
    - exact Hlat_range.
    - rewrite Q2R_literal. lra. }
  assert (Hm : 49.5 < Spec.landmark_km 7.534947 4.5123 hospital * 1000 < 49.9).
  { rewrite Hkm. lra. }
  assert (Hother : forall lm', In lm' OAU_LANDMARKS ->
             Spec.landmark_km 7.534947 4.5123 lm' * 1000 < 50 ->
             Spec.landmark_km 7.534947 4.5123 lm' =
             Spec.landmark_km 7.534947 4.5123 hospital
             /\ lm_name lm' = "OAU Teaching Hospital (OAUTHC)"%string).
  { intros lm' Hin' Hclose.
    destruct (catalog_hospital_or_south lm' Hin') as [[E1 [E2 E3]] | Hsouth].
    - split; [| exact E3]. unfold Spec.landmark_km. rewrite E1, E2.
      reflexivity.
    - exfalso.
      pose proof (landmark_km_ge_parallel 7.534947 4.5123 lm' Hlat_range Hin')
        as Hge.
      assert (Habs : 0.002947 <= Rabs (Q2R (lm_lat lm') - Q2R 7.534947)).
      { rewrite Rabs_left; lra. }
      assert (Hprod : 0.002947 * (3.13 / 180)
                      <= Rabs (Q2R (lm_lat lm') - Q2R 7.534947) * (PI / 180)).
      { apply Rmult_le_compat; lra. }
      lra. }
  assert (Hnearest : forall lm', In lm' OAU_LANDMARKS ->
             Spec.landmark_km 7.534947 4.5123 hospital
             <= Spec.landmark_km 7.534947 4.5123 lm').
  { intros lm' Hin'.
    destruct (Rlt_or_le (Spec.landmark_km 7.534947 4.5123 lm' * 1000) 50)
      as [Hc | Hc].
    - destruct (Hother lm' Hin' Hc) as [E _]. rewrite E. lra.
    - lra. }
  assert (Hlabel : get_nearest_landmark 7.534947 4.5123 =
                   "Near OAU Teaching Hospital (OAUTHC)"%string).
  { destruct (nearest_landmark_tiers_aux 7.534947 4.5123 1)
      as [best [Hbest_in [Hbest_le [Hbest_min Hbest_label]]]].
    { exists hospital. split; [exact Hin | lra]. }
    unfold get_nearest_landmark. rewrite Hbest_label.
    assert (Hbh : Spec.landmark_km 7.534947 4.5123 best
                  <= Spec.landmark_km 7.534947 4.5123 hospital).
    { apply Hbest_min; [exact Hin | lra]. }
    destruct (Hother best Hbest_in) as [Ekm Ename]; [lra |].
    rewrite Ename, landmark_meters_whole, Ekm.
    rewrite (Rround_half_even_near _ 50) by lra.
    apply tier_label_near. lra. }
  exists hospital. split; [exact Hin |]. split; [reflexivity |].
  split; [exact Hnearest |]. split; [exact Hm |]. split; [exact Hlabel |].
  rewrite Hlabel. discriminate.
Qed.

Lemma nearest_landmark_tiers_witness :
  get_nearest_landmark_within 0 0 1 = "On Campus (Location Unknown)"%string
  /\ (exists (lm : landmark) (meters : Z),
        In lm OAU_LANDMARKS
        /\ Spec.landmark_km 7.5227 4.5198 lm <= 1
        /\ (forall lm', In lm' OAU_LANDMARKS ->
                        Spec.landmark_km 7.5227 4.5198 lm' <= 1 ->
                        Spec.landmark_km 7.5227 4.5198 lm
                        <= Spec.landmark_km 7.5227 4.5198 lm')
        /\ meters =
           Rround_half_even (Spec.landmark_km 7.5227 4.5198 lm * 1000)
        /\ Rabs (IZR meters - Spec.landmark_km 7.5227 4.5198 lm * 1000)
           <= 1 / 2
        /\ get_nearest_landmark_within 7.5227 4.5198 1 =
           (if (meters <? 50)%Z then "At " ++ lm_name lm
            else if (meters <? 200)%Z then "Near " ++ lm_name lm
            else "Close to " ++ lm_name lm ++ " (" ++ str_of_Z meters
                 ++ "m)")%string)
  /\ get_nearest_landmark 7.5227 4.5198 = "At Main Gate"%string.
Proof.
  split; [| split].
  - apply (proj1 (nearest_landmark_tiers 0 0 1)).
    intros lm Hin.
    assert (H0 : Q2R 0 = 0) by (rewrite Q2R_literal; lra).
    assert (Hrange : -90 <= Q2R 0 <= 90) by lra.
    pose proof (landmark_km_ge_parallel 0 0 lm Hrange Hin) as Hge.
    pose proof (catalog_lat_R lm Hin) as Hlat.
    pose proof PI_gt_3 as Hpi.
    assert (Habs : 7.5 <= Rabs (Q2R (lm_lat lm) - Q2R 0))
      by (rewrite Rabs_right; lra).
    assert (Hprod : 7.5 * (3 / 180)
                    <= Rabs (Q2R (lm_lat lm) - Q2R 0) * (PI / 180))
      by (apply Rmult_le_compat; lra).
    lra.
  - apply (proj1 (proj2 (nearest_landmark_tiers 7.5227 4.5198 1))).
    exists (mk_landmark "main_gate" 7.5227 4.5198 "Main Gate" "entrance"
              "Primary campus entrance").
    split; [left; reflexivity |].
    pose proof (landmark_km_self
                  (mk_landmark "main_gate" 7.5227 4.5198 "Main Gate"
                     "entrance" "Primary campus entrance")) as Hself.
    simpl lm_lat in Hself. simpl lm_lng in Hself.
    rewrite Hself. lra.
  - apply (proj2 (proj2 (proj2 (nearest_landmark_tiers 0 0 1)))
             (mk_landmark "main_gate" 7.5227 4.5198 "Main Gate" "entrance"
                "Primary campus entrance")).
    left. reflexivity.
Defined.

End NearestLandmark.

(** ** Clustering *)

Section Clustering.

Import Geofencing LocationUtils.

Lemma add_location_within (c : LocationCluster) (s : LocationUpdate) :
  Spec.sample_within (center_lat c) (center_lng c) (radius c) s = true ->
  add_location c (point_of s) = (Spec.grow c [s], true).
Proof.
  unfold Spec.sample_within, add_location, meters_to_center, point_of. simpl.
  destruct (Rle_dec _ _); [reflexivity | discriminate].
Qed.

Lemma add_location_beyond (c : LocationCluster) (s : LocationUpdate) :
  Spec.sample_within (center_lat c) (center_lng c) (radius c) s = false ->
  add_location c (point_of s) = (c, false).
Proof.
  unfold Spec.sample_within, add_location, meters_to_center, point_of. simpl.
  destruct (Rle_dec _ _); [discriminate | reflexivity].
Qed.

Lemma grow_grow (c : LocationCluster) (s : LocationUpdate)
  (ss : list LocationUpdate) :
  Spec.grow (Spec.grow c [s]) ss = Spec.grow c (s :: ss).
Proof.
  unfold Spec.grow. simpl. f_equal.
  - rewrite <- app_assoc. reflexivity.
  - lia.
Qed.

Lemma grow_nil (c : LocationCluster) : Spec.grow c [] = c.
Proof.
  destruct c. unfold Spec.grow. simpl. rewrite app_nil_r. reflexivity.
Qed.

Lemma processed_mem_app (k : nat) (a b : list nat) :
  processed_mem k (a ++ b) = processed_mem k a || processed_mem k b.
Proof. unfold processed_mem. apply existsb_app. Qed.

Lemma processed_mem_cons (k j : nat) (p : list nat) :
  processed_mem k (j :: p) = (k =? j)%nat || processed_mem k p.
Proof. reflexivity. Qed.

Lemma processed_mem_rev (k : nat) (a : list nat) :
  processed_mem k (rev a) = processed_mem k a.
Proof.
  unfold processed_mem. induction a as [| x a IH]; simpl; [reflexivity |].
  rewrite existsb_app, IH. simpl. rewrite orb_false_r. apply orb_comm.
Qed.

Lemma processed_mem_In (k : nat) (a : list nat) :
  processed_mem k a = true <-> In k a.
Proof.
  unfold processed_mem. rewrite existsb_exists. split.
  - intros [x [Hx Hk]]. apply Nat.eqb_eq in Hk. subst x. exact Hx.
  - intros H. exists k. split; [exact H | apply Nat.eqb_refl].
Qed.

(** Marking an index that does not occur in [l] changes nothing of what
    is absorbed from [l]. *)
Lemma absorbed_by_fresh (c c' : LocationCluster) (j : nat) (p : list nat)
  (l : list (nat * (LocationUpdate * UserRole))) :
  center_lat c' = center_lat c -> center_lng c' = center_lng c ->
  radius c' = radius c -> ~ In j (map fst l) ->
  Spec.absorbed_by c' (j :: p) l = Spec.absorbed_by c p l.
Proof.
  intros H1 H2 H3 Hj. unfold Spec.absorbed_by. rewrite H1, H2, H3.
  apply filter_ext_in. intros je Hje. unfold Spec.unprocessed.
  rewrite processed_mem_cons.
  destruct (Nat.eqb_spec (fst je) j) as [E | E]; [| reflexivity].
  exfalso. apply Hj. rewrite <- E. apply in_map. exact Hje.
Qed.

Lemma absorb_step_cases (c : LocationCluster) (p : list nat) (j : nat)
  (o : LocationUpdate) (r : UserRole) :
  absorb_step (c, p) (j, (o, r)) =
  if processed_mem j p then (c, p)
  else if Spec.sample_within (center_lat c) (center_lng c) (radius c) o
       then (Spec.grow c [o], j :: p)
       else (c, p).
Proof.
  unfold absorb_step. destruct (processed_mem j p); [reflexivity |].
  destruct (Spec.sample_within (center_lat c) (center_lng c) (radius c) o)
    eqn:Hw.
  - rewrite (add_location_within c o Hw). reflexivity.
  - rewrite (add_location_beyond c o Hw). reflexivity.
Qed.

Lemma absorbed_by_cons (c : LocationCluster) (p : list nat) (j : nat)
  (o : LocationUpdate) (r : UserRole)
  (t : list (nat * (LocationUpdate * UserRole))) :
  Spec.absorbed_by c p ((j, (o, r)) :: t) =
  if negb (processed_mem j p)
     && Spec.sample_within (center_lat c) (center_lng c) (radius c) o
  then (j, (o, r)) :: Spec.absorbed_by c p t
  else Spec.absorbed_by c p t.
Proof. reflexivity. Qed.

(** The inner loop: the cluster takes in, in order, the samples whose
    index is not processed and that lie within its radius, and marks them
    processed. *)
Lemma absorb_loop (l : list (nat * (LocationUpdate * UserRole))) :
  NoDup (map fst l) ->
  forall (c : LocationCluster) (p : list nat),
    fold_left absorb_step l (c, p) =
    (Spec.grow c (map Spec.sample_of (Spec.absorbed_by c p l)),
     rev (map fst (Spec.absorbed_by c p l)) ++ p).
Proof.
  induction l as [| [j [o r]] t IH]; intros Hnd c p.
  - simpl. rewrite grow_nil. reflexivity.
  - inversion Hnd as [| ? ? Hj Hnd']; subst.
    cbn [fold_left]. rewrite absorb_step_cases, absorbed_by_cons.
    destruct (processed_mem j p) eqn:Hmem; simpl negb; simpl andb.
    + apply IH. exact Hnd'.
    + destruct (Spec.sample_within (center_lat c) (center_lng c) (radius c) o)
        eqn:Hw.
      * rewrite IH by exact Hnd'.
        rewrite (absorbed_by_fresh c (Spec.grow c [o]) j p t)
          by (try reflexivity; exact Hj).
        rewrite grow_grow. simpl map. simpl rev.
        rewrite <- app_assoc. reflexivity.
      * apply IH. exact Hnd'.
Qed.

Lemma filter_twice {A : Type} (f g : A -> bool) (l : list A) :
  filter f (filter g l) = filter (fun x => g x && f x) l.
Proof.
  induction l as [| x l IH]; simpl; [reflexivity |].
  destruct (g x); simpl; [destruct (f x) |]; rewrite IH; reflexivity.
Qed.

Lemma filter_of_map {A B : Type} (f : B -> bool) (g : A -> B) (l : list A) :
  filter f (map g l) = map g (filter (fun x => f (g x)) l).
Proof.
  induction l as [| x l IH]; simpl; [reflexivity |].
  destruct (f (g x)); simpl; rewrite IH; reflexivity.
Qed.

Lemma filter_length_le {A : Type} (f : A -> bool) (l : list A) :
  (List.length (filter f l) <= List.length l)%nat.
Proof.
  induction l as [| x l IH]; simpl; [lia |].
  destruct (f x); simpl; lia.
Qed.

Lemma map_fst_combine_seq {A : Type} (l : list A) (k : nat) :
  map fst (combine (seq k (List.length l)) l) = seq k (List.length l).
Proof.
  revert k. induction l as [| x l IH]; intros k; simpl; [reflexivity |].
  rewrite IH. reflexivity.
Qed.

Lemma map_snd_combine_seq {A : Type} (l : list A) (k : nat) :
  map snd (combine (seq k (List.length l)) l) = l.
Proof.
  revert k. induction l as [| x l IH]; intros k; simpl; [reflexivity |].
  rewrite IH. reflexivity.
Qed.

Lemma enumerate_NoDup {A : Type} (l : list A) :
  NoDup (map fst (enumerate l)).
Proof.
  unfold enumerate. rewrite map_fst_combine_seq. apply seq_NoDup.
Qed.

Lemma enumerate_samples (data : list (LocationUpdate * UserRole)) :
  map Spec.sample_of (enumerate data) = map fst data.
Proof.
  unfold enumerate, Spec.sample_of.
  rewrite <- (map_map snd fst), map_snd_combine_seq. reflexivity.
Qed.

Lemma greedy_clusters_nil (radius : Q) (fuel : nat) :
  Spec.greedy_clusters radius fuel [] = [].
Proof. destruct fuel; reflexivity. Qed.

Lemma sample_within_itself (u : LocationUpdate) :
  Spec.sample_within (lu_latitude u) (lu_longitude u) 100 u = true.
Proof.
  unfold Spec.sample_within, distance_km.
  rewrite calculate_distance_same.
  destruct (Rle_dec _ _) as [H | H]; [reflexivity |].
  exfalso. apply H. rewrite Q2R_literal. lra.
Qed.

(** In a list with pairwise distinct indices, an index is among those of
    the kept elements exactly when its element is kept. *)
Lemma index_kept {B : Type} (f : nat * B -> bool) (t : list (nat * B))
  (je : nat * B) :
  NoDup (map fst t) -> In je t ->
  processed_mem (fst je) (map fst (filter f t)) = f je.
Proof.
  induction t as [| x t IH]; intros Hnd Hin; [contradiction |].
  inversion Hnd as [| ? ? Hx Hnd']; subst.
  destruct Hin as [-> | Hin].
  - cbn [filter]. destruct (f je) eqn:Hf.
    + cbn [map]. rewrite processed_mem_cons, Nat.eqb_refl. reflexivity.
    + destruct (processed_mem (fst je) (map fst (filter f t))) eqn:Hm;
        [| reflexivity].
      exfalso. apply Hx. apply processed_mem_In in Hm.
      apply in_map_iff in Hm. destruct Hm as [y [Hy Hyin]].
      apply filter_In in Hyin. rewrite <- Hy. apply in_map. tauto.
  - cbn [filter]. destruct (f x) eqn:Hfx.
    + cbn [map]. rewrite processed_mem_cons.
      destruct (Nat.eqb_spec (fst je) (fst x)) as [E | E].
      * exfalso. apply Hx. rewrite <- E. apply in_map. exact Hin.
      * simpl orb. apply IH; assumption.
    + apply IH; assumption.
Qed.

Lemma seed_step_cases (data : list (LocationUpdate * UserRole))
  (cl : list LocationCluster) (p : list nat) (i : nat) (u : LocationUpdate)
  (r : UserRole) :
  seed_step data (cl, p) (i, (u, r)) =
  if processed_mem i p then (cl, p)
  else
    let c0 :=
      Spec.grow (new_cluster (lu_latitude u) (lu_longitude u) 100) [u] in
    let taken := Spec.absorbed_by c0 (i :: p) (enumerate data) in
    let c := Spec.grow c0 (map Spec.sample_of taken) in
    let p' := rev (map fst taken) ++ i :: p in
    if (2 <=? user_count c)%nat then (cl ++ [c], p') else (cl, p').
Proof.
  unfold seed_step. destruct (processed_mem i p); [reflexivity |].
  rewrite (add_location_within
             (new_cluster (lu_latitude u) (lu_longitude u) 100) u)
    by apply sample_within_itself.
  cbn [fst]. rewrite absorb_loop by apply enumerate_NoDup.
  reflexivity.
Qed.

Lemma unprocessed_filter_cons (p : list nat) (i : nat)
  (x : LocationUpdate * UserRole)
  (t : list (nat * (LocationUpdate * UserRole))) :
  filter (Spec.unprocessed p) ((i, x) :: t) =
  if processed_mem i p then filter (Spec.unprocessed p) t
  else (i, x) :: filter (Spec.unprocessed p) t.
Proof.
  cbn [filter]. unfold Spec.unprocessed at 1. cbn [fst].
  destruct (processed_mem i p); reflexivity.
Qed.

Lemma absorbed_by_processed (c : LocationCluster) (p : list nat)
  (l : list (nat * (LocationUpdate * UserRole))) :
  (forall j, In j (map fst l) -> processed_mem j p = true) ->
  Spec.absorbed_by c p l = [].
Proof.
  intros Hall. unfold Spec.absorbed_by.
  induction l as [| je l IH]; [reflexivity |].
  cbn [filter]. unfold Spec.unprocessed at 1.
  rewrite (Hall (fst je)) by (left; reflexivity).
  simpl. apply IH. intros j Hj. apply Hall. right. exact Hj.
Qed.

Lemma absorbed_by_app (c : LocationCluster) (p : list nat)
  (a b : list (nat * (LocationUpdate * UserRole))) :
  Spec.absorbed_by c p (a ++ b) =
  Spec.absorbed_by c p a ++ Spec.absorbed_by c p b.
Proof. unfold Spec.absorbed_by. apply filter_app. Qed.

Lemma grow_new_cluster (radius : Q) (u : LocationUpdate)
  (ss : list LocationUpdate) :
  Spec.grow (new_cluster (lu_latitude u) (lu_longitude u) radius) (u :: ss) =
  Spec.seeded_cluster radius u ss.
Proof.
  unfold Spec.grow, Spec.seeded_cluster, new_cluster. simpl.
  rewrite Nat.add_0_r. reflexivity.
Qed.

(** The outer loop, from any position on: the clusters it adds are those
    of the greedy procedure run on the samples still unprocessed. *)
Lemma seed_loop (data : list (LocationUpdate * UserRole)) :
  forall (suf pre : list (nat * (LocationUpdate * UserRole)))
    (cl : list LocationCluster) (p : list nat) (fuel : nat),
    enumerate data = pre ++ suf ->
    (forall j, In j (map fst pre) -> processed_mem j p = true) ->
    (List.length (filter (Spec.unprocessed p) suf) <= fuel)%nat ->
    fst (fold_left (seed_step data) suf (cl, p)) =
    cl ++ Spec.greedy_clusters 100 fuel
            (map Spec.sample_of (filter (Spec.unprocessed p) suf)).
Proof.
  induction suf as [| [i [u r]] t IH]; intros pre cl p fuel Henum Hpre Hfuel.
  - simpl. rewrite greedy_clusters_nil, app_nil_r. reflexivity.
  - cbn [fold_left]. rewrite seed_step_cases.
    rewrite unprocessed_filter_cons in Hfuel |- *.
    assert (Henum' : enumerate data = (pre ++ [(i, (u, r))]) ++ t)
      by (rewrite <- app_assoc; exact Henum).
    pose proof (enumerate_NoDup data) as Hnd.
    rewrite Henum, map_app in Hnd. cbn [map fst] in Hnd.
    pose proof (NoDup_remove_2 _ _ _ Hnd) as Hi_fresh.
    apply NoDup_remove_1 in Hnd.
    assert (Hnd_t : NoDup (map fst t)).
    { apply NoDup_app_remove_l in Hnd. exact Hnd. }
    assert (Hi_t : ~ In i (map fst t)).
    { intros H. apply Hi_fresh. apply in_or_app. right. exact H. }
    destruct (processed_mem i p) eqn:Hi.
    + apply (IH (pre ++ [(i, (u, r))])); [exact Henum' | | exact Hfuel].
      intros j Hj. rewrite map_app in Hj. apply in_app_or in Hj.
      destruct Hj as [Hj | [<- | []]]; [apply Hpre; exact Hj | exact Hi].
    + cbn zeta.
      set (c0 := Spec.grow
                   (new_cluster (lu_latitude u) (lu_longitude u) 100) [u]).
      set (keep := fun je : nat * (LocationUpdate * UserRole) =>
                     Spec.unprocessed p je
                     && Spec.near_seed 100 u (Spec.sample_of je)).
      assert (Htaken : Spec.absorbed_by c0 (i :: p) (enumerate data) =
                       filter keep t).
      { rewrite Henum, absorbed_by_app.
        rewrite absorbed_by_processed.
        2:{ intros j Hj. rewrite processed_mem_cons, (Hpre j Hj).
            apply orb_true_r. }
        rewrite absorbed_by_cons, processed_mem_cons, Nat.eqb_refl.
        cbn [orb negb andb app].
        rewrite (absorbed_by_fresh c0 c0 i p t) by (try reflexivity; exact Hi_t).
        reflexivity. }
      rewrite Htaken.
      assert (Habs : map Spec.sample_of (filter keep t) =
                     filter (Spec.near_seed 100 u)
                       (map Spec.sample_of (filter (Spec.unprocessed p) t))).
      { rewrite filter_of_map, filter_twice. reflexivity. }
      assert (Hcluster : Spec.grow c0 (map Spec.sample_of (filter keep t)) =
                         Spec.seeded_cluster 100 u
                           (filter (Spec.near_seed 100 u)
                              (map Spec.sample_of
                                 (filter (Spec.unprocessed p) t)))).
      { unfold c0. rewrite grow_grow, grow_new_cluster, Habs. reflexivity. }
      rewrite Hcluster.
      set (p' := rev (map fst (filter keep t)) ++ i :: p).
      assert (Hleft : filter (Spec.unprocessed p') t =
                      filter (fun je => Spec.unprocessed p je
                                        && negb (Spec.near_seed 100 u
                                                   (Spec.sample_of je))) t).
      { apply filter_ext_in. intros je Hje. unfold p'.
        unfold Spec.unprocessed at 1.
        rewrite processed_mem_app, processed_mem_rev, processed_mem_cons.
        rewrite (index_kept keep t je Hnd_t Hje).
        assert (Hne : (fst je =? i)%nat = false).
        { apply Nat.eqb_neq. intros E. apply Hi_t. rewrite <- E.
          apply in_map. exact Hje. }
        rewrite Hne. unfold keep, Spec.unprocessed.
        destruct (processed_mem (fst je) p),
          (Spec.near_seed 100 u (Spec.sample_of je)); reflexivity. }
      assert (Hleft' : map Spec.sample_of (filter (Spec.unprocessed p') t) =
                       filter (fun s => negb (Spec.near_seed 100 u s))
                         (map Spec.sample_of
                            (filter (Spec.unprocessed p) t))).
      { rewrite Hleft, filter_of_map, filter_twice. reflexivity. }
      assert (Hpre' : forall j, In j (map fst (pre ++ [(i, (u, r))])) ->
                                processed_mem j p' = true).
      { intros j Hj. unfold p'.
        rewrite processed_mem_app, processed_mem_cons.
        rewrite map_app in Hj. apply in_app_or in Hj.
        destruct Hj as [Hj | [<- | []]].
        - rewrite (Hpre j Hj). rewrite !orb_true_r. reflexivity.
        - rewrite Nat.eqb_refl. simpl. apply orb_true_r. }
      destruct fuel as [| fuel']; [simpl in Hfuel; lia |].
      assert (Hfuel' : (List.length (filter (Spec.unprocessed p') t)
                        <= fuel')%nat).
      { rewrite Hleft, <- filter_twice.
        pose proof (filter_length_le
                      (fun je => negb (Spec.near_seed 100 u
                                         (Spec.sample_of je)))
                      (filter (Spec.unprocessed p) t)).
        simpl in Hfuel. lia. }
      cbn [map Spec.greedy_clusters].
      change (Spec.sample_of (i, (u, r))) with u.
      destruct (2 <=? user_count _)%nat.
      * rewrite (IH _ _ _ fuel' Henum' Hpre' Hfuel'), Hleft'.
        rewrite <- app_assoc. reflexivity.
      * rewrite (IH _ _ _ fuel' Henum' Hpre' Hfuel'), Hleft'.
        reflexivity.
Qed.

Lemma unprocessed_nil_all (l : list (nat * (LocationUpdate * UserRole))) :
  filter (Spec.unprocessed []) l = l.
Proof.
  induction l as [| je l IH]; [reflexivity |].
  cbn [filter]. unfold Spec.unprocessed at 1. simpl. rewrite IH. reflexivity.
Qed.

Lemma enumerate_length {A : Type} (l : list A) :
  List.length (enumerate l) = List.length l.
Proof.
  unfold enumerate. rewrite length_combine, length_seq. apply Nat.min_id.
Qed.

(** The two loops compute the greedy clustering of the specification. *)
Lemma create_location_clusters_fuel
  (data : list (LocationUpdate * UserRole)) (fuel : nat) :
  (List.length data <= fuel)%nat ->
  _create_location_clusters data =
  Spec.greedy_clusters 100 fuel (map fst data).
Proof.
  intros Hfuel. unfold _create_location_clusters.
  rewrite (seed_loop data (enumerate data) [] [] [] fuel).
  - rewrite unprocessed_nil_all, enumerate_samples. reflexivity.
  - reflexivity.
  - intros j [].
  - rewrite unprocessed_nil_all, enumerate_length. exact Hfuel.
Qed.

Lemma create_location_clusters_greedy
  (data : list (LocationUpdate * UserRole)) :
  _create_location_clusters data =
  Spec.greedy_clusters 100 (List.length data) (map fst data).
Proof. apply create_location_clusters_fuel. lia. Qed.

Lemma near_seed_iff (seed s : LocationUpdate) :
  Spec.near_seed 100 seed s = true <->
  (distance_km (lu_latitude s) (lu_longitude s)
     (lu_latitude seed) (lu_longitude seed) * 1000 <= 100)%R.
Proof.
  unfold Spec.near_seed, Spec.sample_within. rewrite Q2R_literal.
  destruct (Rle_dec _ _) as [H | H]; split; intros H'.
  - lra.
  - reflexivity.
  - discriminate.
  - exfalso. apply H. lra.
Qed.

(** Every cluster of the greedy procedure is seeded at one of the samples
    and holds, besides the seed, samples within the radius of the seed. *)
Lemma greedy_clusters_members (fuel : nat) :
  forall (samples : list LocationUpdate) (c : LocationCluster),
    In c (Spec.greedy_clusters 100 fuel samples) ->
    exists (seed : LocationUpdate) (absorbed : list LocationUpdate),
      c = Spec.seeded_cluster 100 seed absorbed
      /\ In seed samples
      /\ (1 <= List.length absorbed)%nat
      /\ forall s, In s absorbed ->
                   In s samples /\ Spec.near_seed 100 seed s = true.
Proof.
  induction fuel as [| fuel IH]; intros samples c Hin; [contradiction |].
  destruct samples as [| seed rest]; [contradiction |].
  cbn [Spec.greedy_clusters] in Hin. apply in_app_or in Hin.
  destruct Hin as [Hin | Hin].
  - destruct (2 <=? user_count _)%nat eqn:Hsize; [| contradiction].
    destruct Hin as [<- | []].
    exists seed, (filter (Spec.near_seed 100 seed) rest).
    split; [reflexivity |]. split; [left; reflexivity |]. split.
    + apply Nat.leb_le in Hsize. simpl in Hsize. lia.
    + intros s Hs. apply filter_In in Hs. destruct Hs as [Hs Hnear].
      split; [right; exact Hs | exact Hnear].
  - destruct (IH _ c Hin) as [seed' [absorbed [Hc [Hseed [Hlen Hall]]]]].
    exists seed', absorbed. split; [exact Hc |]. split.
    + right. apply filter_In in Hseed. tauto.
    + split; [exact Hlen |]. intros s Hs. destruct (Hall s Hs) as [Hs1 Hs2].
      split; [| exact Hs2]. right. apply filter_In in Hs1. tauto.
Qed.

Lemma create_two_samples_near (a b : LocationUpdate) (ra rb : UserRole) :
  (distance_km (lu_latitude b) (lu_longitude b)
     (lu_latitude a) (lu_longitude a) * 1000 <= 100)%R ->
  _create_location_clusters [(a, ra); (b, rb)] =
  [Spec.seeded_cluster 100 a [b]].
Proof.
  intros Hnear. apply near_seed_iff in Hnear.
  rewrite create_location_clusters_greedy.
  cbn [List.length map fst Spec.greedy_clusters filter].
  rewrite Hnear. reflexivity.
Qed.

Lemma create_two_samples_far (a b : LocationUpdate) (ra rb : UserRole) :
  (100 < distance_km (lu_latitude b) (lu_longitude b)
           (lu_latitude a) (lu_longitude a) * 1000)%R ->
  _create_location_clusters [(a, ra); (b, rb)] = [].
Proof.
  intros Hfar.
  assert (Hn : Spec.near_seed 100 a b = false).
  { apply not_true_iff_false. rewrite near_seed_iff. lra. }
  rewrite create_location_clusters_greedy.
  cbn [List.length map fst Spec.greedy_clusters filter].
  rewrite Hn. reflexivity.
Qed.

(** C6.  The two loops compute the greedy clustering: the first sample
    not yet processed seeds a cluster of radius 100 m, the cluster absorbs
    every other unprocessed sample within 100 m of the seed, absorbed
    samples are processed, and a cluster is kept when it has at least 2
    members.  So every cluster returned has at least 2 members, all within
    100 m of its seed; two samples at most 100 m apart (50 m, say) give one
    cluster of size 2, and two samples more than 100 m apart (500 m, say)
    give no cluster. *)
Theorem greedy_clustering :
  (forall (data : list (LocationUpdate * UserRole)) (fuel : nat),
      (List.length data <= fuel)%nat ->
      _create_location_clusters data =
      Spec.greedy_clusters 100 fuel (map fst data))
  /\ (forall (data : list (LocationUpdate * UserRole)) (c : LocationCluster),
        In c (_create_location_clusters data) ->
        (2 <= user_count c)%nat
        /\ user_count c = List.length (locations c)
        /\ radius c = 100%Q
        /\ exists (seed : LocationUpdate) (absorbed : list LocationUpdate),
             In seed (map fst data)
             /\ center_lat c = lu_latitude seed
             /\ center_lng c = lu_longitude seed
             /\ locations c = map point_of (seed :: absorbed)
             /\ forall s, In s absorbed ->
                   In s (map fst data)
                   /\ (meters_to_center c (point_of s) <= 100)%R)
  /\ (forall (a b : LocationUpdate) (ra rb : UserRole),
        (distance_km (lu_latitude b) (lu_longitude b)
           (lu_latitude a) (lu_longitude a) * 1000 <= 100)%R ->
        exists c : LocationCluster,
          _create_location_clusters [(a, ra); (b, rb)] = [c]
          /\ (2 <= user_count c)%nat
          /\ locations c = [point_of a; point_of b])
  /\ (forall (a b : LocationUpdate) (ra rb : UserRole),
        (100 < distance_km (lu_latitude b) (lu_longitude b)
                 (lu_latitude a) (lu_longitude a) * 1000)%R ->
        _create_location_clusters [(a, ra); (b, rb)] = []).
Proof.
  split; [exact create_location_clusters_fuel |].
  split; [| split].
  - intros data c Hin. rewrite create_location_clusters_greedy in Hin.
    destruct (greedy_clusters_members _ _ _ Hin)
      as [seed [absorbed [Hc [Hseed [Hlen Hall]]]]].
    subst c. cbn [Spec.seeded_cluster user_count locations radius
                    center_lat center_lng].
    split; [lia |].
    split; [cbn [map List.length]; rewrite length_map; reflexivity |].
    split; [reflexivity |].
    exists seed, absorbed. repeat (split; [first [exact Hseed | reflexivity] |]).
    intros s Hs. destruct (Hall s Hs) as [Hs1 Hs2]. split; [exact Hs1 |].
    apply near_seed_iff in Hs2. exact Hs2.
  - intros a b ra rb Hnear.
    exists (Spec.seeded_cluster 100 a [b]).
    split; [apply create_two_samples_near; exact Hnear |].
    split; [simpl; lia | reflexivity].
  - intros a b ra rb Hfar. apply create_two_samples_far. exact Hfar.
Qed.

Lemma greedy_clustering_witness :
  (exists c : LocationCluster,
      _create_location_clusters
        [ (mk_LocationUpdate 0 0 1000, PASSENGER);
          (mk_LocationUpdate 0.00045 0 1010, DRIVER) ] = [c]
      /\ (2 <= user_count c)%nat
      /\ locations c =
         [ point_of (mk_LocationUpdate 0 0 1000);
           point_of (mk_LocationUpdate 0.00045 0 1010) ])
  /\ _create_location_clusters
       [ (mk_LocationUpdate 0 0 1000, PASSENGER);
         (mk_LocationUpdate 0.0045 0 1010, DRIVER) ] = []
  /\ (49 < distance_km 0.00045 0 0 0 * 1000 < 51)%R
  /\ (495 < distance_km 0.0045 0 0 0 * 1000 < 505)%R
  /\ _create_location_clusters
       [ (mk_LocationUpdate 0 0 1000, PASSENGER);
         (mk_LocationUpdate 0.00045 0 1010, DRIVER) ] =
     Spec.greedy_clusters 100 5
       (map fst
          [ (mk_LocationUpdate 0 0 1000, PASSENGER);
            (mk_LocationUpdate 0.00045 0 1010, DRIVER) ]).
Proof.
  pose proof PI_bounds as [Hpi1 Hpi2].
  assert (H0 : Q2R 0 = 0%R) by (rewrite Q2R_literal; lra).
  assert (H50 : distance_km 0.00045 0 0 0 =
                (6371 * (0.00045 * (PI / 180)))%R).
  { unfold distance_km. rewrite distance_same_meridian.
    - f_equal. f_equal. rewrite H0, Q2R_literal. rewrite Rabs_left; lra.
    - rewrite Q2R_literal. lra.
    - lra. }
  assert (H500 : distance_km 0.0045 0 0 0 =
                 (6371 * (0.0045 * (PI / 180)))%R).
  { unfold distance_km. rewrite distance_same_meridian.
    - f_equal. f_equal. rewrite H0, Q2R_literal. rewrite Rabs_left; lra.
    - rewrite Q2R_literal. lra.
    - lra. }
  split; [| split; [| split; [| split]]].
  - apply (proj1 (proj2 (proj2 greedy_clustering))).
    cbn [lu_latitude lu_longitude]. rewrite H50. lra.
  - apply (proj2 (proj2 (proj2 greedy_clustering))).
    cbn [lu_latitude lu_longitude]. rewrite H500. lra.
  - rewrite H50. lra.
  - rewrite H500. lra.
  - apply (proj1 greedy_clustering). simpl. lia.
Defined.

End Clustering.

(** * Further properties *)

(** ** Sorting *)

Section SortFacts.

Context {A : Type} (le : A -> A -> bool).

Lemma insert_perm (x : A) (l : list A) :
  Permutation (PySort.insert le x l) (x :: l).
Proof.
  induction l as [| y t IH]; simpl; [apply Permutation_refl |].
  destruct (le x y); [apply Permutation_refl |].
  apply perm_trans with (y :: x :: t); [| apply perm_swap].
  apply perm_skip. exact IH.
Qed.

Lemma sort_perm (l : list A) : Permutation (PySort.sort le l) l.
Proof.
  induction l as [| x l IH]; simpl; [apply perm_nil |].
  apply perm_trans with (x :: PySort.sort le l);
    [apply insert_perm | apply perm_skip; exact IH].
Qed.

Lemma sort_length (l : list A) :
  List.length (PySort.sort le l) = List.length l.
Proof. apply Permutation_length, sort_perm. Qed.

Lemma sort_In (l : list A) (x : A) : In x (PySort.sort le l) <-> In x l.
Proof.
  split; apply Permutation_in; [| apply Permutation_sym]; apply sort_perm.
Qed.

Hypothesis le_total : forall x y, le x y = true \/ le y x = true.
Hypothesis le_trans :
  forall x y z, le x y = true -> le y z = true -> le x z = true.

Lemma insert_sorted (x : A) (l : list A) :
  StronglySorted (fun a b => le a b = true) l ->
  StronglySorted (fun a b => le a b = true) (PySort.insert le x l).
Proof.
  induction l as [| y t IH]; intros Hs; simpl.
  - constructor; [constructor | constructor].
  - inversion Hs as [| ? ? Ht Hy]; subst.
    destruct (le x y) eqn:Hxy.
    + constructor; [exact Hs |].
      constructor; [exact Hxy |].
      rewrite Forall_forall in Hy |- *. intros z Hz.
      apply (le_trans x y z Hxy). apply Hy. exact Hz.
    + constructor; [apply IH; exact Ht |].
      rewrite Forall_forall in Hy |- *. intros z Hz.
      apply (Permutation_in _ (insert_perm x t)) in Hz.
      destruct Hz as [<- | Hz].
      * destruct (le_total x y) as [H | H]; [congruence | exact H].
      * apply Hy. exact Hz.
Qed.

Lemma sort_sorted (l : list A) :
  StronglySorted (fun a b => le a b = true) (PySort.sort le l).
Proof.
  induction l as [| x l IH]; simpl; [constructor |].
  apply insert_sorted. exact IH.
Qed.

End SortFacts.

Lemma sorted_weaken {A : Type} (R S : A -> A -> Prop) (l : list A) :
  (forall a b, R a b -> S a b) -> StronglySorted R l -> StronglySorted S l.
Proof.
  intros HRS Hs. induction Hs as [| x l Hl IH Hx]; constructor.
  - exact IH.
  - rewrite Forall_forall in Hx |- *. intros y Hy. apply HRS, Hx, Hy.
Qed.

Lemma firstn_In {A : Type} (n : nat) (l : list A) (y : A) :
  In y (firstn n l) -> In y l.
Proof.
  revert n. induction l as [| x l IH]; intros n Hy.
  - rewrite firstn_nil in Hy. contradiction.
  - destruct n as [| n]; simpl in Hy; [contradiction |].
    destruct Hy as [-> | Hy]; [left; reflexivity | right; eapply IH; exact Hy].
Qed.

Lemma firstn_sorted {A : Type} (R : A -> A -> Prop) (n : nat) (l : list A) :
  StronglySorted R l -> StronglySorted R (firstn n l).
Proof.
  revert n. induction l as [| x l IH]; intros n Hs.
  - rewrite firstn_nil. constructor.
  - destruct n as [| n]; simpl; [constructor |].
    inversion Hs as [| ? ? Hl Hx]; subst.
    constructor; [apply IH; exact Hl |].
    rewrite Forall_forall in Hx |- *. intros y Hy. apply Hx.
    eapply firstn_In. exact Hy.
Qed.

(** ** More on distances *)

Section DistanceFacts.

Import Geofencing.
Local Open Scope R_scope.








End DistanceFacts.

(** ** Collecting loops *)

Lemma fold_left_ext {A B : Type} (f g : A -> B -> A) (l : list B) :
  (forall a b, f a b = g a b) ->
  forall a : A, fold_left f l a = fold_left g l a.
Proof.
  intros Hfg. induction l as [| b l IH]; intros a; simpl; [reflexivity |].
  rewrite Hfg. apply IH.
Qed.

Lemma collect_loop {A B : Type} (keep : A -> bool) (entry : A -> B)
  (l : list A) :
  forall acc : list B,
    fold_left (fun acc x => if keep x then acc ++ [entry x] else acc) l acc =
    acc ++ map entry (filter keep l).
Proof.
  induction l as [| x l IH]; intros acc; simpl.
  - rewrite app_nil_r. reflexivity.
  - rewrite IH. destruct (keep x); simpl; [| reflexivity].
    rewrite <- app_assoc. reflexivity.
Qed.

(** ** More on the geofence *)

Section GeofenceMore.

Import Geofencing.

(** X3.  The ray casting raises on the empty polygon only: the read of
    [polygon[0]] fails there, and on every other polygon each edge is
    handled without reading [xinters] before it is assigned. *)
Theorem point_in_polygon_raises_iff_empty :
  forall (lat lon : Q) (polygon : list (Q * Q)),
    point_in_polygon lat lon polygon = None <-> polygon = [].
Proof.
  intros lat lon polygon. split.
  - intros Hnone. destruct polygon as [| p rest]; [reflexivity |].
    destruct (point_in_polygon_total lat lon (p :: rest)) as [b Hb];
      [discriminate | congruence].
  - intros ->. reflexivity.
Qed.

Lemma ray_edge_right (x y xmax : Q) (st : ray_state) (p2 : Q * Q) :
  (p1x st <= xmax)%Q -> (fst p2 <= xmax)%Q -> (xmax < x)%Q ->
  exists st', ray_edge x y st p2 = Some st'
              /\ inside st' = inside st /\ p1x st' = fst p2.
Proof.
  intros H1 H2 Hout. destruct p2 as [p2x p2y]. simpl in H2. unfold ray_edge.
  destruct (Qlt_bool (Qmin (p1y st) p2y) y);
    [| eexists; split; [reflexivity | split; reflexivity]].
  destruct (Qle_bool y (Qmax (p1y st) p2y));
    [| eexists; split; [reflexivity | split; reflexivity]].
  destruct (Qle_bool x (Qmax (p1x st) p2x)) eqn:Hx;
    [| eexists; split; [reflexivity | split; reflexivity]].
  exfalso. apply Qle_bool_iff in Hx.
  assert (Hb : (Qmax (p1x st) p2x <= xmax)%Q) by (apply Q.max_lub; assumption).
  apply (Qlt_not_le _ _ Hout). apply (Qle_trans _ (Qmax (p1x st) p2x));
    assumption.
Qed.

Lemma ray_loop_right (x y xmax : Q) (polygon : list (Q * Q))
  (n : nat) (idx : list nat) :
  (forall p, In p polygon -> (fst p <= xmax)%Q) ->
  (xmax < x)%Q ->
  forall st st' : ray_state,
    (p1x st <= xmax)%Q ->
    ray_loop x y polygon n idx st = Some st' -> inside st' = inside st.
Proof.
  intros Hpoly Hout. induction idx as [| i rest IH]; intros st st' Hst Hloop;
    simpl in Hloop.
  - inversion Hloop; reflexivity.
  - destruct (nth_error polygon (i mod n)) as [p2 |] eqn:Hp; [| discriminate].
    assert (Hp2 : (fst p2 <= xmax)%Q)
      by (apply Hpoly; eapply nth_error_In; exact Hp).
    destruct (ray_edge_right x y xmax st p2 Hst Hp2 Hout)
      as [st1 [Hedge [Hin Hx]]].
    rewrite Hedge in Hloop.
    rewrite (IH st1 st') by (try rewrite Hx; assumption).
    exact Hin.
Qed.

(** X4.  A point is reported outside when, as the code reads the vertices
    [(p_x, p_y)] and the point [(x, y) = (lon, lat)], it lies at or below
    every [p_y], above every [p_y], or to the right of every [p_x]. *)
Theorem point_in_polygon_outside_box :
  forall (lat lon ylo yhi xhi : Q) (polygon : list (Q * Q)),
    polygon <> [] ->
    (forall p, In p polygon ->
               (ylo <= snd p <= yhi)%Q /\ (fst p <= xhi)%Q) ->
    (lat <= ylo)%Q \/ (yhi < lat)%Q \/ (xhi < lon)%Q ->
    point_in_polygon lat lon polygon = Some false.
Proof.
  intros lat lon ylo yhi xhi polygon Hne Hbox Hout.
  destruct (point_in_polygon_total lat lon polygon Hne) as [[|] Hb];
    [exfalso | exact Hb].
  destruct Hout as [Hy | [Hy | Hx]].
  - revert Hb. apply (point_in_polygon_outside_band lat lon ylo yhi);
      [intros p Hp; apply Hbox; exact Hp | left; exact Hy].
  - revert Hb. apply (point_in_polygon_outside_band lat lon ylo yhi);
      [intros p Hp; apply Hbox; exact Hp | right; exact Hy].
  - unfold point_in_polygon in Hb.
    destruct (nth_error polygon 0) as [[p1x0 p1y0] |] eqn:H0;
      [| discriminate].
    destruct (ray_loop lon lat polygon (List.length polygon)
                (seq 1 (List.length polygon)) _) as [st |] eqn:Hloop;
      [| discriminate].
    apply (ray_loop_right lon lat xhi polygon) in Hloop.
    + simpl in Hloop. rewrite Hloop in Hb. discriminate.
    + intros p Hp. apply Hbox. exact Hp.
    + exact Hx.
    + simpl. apply (Hbox (p1x0, p1y0)). eapply nth_error_In; exact H0.
Qed.

Lemma point_in_polygon_outside_box_witness :
  point_in_polygon 7.5227 4.5198 oau_polygon = Some false.
Proof.
  apply (point_in_polygon_outside_box 7.5227 4.5198 4.5050 4.5350 7.5380).
  - discriminate.
  - unfold oau_polygon. simpl. intros p H.
    repeat (destruct H as [<- | H];
            [simpl; split; [split |]; discriminate |]).
    contradiction.
  - right; left. reflexivity.
Defined.

(** X5.  No coordinate pair is ever accepted: [validate_coordinates]
    always returns, with [valid] and [within_campus] false, no landmark, no
    zone, and at least one error message. *)
Theorem validate_coordinates_never_valid :
  forall latitude longitude : Q,
    exists r : validation_result,
      validate_coordinates latitude longitude = Some r
      /\ valid r = false /\ within_campus r = false
      /\ v_nearest_landmark r = None /\ zone r = None
      /\ errors r <> [].
Proof.
  intros latitude longitude.
  destruct (lat_in_range latitude && lon_in_range longitude) eqn:Hrange.
  - rewrite (validate_in_range _ _ Hrange), is_within_oau_campus_never.
    eexists. split; [reflexivity |]. simpl.
    repeat split; discriminate.
  - rewrite (validate_out_of_range _ _ Hrange).
    eexists. split; [reflexivity |]. simpl.
    repeat split.
    destruct (lat_in_range latitude), (lon_in_range longitude);
      simpl in *; discriminate.
Qed.

Local Open Scope R_scope.

Lemma Rle_bool_total (a b : R) :
  PySort.Rle_bool a b = true \/ PySort.Rle_bool b a = true.
Proof.
  unfold PySort.Rle_bool.
  destruct (Rle_dec a b), (Rle_dec b a); auto. lra.
Qed.

Lemma Rle_bool_trans (a b c : R) :
  PySort.Rle_bool a b = true -> PySort.Rle_bool b c = true ->
  PySort.Rle_bool a c = true.
Proof.
  unfold PySort.Rle_bool.
  destruct (Rle_dec a b), (Rle_dec b c), (Rle_dec a c);
    intros; try discriminate; try reflexivity. lra.
Qed.

Lemma Rle_bool_iff (a b : R) : PySort.Rle_bool a b = true <-> a <= b.
Proof.
  unfold PySort.Rle_bool. destruct (Rle_dec a b); split; intros;
    try reflexivity; try assumption; try discriminate; contradiction.
Qed.

(** X6.  [get_nearby_landmarks] lists exactly the catalog entries within
    the radius, each once with its distance in whole meters, in ascending
    order of that distance. *)
Theorem get_nearby_landmarks_sorted_complete :
  forall (latitude longitude : Q) (radius : R),
    let nearby := get_nearby_landmarks_within latitude longitude radius in
    Permutation nearby
      (map (fun lm =>
              {| nb_landmark := lm;
                 nb_distance :=
                   Rround (distance_km latitude longitude
                             (lm_lat lm) (lm_lng lm) * 1000) 0 |})
         (filter (fun lm =>
                    PySort.Rle_bool
                      (distance_km latitude longitude (lm_lat lm) (lm_lng lm))
                      radius)
            OAU_LANDMARKS))
    /\ StronglySorted (fun a b => nb_distance a <= nb_distance b) nearby
    /\ (forall e, In e nearby -> 0 <= nb_distance e <= Rround (radius * 1000) 0).
Proof.
  intros latitude longitude radius nearby.
  assert (Hloop :
    fold_left (nearby_step latitude longitude radius) OAU_LANDMARKS [] =
    map (fun lm =>
           {| nb_landmark := lm;
              nb_distance :=
                Rround (distance_km latitude longitude
                          (lm_lat lm) (lm_lng lm) * 1000) 0 |})
      (filter (fun lm =>
                 PySort.Rle_bool
                   (distance_km latitude longitude (lm_lat lm) (lm_lng lm))
                   radius)
         OAU_LANDMARKS)).
  { rewrite <- (app_nil_l (map _ _)). rewrite <- collect_loop.
    apply fold_left_ext. intros acc lm.
    unfold nearby_step, PySort.Rle_bool.
    destruct (Rle_dec _ _); reflexivity. }
  assert (Hperm : Permutation nearby
                    (fold_left (nearby_step latitude longitude radius)
                       OAU_LANDMARKS [])) by apply sort_perm.
  split; [rewrite <- Hloop; exact Hperm |]. split.
  - unfold nearby, get_nearby_landmarks_within.
    eapply sorted_weaken; [| apply sort_sorted].
    + intros a b H. apply Rle_bool_iff. exact H.
    + intros x y. apply Rle_bool_total.
    + intros x y z. apply Rle_bool_trans.
  - intros e He. apply (Permutation_in _ Hperm) in He.
    rewrite Hloop in He. apply in_map_iff in He.
    destruct He as [lm [<- Hlm]]. apply filter_In in Hlm.
    destruct Hlm as [_ Hle]. apply Rle_bool_iff in Hle. simpl.
    split.
    + apply Rround_nonneg.
      pose proof (calculate_distance_nonneg (Q2R latitude) (Q2R longitude)
                    (Q2R (lm_lat lm)) (Q2R (lm_lng lm))).
      unfold distance_km. lra.
    + apply Rround_mono. lra.
Qed.

End GeofenceMore.

(** ** Counting dictionaries *)

Lemma sum_counts_acc {A : Type} (rows : list (A * Z)) :
  forall acc : Z,
    fold_left (fun acc row => (acc + snd row)%Z) rows acc =
    (acc + Analytics.sum_counts rows)%Z.
Proof.
  unfold Analytics.sum_counts.
  induction rows as [| row rows IH]; intros acc; simpl; [lia |].
  rewrite IH, (IH (snd row)). lia.
Qed.

Lemma sum_counts_cons {A : Type} (row : A * Z) (rows : list (A * Z)) :
  Analytics.sum_counts (row :: rows) = (snd row + Analytics.sum_counts rows)%Z.
Proof.
  unfold Analytics.sum_counts at 1. simpl. apply sum_counts_acc.
Qed.

Section CountFacts.

Context {K : Type} (eqb : K -> K -> bool).
Hypothesis eqb_spec : forall a b : K, eqb a b = true <-> a = b.

Lemma dict_get_In {V : Type} (d : list (K * V)) (k : K) (v : V) :
  Dict.get eqb d k = Some v -> In (k, v) d.
Proof.
  induction d as [| [k0 v0] rest IH]; simpl; [discriminate |].
  destruct (eqb k k0) eqn:Hk.
  - apply eqb_spec in Hk. subst k0. intros H; inversion H; subst.
    left; reflexivity.
  - intros H. right. apply IH. exact H.
Qed.

Lemma dict_In_get {V : Type} (d : list (K * V)) (k : K) (v : V) :
  NoDup (map fst d) -> In (k, v) d -> Dict.get eqb d k = Some v.
Proof.
  induction d as [| [k0 v0] rest IH]; simpl; intros Hnd Hin; [contradiction |].
  inversion Hnd as [| ? ? Hnotin Hnd']; subst.
  destruct Hin as [Heq | Hin].
  - inversion Heq; subst.
    rewrite (proj2 (eqb_spec k k) eq_refl). reflexivity.
  - destruct (eqb k k0) eqn:Hk.
    + apply eqb_spec in Hk. subst k0. exfalso. apply Hnotin.
      apply in_map_iff. exists (k, v). split; [reflexivity | exact Hin].
    + apply IH; assumption.
Qed.

Lemma dict_set_In {V : Type} (d : list (K * V)) (k k' : K) (v v' : V) :
  In (k', v') (Dict.set eqb d k v) -> (k' = k /\ v' = v) \/ In (k', v') d.
Proof.
  induction d as [| [k0 v0] rest IH]; simpl.
  - intros [H | []]. inversion H; subst. left; split; reflexivity.
  - destruct (eqb k k0) eqn:Hk; simpl.
    + apply eqb_spec in Hk. subst k0.
      intros [H | H]; [inversion H; subst; left; split; reflexivity |].
      right; right; exact H.
    + intros [H | H]; [right; left; exact H |].
      destruct (IH H) as [Hl | Hr]; [left; exact Hl | right; right; exact Hr].
Qed.

Lemma dict_set_set {V : Type} (d : list (K * V)) (k : K) (v v' : V) :
  Dict.set eqb (Dict.set eqb d k v) k v' = Dict.set eqb d k v'.
Proof.
  induction d as [| [k0 v0] rest IH]; simpl.
  - rewrite (proj2 (eqb_spec k k) eq_refl). reflexivity.
  - destruct (eqb k k0) eqn:Hk; simpl; rewrite Hk; [reflexivity |].
    rewrite IH. reflexivity.
Qed.

Lemma dict_set_keys_NoDup {V : Type} (d : list (K * V)) (k : K) (v : V) :
  NoDup (map fst d) -> NoDup (map fst (Dict.set eqb d k v)).
Proof.
  intros Hnd. rewrite (dict_keys_set eqb).
  destruct (existsb (eqb k) (map fst d)) eqn:Hex; [exact Hnd |].
  apply NoDup_app; [exact Hnd | constructor; [intros [] | constructor] |].
  intros k' Hk' [<- | []].
  apply Bool.not_true_iff_false in Hex. apply Hex.
  apply existsb_exists. exists k. split; [exact Hk' |].
  apply eqb_spec. reflexivity.
Qed.

Lemma max_item_spec (items : list (K * Z)) :
  forall best : K * Z,
    In (Dict.max_item best items) (best :: items)
    /\ forall x, In x (best :: items) ->
                 (snd x <= snd (Dict.max_item best items))%Z.
Proof.
  induction items as [| item rest IH]; intros best; simpl.
  - split; [left; reflexivity |]. intros x [<- | []]. lia.
  - destruct (snd best <? snd item)%Z eqn:Hlt.
    + apply Z.ltb_lt in Hlt. destruct (IH item) as [Hin Hmax]. split.
      * right. exact Hin.
      * intros x [<- | Hx]; [| apply Hmax; exact Hx].
        pose proof (Hmax item (or_introl eq_refl)). lia.
    + apply Z.ltb_ge in Hlt. destruct (IH best) as [Hin Hmax]. split.
      * destruct Hin as [Hin | Hin]; [left; exact Hin | right; right; exact Hin].
      * intros x [<- | [<- | Hx]].
        -- apply Hmax. left; reflexivity.
        -- pose proof (Hmax best (or_introl eq_refl)). lia.
        -- apply Hmax. right; exact Hx.
Qed.

Lemma min_item_spec (items : list (K * Z)) :
  forall best : K * Z,
    In (Dict.min_item best items) (best :: items)
    /\ forall x, In x (best :: items) ->
                 (snd (Dict.min_item best items) <= snd x)%Z.
Proof.
  induction items as [| item rest IH]; intros best; simpl.
  - split; [left; reflexivity |]. intros x [<- | []]. lia.
  - destruct (snd item <? snd best)%Z eqn:Hlt.
    + apply Z.ltb_lt in Hlt. destruct (IH item) as [Hin Hmin]. split.
      * right. exact Hin.
      * intros x [<- | Hx]; [| apply Hmin; exact Hx].
        pose proof (Hmin item (or_introl eq_refl)). lia.
    + apply Z.ltb_ge in Hlt. destruct (IH best) as [Hin Hmin]. split.
      * destruct Hin as [Hin | Hin]; [left; exact Hin | right; right; exact Hin].
      * intros x [<- | [<- | Hx]].
        -- apply Hmin. left; reflexivity.
        -- pose proof (Hmin best (or_introl eq_refl)). lia.
        -- apply Hmin. right; exact Hx.
Qed.

Lemma dict_sum_set (d : list (K * Z)) (k : K) (v : Z) :
  Analytics.sum_counts (Dict.set eqb d k v) =
  (Analytics.sum_counts d - Dict.get_default eqb d k 0 + v)%Z.
Proof.
  unfold Dict.get_default.
  induction d as [| [k0 v0] rest IH]; simpl.
  - rewrite sum_counts_cons. simpl. unfold Analytics.sum_counts. simpl. lia.
  - destruct (eqb k k0) eqn:Hk.
    + rewrite !sum_counts_cons. simpl. lia.
    + rewrite !sum_counts_cons, IH. simpl. lia.
Qed.

Lemma count_up_get (d : list (K * Z)) (k k' : K) :
  Dict.get eqb (Dict.count_up eqb d k) k' =
  if eqb k' k then Some (Dict.get_default eqb d k 0 + 1)%Z
  else Dict.get eqb d k'.
Proof. unfold Dict.count_up. apply (dict_get_set eqb eqb_spec). Qed.

Section Counting.

Context {A : Type} (key : A -> K).

Lemma count_fold_get (l : list A) (k : K) :
  Dict.get eqb (fold_left (fun d x => Dict.count_up eqb d (key x)) l []) k =
  let c := Z.of_nat (List.length (filter (fun x => eqb k (key x)) l)) in
  if (c =? 0)%Z then None else Some c.
Proof.
  induction l as [| x l IH] using rev_ind; [reflexivity |].
  rewrite fold_left_app. simpl fold_left. rewrite count_up_get.
  rewrite filter_app, length_app. simpl filter.
  cbv zeta in IH |- *.
  destruct (eqb k (key x)) eqn:Hk.
  - apply eqb_spec in Hk. rewrite <- Hk.
    unfold Dict.get_default. rewrite IH. simpl List.length.
    destruct (Z.of_nat (List.length (filter _ l)) =? 0)%Z eqn:Hz.
    + apply Z.eqb_eq in Hz.
      destruct (Z.of_nat (_ + 1) =? 0)%Z eqn:Hz'; [apply Z.eqb_eq in Hz'; lia |].
      f_equal. lia.
    + destruct (Z.of_nat (_ + 1) =? 0)%Z eqn:Hz'; [apply Z.eqb_eq in Hz'; lia |].
      f_equal. lia.
  - rewrite IH. simpl List.length. rewrite Nat.add_0_r. reflexivity.
Qed.

Lemma count_fold_keys_NoDup (l : list A) :
  NoDup (map fst
           (fold_left (fun d x => Dict.count_up eqb d (key x)) l
              (@nil (K * Z)))).
Proof.
  induction l as [| x l IH] using rev_ind; [constructor |].
  rewrite fold_left_app. simpl. unfold Dict.count_up.
  apply dict_set_keys_NoDup. exact IH.
Qed.

Lemma count_fold_sum (l : list A) :
  Analytics.sum_counts
    (fold_left (fun d x => Dict.count_up eqb d (key x)) l []) =
  Z.of_nat (List.length l).
Proof.
  induction l as [| x l IH] using rev_ind; [reflexivity |].
  rewrite fold_left_app, length_app. cbn [fold_left List.length].
  unfold Dict.count_up at 1.
  rewrite dict_sum_set, IH. lia.
Qed.

Lemma count_fold_nil_iff (l : list A) :
  fold_left (fun d x => Dict.count_up eqb d (key x)) l (@nil (K * Z)) = []
  <-> l = [].
Proof.
  split; [| intros ->; reflexivity].
  destruct l as [| x l] using rev_ind; [reflexivity |].
  rewrite fold_left_app. simpl. unfold Dict.count_up. intros H.
  exfalso. exact (dict_set_not_nil eqb _ _ _ H).
Qed.

(** The first item of greatest count of a counting dictionary is a key of
    the greatest number of occurrences. *)
Lemma count_fold_mode (l : list A) (first : K * Z) (rest : list (K * Z)) :
  fold_left (fun d x => Dict.count_up eqb d (key x)) l [] = first :: rest ->
  let k := fst (Dict.max_item first rest) in
  (exists x, In x l /\ key x = k)
  /\ forall k' : K,
       (List.length (filter (fun x => eqb k' (key x)) l)
        <= List.length (filter (fun x => eqb k (key x)) l))%nat.
Proof.
  intros Hd k.
  destruct (max_item_spec rest first) as [Hin Hmax].
  fold k in Hin. rewrite <- Hd in Hin, Hmax.
  assert (Hget : Dict.get eqb
                   (fold_left (fun d x => Dict.count_up eqb d (key x)) l [])
                   k = Some (snd (Dict.max_item first rest))).
  { apply dict_In_get; [apply count_fold_keys_NoDup |].
    unfold k. rewrite <- surjective_pairing. exact Hin. }
  rewrite count_fold_get in Hget. cbv zeta in Hget.
  destruct (Z.of_nat (List.length (filter (fun x => eqb k (key x)) l)) =? 0)%Z
    eqn:Hz; [discriminate |].
  inversion Hget as [Hc]. apply Z.eqb_neq in Hz. split.
  - destruct (filter (fun x => eqb k (key x)) l) as [| x t] eqn:Hf;
      [simpl in Hz; lia |].
    assert (Hx : In x (filter (fun x => eqb k (key x)) l))
      by (rewrite Hf; left; reflexivity).
    apply filter_In in Hx. destruct Hx as [Hx Hk].
    apply eqb_spec in Hk. exists x. split; [exact Hx | symmetry; exact Hk].
  - intros k'.
    pose proof (count_fold_get l k') as Hget'. cbv zeta in Hget'.
    destruct (Z.of_nat (List.length (filter (fun x => eqb k' (key x)) l)) =? 0)%Z
      eqn:Hz'; [apply Z.eqb_eq in Hz'; lia |].
    apply dict_get_In in Hget'. apply Hmax in Hget'. simpl in Hget'. lia.
Qed.

End Counting.

End CountFacts.

(** ** Clusters *)

Section ClusterFacts.

Import Geofencing LocationUtils LocationService.

Lemma add_location_loop (points : list LocationPoint) :
  forall c0 : LocationCluster,
    let c := fold_left (fun c p => fst (add_location c p)) points c0 in
    let within p :=
      PySort.Rle_bool (meters_to_center c0 p) (Q2R (radius c0)) in
    center_lat c = center_lat c0 /\ center_lng c = center_lng c0
    /\ radius c = radius c0
    /\ locations c = locations c0 ++ filter within points
    /\ user_count c =
       (user_count c0 + List.length (filter within points))%nat.
Proof.
  induction points as [| p points IH]; intros c0; cbv zeta.
  - simpl. rewrite app_nil_r. repeat split; lia.
  - cbn [fold_left filter].
    destruct (IH (fst (add_location c0 p))) as [H1 [H2 [H3 [H4 H5]]]].
    cbv zeta in H4, H5.
    assert (Hsame : forall q,
               PySort.Rle_bool
                 (meters_to_center (fst (add_location c0 p)) q)
                 (Q2R (radius (fst (add_location c0 p)))) =
               PySort.Rle_bool (meters_to_center c0 q) (Q2R (radius c0))).
    { intros q. unfold add_location.
      destruct (Rle_dec (meters_to_center c0 p) (Q2R (radius c0)));
        reflexivity. }
    rewrite (filter_ext _ _ Hsame) in H4, H5.
    rewrite H1, H2, H3, H4, H5. clear H1 H2 H3 H4 H5 Hsame IH.
    unfold add_location, PySort.Rle_bool.
    destruct (Rle_dec (meters_to_center c0 p) (Q2R (radius c0))); simpl.
    + rewrite <- app_assoc. repeat split. lia.
    + repeat split.
Qed.

(** X7.  A cluster that is fed points one by one keeps its centre and
    radius, holds exactly the points within the radius of the centre, in
    the order given, and counts them: [user_count] is the number of
    [locations]. *)
Theorem add_location_collects_within :
  forall (points : list LocationPoint) (lat lng r : Q),
    let c :=
      fold_left (fun c p => fst (add_location c p)) points
        (new_cluster lat lng r) in
    center_lat c = lat /\ center_lng c = lng /\ radius c = r
    /\ locations c =
       filter (fun p =>
                 PySort.Rle_bool
                   (distance_km (latitude p) (longitude p) lat lng * 1000)
                   (Q2R r))
         points
    /\ user_count c = List.length (locations c).
Proof.
  intros points lat lng r c.
  destruct (add_location_loop points (new_cluster lat lng r))
    as [H1 [H2 [H3 [H4 H5]]]].
  fold c in H1, H2, H3, H4, H5. simpl in H1, H2, H3, H4, H5.
  repeat split; try assumption.
  rewrite H5, H4. reflexivity.
Qed.

Local Open Scope R_scope.

(** X8.  The density of a cluster is never negative; it is the count
    divided by the disc area [PI * radius ** 2] for every radius but 0,
    negative ones included, and 0 exactly when the cluster is empty or
    its radius is 0. *)
Theorem get_density_zero_iff :
  forall c : LocationCluster,
    0 <= get_density c
    /\ (get_density c = 0 <-> user_count c = 0%nat \/ (radius c == 0)%Q)
    /\ (get_density c =
        if Qeq_bool (radius c) 0 then 0
        else INR (user_count c) / (PI * Q2R (radius c) ^ 2)).
Proof.
  intros c. pose proof PI_RGT_0 as Hpi. unfold get_density.
  pose proof (pos_INR (user_count c)) as Hn.
  destruct (Qeq_bool (radius c) 0) eqn:Hr.
  - apply Qeq_bool_iff in Hr. assert (Hr0 : Q2R (radius c) = 0).
    { rewrite (Qeq_eqR _ _ Hr). apply RMicromega.Q2R_0. }
    rewrite Hr0. destruct (Rlt_dec 0 (PI * 0 ^ 2)) as [H | H];
      [exfalso; simpl in H; lra |].
    split; [lra |]. split; [| reflexivity].
    split; [intros _; right; exact Hr | reflexivity].
  - assert (Hne : Q2R (radius c) <> 0).
    { intros H0. apply Qeq_bool_neq in Hr. apply Hr.
      apply eqR_Qeq. rewrite H0. symmetry. apply RMicromega.Q2R_0. }
    assert (Hsq : 0 < Q2R (radius c) ^ 2).
    { simpl. rewrite Rmult_1_r.
      destruct (Rtotal_order (Q2R (radius c)) 0) as [H | [H | H]];
        [| contradiction |].
      - replace (Q2R (radius c) * Q2R (radius c))
          with ((- Q2R (radius c)) * (- Q2R (radius c))) by ring.
        apply Rmult_lt_0_compat; lra.
      - apply Rmult_lt_0_compat; lra. }
    assert (Harea : 0 < PI * Q2R (radius c) ^ 2)
      by (apply Rmult_lt_0_compat; assumption).
    destruct (Rlt_dec 0 (PI * Q2R (radius c) ^ 2)) as [H | H];
      [| contradiction].
    split; [| split; [| reflexivity]].
    + apply Rmult_le_pos; [exact Hn |].
      left. apply Rinv_0_lt_compat. exact Harea.
    + split.
      * intros Hz. left. apply INR_eq. simpl.
        unfold Rdiv in Hz. apply Rmult_integral in Hz.
        destruct Hz as [Hz | Hz]; [exact Hz |].
        exfalso. apply (Rinv_neq_0_compat (PI * Q2R (radius c) ^ 2));
          [lra | exact Hz].
      * intros [Hz | Hz].
        -- rewrite Hz. simpl. unfold Rdiv. ring.
        -- apply Qeq_bool_neq in Hr. contradiction.
Qed.

End ClusterFacts.

(** ** The location cache *)

Section CacheFacts.

Import LocationUtils LocationService.

Lemma string_eqb_spec (a b : string) : String.eqb a b = true <-> a = b.
Proof. apply String.eqb_eq. Qed.

(** X9.  Caching a location appends it to the list of its session and
    keeps the last 50 of that list: the session then holds
    [min 50 (n + 1)] locations ending with the new one, and every other
    session keeps its list. *)
Theorem cache_location_keeps_last_50 :
  forall (location_cache : list (string * list LocationPoint))
         (session_id : string) (location : LocationPoint),
    let before :=
      Dict.get_default String.eqb location_cache session_id [] in
    let after := _cache_location location_cache session_id location in
    exists kept : list LocationPoint,
      Dict.get String.eqb after session_id = Some kept
      /\ kept = skipn (List.length before + 1 - 50) (before ++ [location])
      /\ List.length kept = Nat.min 50 (List.length before + 1)
      /\ last kept location = location
      /\ forall other : string,
           other <> session_id ->
           Dict.get String.eqb after other =
           Dict.get String.eqb location_cache other.
Proof.
  intros location_cache session_id location before after.
  exists (skipn (List.length before + 1 - 50) (before ++ [location])).
  assert (Hrefl : String.eqb session_id session_id = true)
    by apply String.eqb_refl.
  assert (Hdef :
    Dict.get_default String.eqb
      match Dict.get String.eqb location_cache session_id with
      | Some _ => location_cache
      | None => Dict.set String.eqb location_cache session_id []
      end session_id [] = before).
  { unfold before, Dict.get_default.
    destruct (Dict.get String.eqb location_cache session_id) eqn:Hg.
    - rewrite Hg. reflexivity.
    - rewrite (dict_get_set String.eqb string_eqb_spec), Hrefl. reflexivity. }
  assert (Hlen : List.length (before ++ [location]) =
                 (List.length before + 1)%nat)
    by (rewrite length_app; reflexivity).
  split; [| split; [reflexivity | split; [| split]]].
  - unfold after, _cache_location. rewrite Hdef, Hlen.
    destruct (50 <? List.length before + 1)%nat eqn:Hlt.
    + rewrite (dict_get_set String.eqb string_eqb_spec), Hrefl. reflexivity.
    + rewrite (dict_get_set String.eqb string_eqb_spec), Hrefl.
      apply Nat.ltb_ge in Hlt.
      replace (List.length before + 1 - 50)%nat with 0%nat by lia.
      reflexivity.
  - rewrite length_skipn, Hlen. lia.
  - rewrite skipn_app.
    replace (List.length before + 1 - 50 - List.length before)%nat
      with 0%nat by lia.
    simpl skipn. apply last_last.
  - intros other Hother.
    assert (Hne : String.eqb other session_id = false)
      by (apply String.eqb_neq; exact Hother).
    unfold after, _cache_location.
    destruct (50 <? _)%nat;
      repeat rewrite (dict_get_set String.eqb string_eqb_spec), Hne;
      destruct (Dict.get String.eqb location_cache session_id);
      try reflexivity;
      rewrite (dict_get_set String.eqb string_eqb_spec), Hne; reflexivity.
Qed.

End CacheFacts.

(** ** Speed classes *)

Section SpeedFacts.

Import LocationService.
Local Open Scope R_scope.

(** X10.  Neither speed classification ever answers ["unknown"]: the
    ranges cover every speed, the earlier range winning at a shared bound
    (8 is a bicycle, 25 a motorcycle, 20 cycling). *)
Theorem speed_classes_cover :
  forall (avg_speed total_distance : R) (location_count : Z),
    _estimate_transport_mode avg_speed <> "unknown"%string
    /\ _estimate_transport_mode avg_speed =
       (if Rlt_dec avg_speed 2 then "on_foot"
        else if Rle_dec avg_speed 8 then "bicycle"
        else if Rle_dec avg_speed 25 then "motorcycle"
        else "car")%string
    /\ _classify_movement_pattern avg_speed total_distance location_count
       <> "unknown"%string
    /\ _classify_movement_pattern avg_speed total_distance location_count =
       (if Rlt_dec avg_speed 1
        then if Rlt_dec total_distance 0.1 then "stationary" else "walking"
        else if Rlt_dec avg_speed 5 then "walking"
        else if Rle_dec avg_speed 20 then "cycling"
        else "vehicle")%string.
Proof.
  intros avg_speed total_distance location_count.
  unfold _estimate_transport_mode, _classify_movement_pattern.
  repeat split;
    repeat (match goal with
            | |- context [Rlt_dec ?a ?b] => destruct (Rlt_dec a b)
            | |- context [Rle_dec ?a ?b] => destruct (Rle_dec a b)
            end; simpl);
    try discriminate; try reflexivity; exfalso; lra.
Qed.

End SpeedFacts.

(** ** Reports and landmarks around a location *)

Section AroundFacts.

Import Geofencing LocationUtils LocationService.

(** X11.  The bike availability of a place is ["unknown"] exactly when
    there is no report; otherwise it is the level of one of the reports,
    and no level is reported more often. *)
Theorem analyze_bike_availability_mode :
  forall bike_reports : list Analytics.BikeAvailability,
    let result := _analyze_bike_availability bike_reports in
    let times (a : Analytics.BikeAvailability) :=
      List.length
        (filter (fun r => String.eqb (Analytics.value a) (Analytics.value r))
           bike_reports) in
    (result = "unknown"%string <-> bike_reports = [])
    /\ match bike_reports with
       | [] => True
       | _ :: _ =>
           exists a : Analytics.BikeAvailability,
             In a bike_reports /\ result = Analytics.value a
             /\ forall b : Analytics.BikeAvailability,
                  (times b <= times a)%nat
       end.
Proof.
  intros bike_reports. cbv zeta.
  destruct bike_reports as [| r0 reports].
  - split; [split; reflexivity | exact I].
  - assert (Hmode : exists a : Analytics.BikeAvailability,
               In a (r0 :: reports)
               /\ _analyze_bike_availability (r0 :: reports) = Analytics.value a
               /\ forall b : Analytics.BikeAvailability,
                    (List.length
                       (filter (fun r => String.eqb (Analytics.value b)
                                           (Analytics.value r))
                          (r0 :: reports))
                     <= List.length
                          (filter (fun r => String.eqb (Analytics.value a)
                                              (Analytics.value r))
                             (r0 :: reports)))%nat).
    { change (_analyze_bike_availability (r0 :: reports))
        with (match count_reports (r0 :: reports) with
              | first :: rest => fst (Dict.max_item first rest)
              | [] => "unknown"%string
              end).
      destruct (count_reports (r0 :: reports)) as [| first rest] eqn:Hc.
      - exfalso. unfold count_reports in Hc.
        apply (count_fold_nil_iff String.eqb) in Hc. discriminate.
      - unfold count_reports in Hc.
        destruct (count_fold_mode String.eqb string_eqb_spec Analytics.value
                    (r0 :: reports) first rest Hc) as [[a [Ha Hk]] Hmax].
        exists a. split; [exact Ha |]. split; [symmetry; exact Hk |].
        intros b. rewrite Hk. apply Hmax. }
    split; [| exact Hmode].
    split; [| discriminate].
    destruct Hmode as [a [_ [Ha _]]]. rewrite Ha.
    destruct a; discriminate.
Qed.

Lemma within_radius_loop (location : LocationPoint) (radius_meters : R) :
  fold_left (within_radius_step location radius_meters) OAU_LANDMARKS [] =
  map (fun lm =>
         {| rl_landmark := lm;
            rl_distance_meters :=
              Rround_half_even (landmark_meters_from location lm) |})
    (filter (fun lm =>
               PySort.Rle_bool (landmark_meters_from location lm)
                 radius_meters)
       OAU_LANDMARKS).
Proof.
  rewrite <- (app_nil_l (map _ _)). rewrite <- collect_loop.
  apply fold_left_ext. intros acc lm.
  unfold within_radius_step, PySort.Rle_bool.
  destruct (Rle_dec _ _); reflexivity.
Qed.

Lemma Zle_bool_total (a b : Z) : (a <=? b)%Z = true \/ (b <=? a)%Z = true.
Proof. rewrite !Z.leb_le. lia. Qed.

Lemma Zle_bool_trans (a b c : Z) :
  (a <=? b)%Z = true -> (b <=? c)%Z = true -> (a <=? c)%Z = true.
Proof. rewrite !Z.leb_le. lia. Qed.

Lemma landmarks_within_radius_perm (location : LocationPoint)
  (radius_meters : R) :
  Permutation (_get_landmarks_within_radius location radius_meters)
    (map (fun lm =>
            {| rl_landmark := lm;
               rl_distance_meters :=
                 Rround_half_even (landmark_meters_from location lm) |})
       (filter (fun lm =>
                  PySort.Rle_bool (landmark_meters_from location lm)
                    radius_meters)
          OAU_LANDMARKS)).
Proof.
  unfold _get_landmarks_within_radius. rewrite within_radius_loop.
  apply sort_perm.
Qed.

Lemma landmarks_within_radius_In (location : LocationPoint)
  (radius_meters : R) (e : radius_landmark) :
  In e (_get_landmarks_within_radius location radius_meters) <->
  In (rl_landmark e) OAU_LANDMARKS
  /\ (landmark_meters_from location (rl_landmark e) <= radius_meters)%R
  /\ rl_distance_meters e =
     Rround_half_even (landmark_meters_from location (rl_landmark e)).
Proof.
  split.
  - intros He.
    apply (Permutation_in _ (landmarks_within_radius_perm _ _)) in He.
    apply in_map_iff in He. destruct He as [lm [<- Hlm]].
    apply filter_In in Hlm. destruct Hlm as [Hin Hle].
    apply Rle_bool_iff in Hle. simpl. tauto.
  - intros [Hin [Hle Hd]].
    apply (Permutation_in _
             (Permutation_sym (landmarks_within_radius_perm _ _))).
    apply in_map_iff. exists (rl_landmark e). split.
    + destruct e as [lm d]. simpl in *. rewrite Hd. reflexivity.
    + apply filter_In. split; [exact Hin |].
      apply Rle_bool_iff. exact Hle.
Qed.

Lemma landmarks_within_radius_sorted (location : LocationPoint)
  (radius_meters : R) :
  StronglySorted
    (fun a b => (rl_distance_meters a <= rl_distance_meters b)%Z)
    (_get_landmarks_within_radius location radius_meters).
Proof.
  unfold _get_landmarks_within_radius.
  eapply sorted_weaken; [| apply sort_sorted].
  - intros a b H. apply Z.leb_le. exact H.
  - intros x y. apply Zle_bool_total.
  - intros x y z. apply Zle_bool_trans.
Qed.

Lemma landmarks_within_radius_nonneg (location : LocationPoint)
  (radius_meters : R) :
  Forall (fun e => (0 <= rl_distance_meters e)%Z)
    (_get_landmarks_within_radius location radius_meters).
Proof.
  apply Forall_forall. intros e He.
  apply landmarks_within_radius_In in He. destruct He as [_ [_ ->]].
  rewrite <- (Rround_half_even_IZR 0). apply Rround_half_even_mono.
  unfold landmark_meters_from.
  pose proof (calculate_distance_nonneg
                (Q2R (latitude location)) (Q2R (longitude location))
                (Q2R (lm_lat (rl_landmark e))) (Q2R (lm_lng (rl_landmark e)))).
  unfold distance_km. simpl. lra.
Qed.

(** X12.  [_get_landmarks_within_radius] lists exactly the catalog
    entries within the radius, each once with its distance rounded to
    whole meters, in ascending order of that distance. *)
Theorem landmarks_within_radius_sorted_complete :
  forall (location : LocationPoint) (radius_meters : R),
    let nearby := _get_landmarks_within_radius location radius_meters in
    Permutation nearby
      (map (fun lm =>
              {| rl_landmark := lm;
                 rl_distance_meters :=
                   Rround_half_even (landmark_meters_from location lm) |})
         (filter (fun lm =>
                    PySort.Rle_bool (landmark_meters_from location lm)
                      radius_meters)
            OAU_LANDMARKS))
    /\ StronglySorted
         (fun a b => (rl_distance_meters a <= rl_distance_meters b)%Z) nearby
    /\ (List.length nearby <= 18)%nat
    /\ Forall (fun e => (0 <= rl_distance_meters e)%Z) nearby.
Proof.
  intros location radius_meters nearby.
  split; [apply landmarks_within_radius_perm |].
  split; [apply landmarks_within_radius_sorted |].
  split; [| apply landmarks_within_radius_nonneg].
  unfold nearby.
  rewrite (Permutation_length (landmarks_within_radius_perm _ _)).
  rewrite length_map.
  apply (Nat.le_trans _ (List.length OAU_LANDMARKS));
    [apply filter_length_le | apply Nat.le_refl].
Qed.

Lemma catalog_types_not_general :
  forallb (fun lm => negb (String.eqb (lm_type lm) "general")) OAU_LANDMARKS
  = true.
Proof. vm_compute. reflexivity. Qed.

(** With a landmark within 200 m the type returned is that of one of
    them, and the most frequent one. *)
Lemma location_type_of_nearby (location : LocationPoint) :
  _get_landmarks_within_radius location 200 <> [] ->
  (exists e, In e (_get_landmarks_within_radius location 200)
             /\ lm_type (rl_landmark e) = _determine_location_type location)
  /\ forall k : string,
       (List.length
          (filter (fun e => String.eqb k (lm_type (rl_landmark e)))
             (_get_landmarks_within_radius location 200))
        <= List.length
             (filter (fun e =>
                        String.eqb (_determine_location_type location)
                          (lm_type (rl_landmark e)))
                (_get_landmarks_within_radius location 200)))%nat.
Proof.
  unfold _determine_location_type.
  set (nearby := _get_landmarks_within_radius location 200).
  clearbody nearby. intros Hne.
  destruct nearby as [| e0 rest]; [contradiction |]. cbv iota.
  destruct (count_types (e0 :: rest)) as [| first others] eqn:Hc.
  { exfalso. unfold count_types in Hc.
    apply (count_fold_nil_iff String.eqb) in Hc. discriminate. }
  unfold count_types in Hc.
  destruct (count_fold_mode String.eqb string_eqb_spec
              (fun e => lm_type (rl_landmark e))
              (e0 :: rest) first others Hc) as [[e [He Hk]] Hmax].
  cbv zeta in Hmax.
  split; [exists e; split; assumption | exact Hmax].
Qed.

(** X13.  The type of a location is ["general"] exactly when no landmark
    lies within 200 m; otherwise it is the type of a landmark within
    200 m, and no type has more landmarks within that distance. *)
Theorem determine_location_type_mode :
  forall location : LocationPoint,
    let t := _determine_location_type location in
    let nearby := _get_landmarks_within_radius location 200 in
    let times (k : string) :=
      List.length
        (filter (fun e => String.eqb k (lm_type (rl_landmark e))) nearby) in
    (t = "general"%string <->
     forall lm, In lm OAU_LANDMARKS ->
                (200 < landmark_meters_from location lm)%R)
    /\ (nearby = []
        \/ (exists e, In e nearby /\ lm_type (rl_landmark e) = t)
           /\ forall k : string, (times k <= times t)%nat).
Proof.
  intros location. cbv zeta.
  pose proof (location_type_of_nearby location) as Hmode.
  assert (Hin : forall e,
            In e (_get_landmarks_within_radius location 200) ->
            In (rl_landmark e) OAU_LANDMARKS
            /\ (landmark_meters_from location (rl_landmark e) <= 200)%R).
  { intros e He. apply landmarks_within_radius_In in He. tauto. }
  assert (Hnear : forall lm, In lm OAU_LANDMARKS ->
                    (landmark_meters_from location lm <= 200)%R ->
                    _get_landmarks_within_radius location 200 <> []).
  { intros lm Hlm Hle Hnil.
    assert (He : In {| rl_landmark := lm;
                       rl_distance_meters :=
                         Rround_half_even (landmark_meters_from location lm) |}
                   (_get_landmarks_within_radius location 200)).
    { apply landmarks_within_radius_In. simpl. tauto. }
    rewrite Hnil in He. exact He. }
  destruct (_get_landmarks_within_radius location 200) as [| e0 rest] eqn:Hn.
  - split; [| left; reflexivity].
    split.
    + intros _ lm Hlm.
      destruct (Rle_dec (landmark_meters_from location lm) 200)
        as [Hle | Hgt]; [| lra].
      exfalso. apply (Hnear lm Hlm Hle). reflexivity.
    + intros _. unfold _determine_location_type. rewrite Hn. reflexivity.
  - destruct (Hmode ltac:(discriminate)) as [[e [He Hk]] Hmax].
    split; [| right; split; [exists e; split; assumption | exact Hmax]].
    split.
    + intros Hgen. exfalso.
      destruct (Hin e He) as [Hcat _].
      pose proof catalog_types_not_general as Hall.
      rewrite forallb_forall in Hall. specialize (Hall _ Hcat).
      rewrite Hk, Hgen in Hall. discriminate.
    + intros Hfar. exfalso.
      destruct (Hin e0 (or_introl eq_refl)) as [Hcat Hle].
      specialize (Hfar _ Hcat). lra.
Qed.

(** X14.  At the coordinates of a catalog landmark the accessibility is
    never ["low"] and the location type never ["general"]: the landmark
    itself is within both radii. *)
Theorem at_landmark_accessible :
  forall (lm : landmark) (ts : option Z),
    In lm OAU_LANDMARKS ->
    let location :=
      {| latitude := lm_lat lm; longitude := lm_lng lm; timestamp := ts |} in
    _assess_accessibility location <> "low"%string
    /\ _determine_location_type location <> "general"%string
    /\ exists first rest,
         _get_landmarks_within_radius location 100 = first :: rest
         /\ rl_distance_meters first = 0%Z.
Proof.
  intros lm ts Hin location.
  assert (Hzero : landmark_meters_from location lm = 0%R).
  { unfold landmark_meters_from, location. simpl.
    unfold distance_km. rewrite calculate_distance_same. lra. }
  assert (Hself : forall r : R, (0 <= r)%R ->
             In {| rl_landmark := lm; rl_distance_meters := 0 |}
               (_get_landmarks_within_radius location r)).
  { intros r Hr. apply landmarks_within_radius_In. simpl.
    rewrite Hzero. split; [exact Hin |]. split; [exact Hr |].
    symmetry. apply (Rround_half_even_IZR 0). }
  split; [| split].
  - unfold _assess_accessibility.
    pose proof (Hself 100%R ltac:(lra)) as H100.
    destruct (_get_landmarks_within_radius location 100) as [| a [| b l]];
      [contradiction | simpl; discriminate | simpl; discriminate].
  - intros Hgen.
    pose proof (Hself 200%R ltac:(lra)) as H200.
    destruct (location_type_of_nearby location) as [[e [He Ht]] _].
    { intros Hnil. rewrite Hnil in H200. exact H200. }
    apply landmarks_within_radius_In in He. destruct He as [Hcat _].
    pose proof catalog_types_not_general as Hall.
    rewrite forallb_forall in Hall. specialize (Hall _ Hcat).
    rewrite Ht, Hgen in Hall. discriminate.
  - pose proof (Hself 100%R ltac:(lra)) as H100.
    pose proof (landmarks_within_radius_sorted location 100) as Hsorted.
    pose proof (landmarks_within_radius_nonneg location 100) as Hnonneg.
    destruct (_get_landmarks_within_radius location 100) as [| first rest];
      [contradiction |].
    exists first, rest. split; [reflexivity |].
    inversion Hsorted as [| ? ? _ Hfirst]; subst.
    inversion Hnonneg as [| ? ? H0 _]; subst.
    destruct H100 as [Hfst | Hrest]; [rewrite Hfst; reflexivity |].
    rewrite Forall_forall in Hfirst. specialize (Hfirst _ Hrest).
    simpl in Hfirst. lia.
Qed.

Lemma at_landmark_accessible_witness :
  _assess_accessibility
    {| latitude := 7.5227; longitude := 4.5198; timestamp := None |}
  <> "low"%string.
Proof.
  apply (at_landmark_accessible
           (mk_landmark "main_gate" 7.5227 4.5198 "Main Gate" "entrance"
              "Primary campus entrance") None).
  left. reflexivity.
Defined.

End AroundFacts.

(** ** Activity by landmark and by zone *)

Section ActivityFacts.

Import Geofencing LocationUtils LocationService.
Import CampusAnalytics.

Local Open Scope Z_scope.

Lemma count_where_snoc {A : Type} (f : A -> bool) (l : list A) (x : A) :
  count_where f (l ++ [x]) = count_where f l + (if f x then 1 else 0).
Proof.
  unfold count_where. rewrite filter_app, length_app. simpl.
  destruct (f x); simpl; lia.
Qed.

Lemma count_where_nonneg {A : Type} (f : A -> bool) (l : list A) :
  0 <= count_where f l.
Proof. unfold count_where. lia. Qed.

Lemma count_where_split {A : Type} (f g : A -> bool) (l : list A) :
  count_where (fun x => f x && g x) l
  + count_where (fun x => f x && negb (g x)) l
  = count_where f l.
Proof.
  induction l as [| x l IH] using rev_ind; [reflexivity |].
  rewrite !count_where_snoc, <- IH.
  destruct (f x), (g x); simpl; lia.
Qed.

Lemma count_where_pos_ex {A : Type} (f : A -> bool) (l : list A) :
  1 <= count_where f l -> exists x, In x l /\ f x = true.
Proof.
  unfold count_where. intros H.
  destruct (filter f l) as [| x t] eqn:Hf; [simpl in H; lia |].
  assert (Hx : In x (filter f l)) by (rewrite Hf; left; reflexivity).
  apply filter_In in Hx. exists x. exact Hx.
Qed.

Lemma NoDup_keys_filter {A B : Type} (f : A * B -> bool) (l : list (A * B)) :
  NoDup (map fst l) -> NoDup (map fst (filter f l)).
Proof.
  induction l as [| x l IH]; simpl; intros Hnd; [constructor |].
  inversion Hnd as [| ? ? Hnotin Hnd']; subst.
  destruct (f x); simpl; [| apply IH; exact Hnd'].
  constructor; [| apply IH; exact Hnd'].
  intros Hin. apply Hnotin. apply in_map_iff in Hin.
  destruct Hin as [y [Hy Hin]]. apply filter_In in Hin.
  apply in_map_iff. exists y. tauto.
Qed.

Lemma NoDup_firstn {A : Type} (n : nat) (l : list A) :
  NoDup l -> NoDup (firstn n l).
Proof.
  intros Hnd. rewrite <- (firstn_skipn n l) in Hnd.
  apply NoDup_app_remove_r in Hnd. exact Hnd.
Qed.

Lemma firstn_In_or_full {A : Type} (n : nat) (l : list A) (x : A) :
  In x l -> In x (firstn n l) \/ List.length (firstn n l) = n.
Proof.
  intros Hin. destruct (Nat.le_gt_cases (List.length l) n) as [Hle | Hgt].
  - left. rewrite firstn_all2 by exact Hle. exact Hin.
  - right. apply firstn_length_le. lia.
Qed.

Local Abbreviation label_of row :=
  (get_nearest_landmark (lu_latitude (fst row)) (lu_longitude (fst row))).

Lemma hotspot_step_get (la : list (string * activity))
  (row : LocationUpdate * UserRole) (lm : string) :
  Dict.get String.eqb (hotspot_step la row) lm =
  if String.eqb lm (label_of row)
  then
    let a :=
      match Dict.get String.eqb la (label_of row) with
      | Some a => a
      | None => {| act_drivers := 0; act_passengers := 0; act_total := 0;
                   act_locations := [] |}
      end in
    Some {| act_drivers :=
              if is_driver (snd row) then act_drivers a + 1
              else act_drivers a;
            act_passengers :=
              if is_driver (snd row) then act_passengers a
              else act_passengers a + 1;
            act_total := act_total a + 1;
            act_locations :=
              act_locations a
              ++ [ {| spot_lat := lu_latitude (fst row);
                      spot_lng := lu_longitude (fst row);
                      spot_role := snd row;
                      spot_timestamp := lu_timestamp (fst row) |} ] |}
  else Dict.get String.eqb la lm.
Proof.
  destruct row as [u role]. unfold hotspot_step. cbn [fst snd]. cbv zeta.
  destruct (Dict.get String.eqb la
              (get_nearest_landmark (lu_latitude u) (lu_longitude u)))
    as [a |] eqn:Hg.
  - rewrite Hg. rewrite (dict_get_set String.eqb string_eqb_spec).
    reflexivity.
  - rewrite (dict_get_set String.eqb string_eqb_spec), String.eqb_refl.
    rewrite !(dict_get_set String.eqb string_eqb_spec).
    destruct (String.eqb lm _); reflexivity.
Qed.

Lemma hotspot_step_keys_NoDup (la : list (string * activity))
  (row : LocationUpdate * UserRole) :
  NoDup (map fst la) -> NoDup (map fst (hotspot_step la row)).
Proof.
  intros Hnd. destruct row as [u role]. unfold hotspot_step. cbv zeta.
  destruct (Dict.get String.eqb la
              (get_nearest_landmark (lu_latitude u) (lu_longitude u)))
    as [a |] eqn:Hg.
  - rewrite Hg. apply (dict_set_keys_NoDup String.eqb string_eqb_spec).
    exact Hnd.
  - rewrite (dict_get_set String.eqb string_eqb_spec), String.eqb_refl.
    apply (dict_set_keys_NoDup String.eqb string_eqb_spec).
    apply (dict_set_keys_NoDup String.eqb string_eqb_spec). exact Hnd.
Qed.

Lemma hotspot_fold_keys_NoDup (data : list (LocationUpdate * UserRole)) :
  NoDup (map fst (fold_left hotspot_step data [])).
Proof.
  induction data as [| row data IH] using rev_ind; [constructor |].
  rewrite fold_left_app. apply hotspot_step_keys_NoDup. exact IH.
Qed.

Lemma hotspot_fold_get (data : list (LocationUpdate * UserRole))
  (lm : string) :
  match Dict.get String.eqb (fold_left hotspot_step data []) lm with
  | None => count_where (fun row => String.eqb lm (label_of row)) data = 0
  | Some a =>
      act_total a = count_where (fun row => String.eqb lm (label_of row)) data
      /\ act_drivers a =
         count_where (fun row => String.eqb lm (label_of row)
                                 && is_driver (snd row)) data
      /\ act_passengers a =
         count_where (fun row => String.eqb lm (label_of row)
                                 && negb (is_driver (snd row))) data
      /\ 1 <= act_total a
  end.
Proof.
  induction data as [| row data IH] using rev_ind; [reflexivity |].
  rewrite fold_left_app. cbn [fold_left].
  rewrite hotspot_step_get, !count_where_snoc. cbv zeta.
  destruct (String.eqb lm (label_of row)) eqn:Hlm.
  - apply String.eqb_eq in Hlm. rewrite <- Hlm.
    destruct (Dict.get String.eqb (fold_left hotspot_step data []) lm)
      as [a |].
    + destruct IH as [H1 [H2 [H3 H4]]]. cbn [act_total act_drivers
        act_passengers]. rewrite H1, H2, H3.
      pose proof (count_where_nonneg
                    (fun row => String.eqb lm (label_of row)) data).
      destruct (is_driver (snd row)); simpl; repeat split; lia.
    + cbn [act_total act_drivers act_passengers].
      pose proof (count_where_split
                    (fun row => String.eqb lm (label_of row))
                    (fun row => is_driver (snd row)) data) as Hsplit.
      pose proof (count_where_nonneg
                    (fun row => String.eqb lm (label_of row)
                                && is_driver (snd row)) data).
      pose proof (count_where_nonneg
                    (fun row => String.eqb lm (label_of row)
                                && negb (is_driver (snd row))) data).
      simpl in Hsplit.
      destruct (is_driver (snd row)); simpl; repeat split; lia.
  - destruct (Dict.get String.eqb (fold_left hotspot_step data []) lm)
      as [a |]; simpl; [| lia].
    destruct IH as [H1 [H2 [H3 H4]]]. repeat split; lia.
Qed.

Lemma activity_level_of_hotspot (total : Z) :
  3 <= total ->
  _determine_activity_level total =
  if (10 <=? total)%Z then "high"%string
  else if (5 <=? total)%Z then "medium"%string else "low"%string.
Proof.
  intros H. unfold _determine_activity_level.
  destruct (10 <=? total); [reflexivity |].
  destruct (5 <=? total); [reflexivity |].
  destruct (1 <=? total) eqn:H1; [reflexivity |].
  apply Z.leb_gt in H1. lia.
Qed.

Lemma hotspots_In (data : list (LocationUpdate * UserRole)) (h : hotspot) :
  In h (_identify_activity_hotspots data) ->
  exists a, Dict.get String.eqb (fold_left hotspot_step data [])
              (hs_landmark h) = Some a
            /\ h = hotspot_of (hs_landmark h, a) /\ 3 <= act_total a.
Proof.
  unfold _identify_activity_hotspots. intros Hin.
  apply firstn_In in Hin. apply sort_In in Hin.
  apply in_map_iff in Hin. destruct Hin as [[lm a] [Hh Hin]].
  apply filter_In in Hin. destruct Hin as [Hin Hge].
  apply Z.leb_le in Hge. simpl in Hge.
  exists a. subst h. simpl. split; [| split; [reflexivity | exact Hge]].
  apply (dict_In_get String.eqb string_eqb_spec);
    [apply hotspot_fold_keys_NoDup | exact Hin].
Qed.

(** X15.  The activity hot spots are at most ten, in descending order of
    activity, one per landmark label.  Each counts the updates whose
    nearest-landmark label is its own, at least three of them, split
    into drivers and passengers, and its activity level is never
    ["none"].  A label with three updates or more is left out only when
    ten hot spots are reported. *)
Theorem activity_hotspots_counts :
  forall location_data : list (LocationUpdate * UserRole),
    let hotspots := _identify_activity_hotspots location_data in
    let updates_at (l : string) :=
      count_where (fun row => String.eqb l (label_of row)) location_data in
    (List.length hotspots <= 10)%nat
    /\ StronglySorted
         (fun a b => hs_total_activity b <= hs_total_activity a) hotspots
    /\ NoDup (map hs_landmark hotspots)
    /\ (forall h, In h hotspots ->
          hs_total_activity h = updates_at (hs_landmark h)
          /\ hs_drivers h =
             count_where
               (fun row => String.eqb (hs_landmark h) (label_of row)
                           && is_driver (snd row)) location_data
          /\ hs_drivers h + hs_passengers h = hs_total_activity h
          /\ 3 <= hs_total_activity h
          /\ hs_activity_level h =
             if (10 <=? hs_total_activity h)%Z then "high"%string
             else if (5 <=? hs_total_activity h)%Z then "medium"%string
             else "low"%string)
    /\ (forall l : string,
          3 <= updates_at l ->
          In l (map hs_landmark hotspots) \/ List.length hotspots = 10%nat).
Proof.
  intros location_data hotspots updates_at.
  split; [apply firstn_le_length |]. split; [| split; [| split]].
  - unfold hotspots, _identify_activity_hotspots.
    apply firstn_sorted.
    eapply sorted_weaken; [| apply sort_sorted].
    + intros a b H. apply Z.leb_le. exact H.
    + intros x y. rewrite !Z.leb_le. lia.
    + intros x y z. rewrite !Z.leb_le. lia.
  - unfold hotspots, _identify_activity_hotspots.
    rewrite <- firstn_map. apply NoDup_firstn.
    eapply Permutation_NoDup;
      [apply Permutation_map; apply Permutation_sym; apply sort_perm |].
    rewrite map_map.
    rewrite (map_ext _ fst) by (intros [lm a]; reflexivity).
    apply NoDup_keys_filter, hotspot_fold_keys_NoDup.
  - intros h Hh. destruct (hotspots_In location_data h Hh) as [a [Hg [Hq Ha]]].
    pose proof (hotspot_fold_get location_data (hs_landmark h)) as Hc.
    rewrite Hg in Hc. destruct Hc as [H1 [H2 [H3 H4]]].
    pose proof (count_where_split
                  (fun row => String.eqb (hs_landmark h) (label_of row))
                  (fun row => is_driver (snd row)) location_data) as Hsplit.
    simpl in Hsplit.
    rewrite Hq. cbn [hotspot_of hs_total_activity hs_drivers hs_passengers
                       hs_activity_level hs_landmark].
    unfold updates_at. rewrite <- H1, <- H2.
    repeat split; try lia.
    apply activity_level_of_hotspot. exact Ha.
  - intros l Hl. unfold updates_at in Hl.
    pose proof (hotspot_fold_get location_data l) as Hc.
    destruct (Dict.get String.eqb (fold_left hotspot_step location_data []) l)
      as [a |] eqn:Hg; [| lia].
    destruct Hc as [H1 _].
    apply (dict_get_In String.eqb string_eqb_spec) in Hg.
    assert (Hs : In (hotspot_of (l, a))
                   (PySort.sort
                      (fun a b => hs_total_activity b <=? hs_total_activity a)
                      (map hotspot_of
                         (filter (fun item => 3 <=? act_total (snd item))
                            (fold_left hotspot_step location_data []))))).
    { apply sort_In. apply in_map. apply filter_In. split; [exact Hg |].
      apply Z.leb_le. simpl. lia. }
    destruct (firstn_In_or_full 10 _ _ Hs) as [Hin | Hfull].
    + left. apply in_map_iff. exists (hotspot_of (l, a)).
      split; [reflexivity | exact Hin].
    + right. exact Hfull.
Qed.

Local Abbreviation zone_of row :=
  (determine_campus_zone (lu_latitude (fst row)) (lu_longitude (fst row))).

Lemma zone_step_get (za : list (string * zone_counts))
  (row : LocationUpdate * UserRole) (zone : string) :
  Dict.get String.eqb (zone_step za row) zone =
  if String.eqb zone (zone_of row)
  then
    let z :=
      match Dict.get String.eqb za (zone_of row) with
      | Some z => z
      | None => {| zc_drivers := 0; zc_passengers := 0; zc_total := 0 |}
      end in
    Some {| zc_drivers :=
              if is_driver (snd row) then zc_drivers z + 1 else zc_drivers z;
            zc_passengers :=
              if is_driver (snd row) then zc_passengers z
              else zc_passengers z + 1;
            zc_total := zc_total z + 1 |}
  else Dict.get String.eqb za zone.
Proof.
  destruct row as [u role]. unfold zone_step. cbn [fst snd]. cbv zeta.
  destruct (Dict.get String.eqb za
              (determine_campus_zone (lu_latitude u) (lu_longitude u)))
    as [z |] eqn:Hg.
  - rewrite Hg. rewrite (dict_get_set String.eqb string_eqb_spec).
    reflexivity.
  - rewrite (dict_get_set String.eqb string_eqb_spec), String.eqb_refl.
    rewrite !(dict_get_set String.eqb string_eqb_spec).
    destruct (String.eqb zone _); reflexivity.
Qed.

Lemma zone_step_keys_NoDup (za : list (string * zone_counts))
  (row : LocationUpdate * UserRole) :
  NoDup (map fst za) -> NoDup (map fst (zone_step za row)).
Proof.
  intros Hnd. destruct row as [u role]. unfold zone_step. cbv zeta.
  destruct (Dict.get String.eqb za
              (determine_campus_zone (lu_latitude u) (lu_longitude u)))
    as [z |] eqn:Hg.
  - rewrite Hg. apply (dict_set_keys_NoDup String.eqb string_eqb_spec).
    exact Hnd.
  - rewrite (dict_get_set String.eqb string_eqb_spec), String.eqb_refl.
    apply (dict_set_keys_NoDup String.eqb string_eqb_spec).
    apply (dict_set_keys_NoDup String.eqb string_eqb_spec). exact Hnd.
Qed.

Lemma zone_fold_get (data : list (LocationUpdate * UserRole))
  (zone : string) :
  match Dict.get String.eqb (_calculate_zone_activity data) zone with
  | None => count_where (fun row => String.eqb zone (zone_of row)) data = 0
  | Some z =>
      zc_total z = count_where (fun row => String.eqb zone (zone_of row)) data
      /\ zc_drivers z =
         count_where (fun row => String.eqb zone (zone_of row)
                                 && is_driver (snd row)) data
      /\ zc_passengers z =
         count_where (fun row => String.eqb zone (zone_of row)
                                 && negb (is_driver (snd row))) data
      /\ 1 <= zc_total z
  end.
Proof.
  unfold _calculate_zone_activity.
  induction data as [| row data IH] using rev_ind; [reflexivity |].
  rewrite fold_left_app. cbn [fold_left].
  rewrite zone_step_get, !count_where_snoc. cbv zeta.
  destruct (String.eqb zone (zone_of row)) eqn:Hz.
  - apply String.eqb_eq in Hz. rewrite <- Hz.
    destruct (Dict.get String.eqb (fold_left zone_step data []) zone)
      as [z |].
    + destruct IH as [H1 [H2 [H3 H4]]]. cbn [zc_total zc_drivers
        zc_passengers]. rewrite H1, H2, H3.
      pose proof (count_where_nonneg
                    (fun row => String.eqb zone (zone_of row)) data).
      destruct (is_driver (snd row)); simpl; repeat split; lia.
    + cbn [zc_total zc_drivers zc_passengers].
      pose proof (count_where_split
                    (fun row => String.eqb zone (zone_of row))
                    (fun row => is_driver (snd row)) data) as Hsplit.
      pose proof (count_where_nonneg
                    (fun row => String.eqb zone (zone_of row)
                                && is_driver (snd row)) data).
      pose proof (count_where_nonneg
                    (fun row => String.eqb zone (zone_of row)
                                && negb (is_driver (snd row))) data).
      simpl in Hsplit.
      destruct (is_driver (snd row)); simpl; repeat split; lia.
  - destruct (Dict.get String.eqb (fold_left zone_step data []) zone)
      as [z |]; simpl; [| lia].
    destruct IH as [H1 [H2 [H3 H4]]]. repeat split; lia.
Qed.

Lemma determine_campus_zone_names (lat lon : Q) :
  In (determine_campus_zone lat lon)
    [ "Academic Zone"; "Student Residential Zone"; "Medical Zone";
      "Sports & Recreation Zone"; "General Campus Area" ]%string.
Proof.
  unfold determine_campus_zone.
  repeat match goal with
         | |- context [if ?c then _ else _] => destruct c
         end; simpl; tauto.
Qed.

(** X16.  The zone activity has one entry per zone that has updates, at
    most five; the entry of a zone counts the updates that fall into it,
    split into drivers and passengers, and a zone without updates has no
    entry. *)
Theorem zone_activity_counts :
  forall (location_data : list (LocationUpdate * UserRole)) (zone : string),
    let zone_activity := _calculate_zone_activity location_data in
    let updates_in :=
      count_where (fun row => String.eqb zone (zone_of row)) location_data in
    NoDup (map fst zone_activity)
    /\ (List.length zone_activity <= 5)%nat
    /\ match Dict.get String.eqb zone_activity zone with
       | None => updates_in = 0
       | Some z =>
           zc_total z = updates_in /\ 1 <= updates_in
           /\ zc_drivers z =
              count_where (fun row => String.eqb zone (zone_of row)
                                      && is_driver (snd row)) location_data
           /\ zc_drivers z + zc_passengers z = zc_total z
       end.
Proof.
  intros location_data zone zone_activity updates_in.
  assert (Hnd : NoDup (map fst zone_activity)).
  { unfold zone_activity, _calculate_zone_activity.
    induction location_data as [| row data IH] using rev_ind; [constructor |].
    rewrite fold_left_app. apply zone_step_keys_NoDup. exact IH. }
  split; [exact Hnd |]. split.
  - rewrite <- (length_map fst).
    apply (NoDup_incl_length Hnd
             (l' := [ "Academic Zone"; "Student Residential Zone";
                      "Medical Zone"; "Sports & Recreation Zone";
                      "General Campus Area" ]%string)).
    intros k Hk. apply in_map_iff in Hk. destruct Hk as [[k' z] [Hk Hin]].
    simpl in Hk. subst k'.
    apply (dict_In_get String.eqb string_eqb_spec _ _ _ Hnd) in Hin.
    pose proof (zone_fold_get location_data k) as Hc.
    fold zone_activity in Hc. rewrite Hin in Hc.
    destruct Hc as [H1 [_ [_ H4]]]. rewrite H1 in H4.
    apply count_where_pos_ex in H4. destruct H4 as [row [_ Hrow]].
    apply String.eqb_eq in Hrow. rewrite Hrow.
    apply determine_campus_zone_names.
  - pose proof (zone_fold_get location_data zone) as Hc.
    fold zone_activity in Hc.
    destruct (Dict.get String.eqb zone_activity zone) as [z |];
      [| exact Hc].
    destruct Hc as [H1 [H2 [H3 H4]]].
    pose proof (count_where_split
                  (fun row => String.eqb zone (zone_of row))
                  (fun row => is_driver (snd row)) location_data) as Hsplit.
    simpl in Hsplit. unfold updates_in.
    repeat split; lia.
Qed.

End ActivityFacts.

(** ** Routes without waypoints *)

Section DirectRoute.

Import Geofencing LocationUtils.
Local Open Scope R_scope.

(** X17.  Without waypoints, [None] or an empty list alike, the route is
    the direct line: no detour, and an efficiency ratio of 1 rated
    ["Excellent"], unless the two ends are at distance 0, when the ratio
    is 0 and the rating ["Poor"], as for every trip from a point to
    itself. *)
Theorem route_without_waypoints :
  forall start_location end_location : LocationPoint,
    let r := calculate_route_efficiency start_location end_location None in
    calculate_route_efficiency start_location end_location (Some []) = r
    /\ route_distance_km r = direct_distance_km r
    /\ detour_distance_km r = 0
    /\ detour_percentage r = 0
    /\ efficiency_ratio r =
       (if Rlt_dec 0 (point_distance start_location end_location)
        then 1 else 0)
    /\ efficiency_rating r =
       (if Rlt_dec 0 (point_distance start_location end_location)
        then "Excellent" else "Poor")%string
    /\ efficiency_rating
         (calculate_route_efficiency start_location start_location None)
       = "Poor"%string.
Proof.
  intros s e r.
  assert (Hrating : forall a b : LocationPoint,
            efficiency_rating (calculate_route_efficiency a b None) =
            (if Rlt_dec 0 (point_distance a b)
             then "Excellent" else "Poor")%string).
  { intros a b. unfold calculate_route_efficiency. cbn [efficiency_rating].
    unfold route_distance, efficiency_ratio_of.
    destruct (Rlt_dec 0 (point_distance a b)) as [Hpos | Hzero].
    - replace (point_distance a b / point_distance a b) with 1
        by (field; lra).
      unfold _get_efficiency_rating.
      destruct (Rle_dec 0.95 1); [reflexivity | lra].
    - unfold _get_efficiency_rating.
      destruct (Rle_dec 0.95 0); [lra |].
      destruct (Rle_dec 0.85 0); [lra |].
      destruct (Rle_dec 0.70 0); [lra | reflexivity]. }
  split; [reflexivity |]. split; [reflexivity |].
  split; [| split; [| split; [| split]]].
  - unfold r, calculate_route_efficiency. cbn [detour_distance_km].
    unfold route_distance.
    replace (point_distance s e - point_distance s e) with 0 by ring.
    apply Rround_0.
  - unfold r, calculate_route_efficiency. cbn [detour_percentage].
    unfold route_distance, detour_percentage_of.
    destruct (Rlt_dec 0 (point_distance s e)); [| apply Rround_0].
    replace ((point_distance s e - point_distance s e)
             / point_distance s e * 100) with 0 by (field; lra).
    apply Rround_0.
  - unfold r, calculate_route_efficiency. cbn [efficiency_ratio].
    unfold route_distance, efficiency_ratio_of.
    destruct (Rlt_dec 0 (point_distance s e)); [| apply Rround_0].
    replace (point_distance s e / point_distance s e) with 1 by (field; lra).
    apply Rround_1.
  - apply Hrating.
  - rewrite Hrating. unfold point_distance, distance_km.
    rewrite calculate_distance_same.
    destruct (Rlt_dec 0 0); [lra | reflexivity].
Qed.

End DirectRoute.

(** ** Pickup recommendations *)

Section PickupFacts.

Import Geofencing LocationUtils LocationService.
Local Open Scope Q_scope.

Lemma accessibility_of_range (lm : pickup_landmark) :
  50 <= accessibility_of lm <= 95.
Proof.
  unfold accessibility_of, Dict.get_default, accessibility_scores.
  cbn [Dict.get].
  repeat match goal with
         | |- context [if ?c then _ else _] => destruct c
         end; split; discriminate.
Qed.

Lemma safety_of_range (lm : pickup_landmark) : 70 <= safety_of lm <= 90.
Proof.
  unfold safety_of. destruct (pl_id lm) as [i |];
    [destruct (existsb _ _) |]; split; discriminate.
Qed.

Lemma count_nearby_drivers_nonneg (drivers : list driver_location) :
  (0 <= count_nearby_drivers drivers)%Z.
Proof. unfold count_nearby_drivers. lia. Qed.

Lemma pickup_score_range (lm : pickup_landmark) (p : LocationPoint)
  (drivers : list driver_location) :
  0 <= pl_distance_meters lm ->
  let s := _calculate_pickup_score lm p drivers in
  17 <= ps_total_score s <= 98
  /\ (2 <= ps_wait_time s <= 15)%Z
  /\ ps_driver_count s = count_nearby_drivers drivers
  /\ (drivers = [] ->
      ps_driver_count s = 0%Z /\ ps_wait_time s = 15%Z
      /\ ps_total_score s <= 58).
Proof.
  intros Hd s.
  pose proof (accessibility_of_range lm) as Hacc.
  pose proof (safety_of_range lm) as Hsaf.
  pose proof (count_nearby_drivers_nonneg drivers) as Hn.
  assert (Hds : 0 <= distance_score_of (pl_distance_meters lm / 1000) <= 100).
  { unfold distance_score_of. split; [apply Q.le_max_l |].
    apply Q.max_lub; [discriminate |].
    assert (0 <= pl_distance_meters lm / 1000)
      by (apply Qle_shift_div_l; [reflexivity | lra]).
    lra. }
  assert (Hdrv : 0 <= inject_Z (Z.min 100 (count_nearby_drivers drivers * 25))
                 <= 100).
  { split.
    - change 0 with (inject_Z 0). rewrite <- Zle_Qle. lia.
    - change 100 with (inject_Z 100). rewrite <- Zle_Qle. lia. }
  assert (H17 : 17 <= Qround 17 1) by (vm_compute; discriminate).
  assert (H98 : Qround 98 1 <= 98) by (vm_compute; discriminate).
  assert (H58 : Qround 58 1 <= 58) by (vm_compute; discriminate).
  unfold s, _calculate_pickup_score.
  cbn [ps_total_score ps_wait_time ps_driver_count].
  split; [| split; [| split; [reflexivity |]]].
  - split.
    + apply (Qle_trans _ _ _ H17). apply Qround_mono.
      unfold weighted_total. lra.
    + apply (Qle_trans _ (Qround 98 1)); [| exact H98].
      apply Qround_mono. unfold weighted_total. lra.
  - destruct (0 <? count_nearby_drivers drivers)%Z eqn:Hpos; lia.
  - intros ->. split; [reflexivity |]. split; [reflexivity |].
    apply (Qle_trans _ (Qround 58 1)); [| exact H58].
    apply Qround_mono. unfold weighted_total.
    change (count_nearby_drivers []) with 0%Z.
    change (inject_Z (Z.min 100 (0 * 25))) with 0. lra.
Qed.

Lemma Qle_bool_total' (a b : Q) : Qle_bool a b = true \/ Qle_bool b a = true.
Proof.
  rewrite !Qle_bool_iff. destruct (Qlt_le_dec a b) as [H | H];
    [left; apply Qlt_le_weak; exact H | right; exact H].
Qed.

Lemma Qle_bool_trans' (a b c : Q) :
  Qle_bool a b = true -> Qle_bool b c = true -> Qle_bool a c = true.
Proof. rewrite !Qle_bool_iff. apply Qle_trans. Qed.

(** X18.  The pickup recommendations are at most ten, in descending
    order of score.  Each is a landmark within the search distance, its
    score lies between 17 and 98 and its waiting time between 2 and 15
    minutes; when no driver location is known, every recommendation
    reports 0 drivers, a waiting time of 15 minutes and a score of at
    most 58. *)
Theorem optimal_pickup_locations_ranked :
  forall (passenger_location : LocationPoint) (max_distance : R)
         (driver_locations : list driver_location),
    let options :=
      get_optimal_pickup_locations passenger_location max_distance
        driver_locations in
    (List.length options <= 10)%nat
    /\ StronglySorted (fun a b => po_score b <= po_score a) options
    /\ Forall
         (fun o =>
            In (rl_landmark (po_landmark o)) OAU_LANDMARKS
            /\ (landmark_meters_from passenger_location
                  (rl_landmark (po_landmark o)) <= max_distance)%R
            /\ 17 <= po_score o <= 98
            /\ (2 <= po_estimated_wait_time o <= 15)%Z
            /\ po_available_drivers o =
               count_nearby_drivers driver_locations)
         options
    /\ Forall
         (fun o =>
            po_available_drivers o = 0%Z
            /\ po_estimated_wait_time o = 15%Z /\ po_score o <= 58)
         (get_optimal_pickup_locations passenger_location max_distance []).
Proof.
  intros passenger_location max_distance driver_locations options.
  assert (Hopt : forall drivers o,
            In o (get_optimal_pickup_locations passenger_location
                    max_distance drivers) ->
            exists lm,
              In lm (_get_landmarks_within_radius passenger_location
                       max_distance)
              /\ o = pickup_option_of passenger_location drivers lm).
  { intros drivers o Ho. unfold get_optimal_pickup_locations in Ho.
    apply firstn_In in Ho. apply sort_In in Ho. apply in_map_iff in Ho.
    destruct Ho as [lm [Heq Hlm]]. exists lm. split; [exact Hlm |].
    symmetry; exact Heq. }
  assert (Hmeters : forall lm,
            In lm (_get_landmarks_within_radius passenger_location
                     max_distance) ->
            0 <= pl_distance_meters (as_pickup_landmark lm)).
  { intros lm Hlm.
    pose proof (landmarks_within_radius_nonneg passenger_location
                  max_distance) as Hnn.
    rewrite Forall_forall in Hnn. specialize (Hnn _ Hlm).
    simpl. change 0 with (inject_Z 0). rewrite <- Zle_Qle. exact Hnn. }
  split; [apply firstn_le_length |]. split; [| split].
  - unfold options, get_optimal_pickup_locations.
    apply firstn_sorted.
    eapply sorted_weaken; [| apply sort_sorted].
    + intros a b H. apply Qle_bool_iff. exact H.
    + intros x y. apply Qle_bool_total'.
    + intros x y z H1 H2. exact (Qle_bool_trans' _ _ _ H2 H1).
  - apply Forall_forall. intros o Ho.
    destruct (Hopt _ _ Ho) as [lm [Hlm ->]].
    destruct (pickup_score_range (as_pickup_landmark lm) passenger_location
                driver_locations (Hmeters _ Hlm)) as [Hs [Hw [Hc _]]].
    apply landmarks_within_radius_In in Hlm. destruct Hlm as [Hin [Hle _]].
    cbn [pickup_option_of po_landmark po_score po_estimated_wait_time
           po_available_drivers].
    repeat split; try assumption; try tauto.
  - apply Forall_forall. intros o Ho.
    destruct (Hopt _ _ Ho) as [lm [Hlm ->]].
    destruct (pickup_score_range (as_pickup_landmark lm) passenger_location
                [] (Hmeters _ Hlm)) as [_ [_ [_ Hnone]]].
    cbn [pickup_option_of po_score po_estimated_wait_time
           po_available_drivers].
    apply Hnone. reflexivity.
Qed.

End PickupFacts.

(** ** Rounding whole numbers *)

Section RoundingWhole.

Local Open Scope Q_scope.

Lemma Qround_half_even_inject_Z (z : Z) : Qround_half_even (inject_Z z) = z.
Proof.
  unfold Qround_half_even. rewrite Qfloor_Z.
  destruct (Qcompare_spec (inject_Z z - inject_Z z) (1 # 2)) as [H | H | H];
    [exfalso; lra | reflexivity | exfalso; lra].
Qed.

Lemma Qround_half_even_Qeq (x y : Q) :
  x == y -> Qround_half_even x = Qround_half_even y.
Proof.
  intros H. apply Z.le_antisymm; apply Qround_half_even_mono;
    rewrite H; apply Qle_refl.
Qed.

Lemma Qround_Qeq (x y : Q) (n : nat) : x == y -> Qround x n == Qround y n.
Proof.
  intros H. apply Qle_antisym; apply Qround_mono; rewrite H; apply Qle_refl.
Qed.

Lemma Qround_inject_Z (z : Z) (n : nat) : Qround (inject_Z z) n == inject_Z z.
Proof.
  unfold Qround.
  assert (Hpos : (0 < 10 ^ Z.of_nat n)%Z) by (apply Z.pow_pos_nonneg; lia).
  assert (HposQ : ~ inject_Z (10 ^ Z.of_nat n) == 0).
  { intros H0.
    pose proof (proj1 (inject_Z_injective (10 ^ Z.of_nat n) 0) H0) as Hz.
    rewrite Hz in Hpos. exact (Z.lt_irrefl _ Hpos). }
  rewrite (Qround_half_even_Qeq _ (inject_Z (z * 10 ^ Z.of_nat n)))
    by (rewrite inject_Z_mult; reflexivity).
  rewrite Qround_half_even_inject_Z, inject_Z_mult.
  apply Qdiv_mult_l. exact HposQ.
Qed.

End RoundingWhole.

(** ** Emergency metrics *)

Section EmergencyFacts.

Import CampusAnalytics.
Local Open Scope Q_scope.

Lemma safety_score_value (recent_emergencies : list EmergencyAlert) :
  _calculate_safety_score recent_emergencies ==
  inject_Z
    (Z.max 0
       (100 - 5 * Z.of_nat (List.length recent_emergencies)
        - 10 * count_where (fun alert => negb (ea_is_resolved alert))
                 recent_emergencies)).
Proof.
  unfold _calculate_safety_score.
  set (n := Z.of_nat (List.length recent_emergencies)).
  set (u := count_where (fun alert => negb (ea_is_resolved alert))
              recent_emergencies).
  rewrite <- (Qround_inject_Z (Z.max 0 (100 - 5 * n - 10 * u)) 1).
  apply Qround_Qeq.
  assert (Hx : 100.0 - inject_Z (n * 5) - inject_Z (u * 10) - inject_Z 0
               == inject_Z (100 - 5 * n - 10 * u)).
  { unfold Z.sub. rewrite !inject_Z_plus, !inject_Z_opp, !inject_Z_mult.
    change (inject_Z 5) with 5. change (inject_Z 10) with 10.
    change (inject_Z 100) with 100. change (inject_Z 0) with 0.
    assert (H100 : 100.0 == 100) by reflexivity. rewrite H100. ring. }
  rewrite Hx.
  destruct (Z_le_gt_dec (100 - 5 * n - 10 * u) 0) as [Hle | Hgt].
  - rewrite Z.max_l by exact Hle.
    apply Q.max_l. change 0 with (inject_Z 0). rewrite <- Zle_Qle. exact Hle.
  - rewrite Z.max_r by lia.
    apply Q.max_r. change 0 with (inject_Z 0). rewrite <- Zle_Qle. lia.
Qed.

(** X19.  The safety score is [100 - 5 n - 10 u] for [n] emergencies of
    which [u] are unresolved, and 0 when that is negative: it lies between
    0 and 100, is 100 exactly when there is no emergency, and one more
    emergency never raises it. *)
Theorem safety_score_penalties :
  forall (recent_emergencies : list EmergencyAlert) (alert : EmergencyAlert),
    let score := _calculate_safety_score recent_emergencies in
    score ==
    inject_Z
      (Z.max 0
         (100 - 5 * Z.of_nat (List.length recent_emergencies)
          - 10 * count_where (fun alert => negb (ea_is_resolved alert))
                   recent_emergencies))
    /\ 0 <= score <= 100
    /\ (score == 100 <-> recent_emergencies = [])
    /\ _calculate_safety_score (alert :: recent_emergencies) <= score.
Proof.
  intros recent_emergencies alert score.
  pose proof (safety_score_value recent_emergencies) as Hv.
  pose proof (safety_score_value (alert :: recent_emergencies)) as Hv'.
  fold score in Hv.
  assert (Hu : (0 <= count_where (fun alert => negb (ea_is_resolved alert))
                      recent_emergencies)%Z) by (unfold count_where; lia).
  split; [exact Hv |]. split; [| split].
  - rewrite Hv. change 0 with (inject_Z 0). change 100 with (inject_Z 100).
    rewrite <- !Zle_Qle. lia.
  - rewrite Hv. change 100 with (inject_Z 100). rewrite inject_Z_injective.
    split.
    + intros H. destruct recent_emergencies as [| a l]; [reflexivity |].
      simpl List.length in H. lia.
    + intros ->. reflexivity.
  - rewrite Hv, Hv'. rewrite <- Zle_Qle.
    assert (Hcount :
      (count_where (fun alert => negb (ea_is_resolved alert))
         recent_emergencies
       <= count_where (fun alert => negb (ea_is_resolved alert))
            (alert :: recent_emergencies))%Z).
    { unfold count_where. simpl filter.
      destruct (negb (ea_is_resolved alert)); simpl List.length; lia. }
    simpl List.length. lia.
Qed.

Lemma count_where_le_length {A : Type} (f : A -> bool) (l : list A) :
  (0 <= count_where f l <= Z.of_nat (List.length l))%Z.
Proof.
  unfold count_where. pose proof (filter_length_le f l). lia.
Qed.

Lemma filter_all {A : Type} (f : A -> bool) (l : list A) :
  forallb f l = true -> filter f l = l.
Proof.
  induction l as [| x l IH]; simpl; [reflexivity |].
  intros H. apply andb_true_iff in H. destruct H as [Hx Hl].
  rewrite Hx, IH by exact Hl. reflexivity.
Qed.

(** X20.  The response rate lies between 0 and 100, and is 100 when the
    authorities were notified of every emergency, in particular when
    there is none. *)
Theorem response_rate_range :
  forall emergencies : list EmergencyAlert,
    0 <= _calculate_response_rate emergencies <= 100
    /\ (forallb ea_authorities_notified emergencies = true ->
        _calculate_response_rate emergencies == 100).
Proof.
  intros emergencies.
  assert (H0 : Qround 0 1 == 0) by apply (Qround_inject_Z 0 1).
  assert (H100 : Qround 100 1 == 100) by apply (Qround_inject_Z 100 1).
  destruct emergencies as [| a l].
  - split; [split; discriminate | intros _; reflexivity].
  - assert (He : a :: l <> []) by discriminate.
    set (emergencies := a :: l) in *.
    change (_calculate_response_rate emergencies)
      with (Qround
              (inject_Z (count_where ea_authorities_notified emergencies)
               / inject_Z (Z.of_nat (List.length emergencies)) * 100) 1).
    pose proof (count_where_le_length ea_authorities_notified emergencies)
      as [Hk0 Hkn].
    set (k := count_where ea_authorities_notified emergencies) in *.
    assert (Hn : (0 < Z.of_nat (List.length emergencies))%Z)
      by (unfold emergencies; simpl List.length; lia).
    set (n := Z.of_nat (List.length emergencies)) in *.
    assert (HnQ : 0 < inject_Z n)
      by (change 0 with (inject_Z 0); rewrite <- Zlt_Qlt; exact Hn).
    assert (Hfrac : 0 <= inject_Z k / inject_Z n <= 1).
    { split.
      - apply Qle_shift_div_l; [exact HnQ |]. rewrite Qmult_0_l.
        change 0 with (inject_Z 0). rewrite <- Zle_Qle. exact Hk0.
      - apply Qle_shift_div_r; [exact HnQ |]. rewrite Qmult_1_l.
        rewrite <- Zle_Qle. exact Hkn. }
    split.
    + split.
      * apply (Qle_trans _ (Qround 0 1));
          [rewrite H0; apply Qle_refl | apply Qround_mono; lra].
      * apply (Qle_trans _ (Qround 100 1));
          [apply Qround_mono; lra | rewrite H100; apply Qle_refl].
    + intros Hall. apply (Qeq_trans _ (Qround 100 1)); [| exact H100].
      apply Qround_Qeq.
      assert (Hkn' : k = n).
      { unfold k, n, count_where. rewrite (filter_all _ _ Hall). reflexivity. }
      rewrite Hkn'. field. intros Hz. rewrite Hz in HnQ.
      exact (Qlt_irrefl _ HnQ).
Qed.

Lemma response_rate_range_witness :
  _calculate_response_rate
    [ {| ea_latitude := 7.5227; ea_longitude := 4.5198;
         ea_alert_type := "panic"; ea_created_at := 0;
         ea_resolved_at := None; ea_is_resolved := false;
         ea_authorities_notified := true |} ] == 100.
Proof.
  apply (proj2 (response_rate_range _)). reflexivity.
Defined.

Lemma resolution_sum_nonneg (l : list EmergencyAlert) :
  (forall a, In a l -> 0 <= resolution_minutes a) ->
  forall acc : Q,
    0 <= acc ->
    0 <= fold_left (fun total alert => total + resolution_minutes alert) l acc.
Proof.
  induction l as [| a l IH]; intros Hb acc Hacc; [exact Hacc |].
  cbn [fold_left]. apply IH.
  - intros a' Ha'. apply Hb. right. exact Ha'.
  - pose proof (Hb a (or_introl eq_refl)). lra.
Qed.

(** X21.  The average resolution time is [None] exactly when no alert is
    both flagged resolved and stamped with a resolution time; the alerts
    that are not enter neither the sum nor the count; and the average is
    not negative unless some alert was resolved before it was created. *)
Theorem avg_resolution_time_defined :
  forall emergencies : list EmergencyAlert,
    (_calculate_avg_resolution_time emergencies = None <->
     forall a, In a emergencies -> resolved_with_time a = false)
    /\ _calculate_avg_resolution_time emergencies =
       _calculate_avg_resolution_time (filter resolved_with_time emergencies)
    /\ ((forall a, In a emergencies -> resolved_with_time a = true ->
                   0 <= resolution_minutes a) ->
        forall t : Q,
          _calculate_avg_resolution_time emergencies = Some t -> 0 <= t).
Proof.
  intros emergencies. split; [| split].
  - unfold _calculate_avg_resolution_time.
    destruct (filter resolved_with_time emergencies) as [| a0 rest] eqn:Hf.
    + split; [| reflexivity]. intros _ a Ha.
      destruct (resolved_with_time a) eqn:Hr; [| reflexivity].
      exfalso. assert (Hin : In a (filter resolved_with_time emergencies))
        by (apply filter_In; split; assumption).
      rewrite Hf in Hin. exact Hin.
    + split; [discriminate |]. intros Hnone. exfalso.
      assert (Ha0 : In a0 (filter resolved_with_time emergencies))
        by (rewrite Hf; left; reflexivity).
      apply filter_In in Ha0. destruct Ha0 as [Hin Hr].
      rewrite (Hnone a0 Hin) in Hr. discriminate.
  - unfold _calculate_avg_resolution_time.
    rewrite (filter_twice resolved_with_time resolved_with_time).
    rewrite (filter_ext (fun a => resolved_with_time a && resolved_with_time a)
               resolved_with_time)
      by (intros a; apply andb_diag).
    reflexivity.
  - intros Hb t. unfold _calculate_avg_resolution_time.
    destruct (filter resolved_with_time emergencies) as [| a0 rest] eqn:Hf;
      [discriminate |].
    rewrite <- Hf. intros Ht. inversion Ht as [Ht']. clear Ht Ht'.
    assert (Hb' : forall a, In a (filter resolved_with_time emergencies) ->
                            0 <= resolution_minutes a).
    { intros a Ha. apply filter_In in Ha. destruct Ha as [Ha Hr].
      apply Hb; assumption. }
    pose proof (resolution_sum_nonneg _ Hb' 0 (Qle_refl 0)) as Hsum.
    assert (Hn : 0 < inject_Z
                       (Z.of_nat
                          (List.length
                             (filter resolved_with_time emergencies)))).
    { change 0 with (inject_Z 0). rewrite <- Zlt_Qlt. rewrite Hf.
      simpl List.length. lia. }
    apply (Qle_trans _ (Qround (inject_Z 0) 1));
      [rewrite Qround_inject_Z; apply Qle_refl |].
    apply Qround_mono. change (inject_Z 0) with 0.
    apply Qle_shift_div_l; [exact Hn | lra].
Qed.

Lemma avg_resolution_time_defined_witness :
  exists t : Q,
    _calculate_avg_resolution_time
      [ {| ea_latitude := 7.5227; ea_longitude := 4.5198;
           ea_alert_type := "panic"; ea_created_at := 0;
           ea_resolved_at := Some 600%Z; ea_is_resolved := true;
           ea_authorities_notified := true |};
        {| ea_latitude := 7.5227; ea_longitude := 4.5198;
           ea_alert_type := "panic"; ea_created_at := 0;
           ea_resolved_at := None; ea_is_resolved := true;
           ea_authorities_notified := false |} ] = Some t
    /\ 0 <= t.
Proof.
  eexists. split; [vm_compute; reflexivity |].
  apply (proj2 (proj2 (avg_resolution_time_defined
    [ {| ea_latitude := 7.5227; ea_longitude := 4.5198;
         ea_alert_type := "panic"; ea_created_at := 0;
         ea_resolved_at := Some 600%Z; ea_is_resolved := true;
         ea_authorities_notified := true |};
      {| ea_latitude := 7.5227; ea_longitude := 4.5198;
         ea_alert_type := "panic"; ea_created_at := 0;
         ea_resolved_at := None; ea_is_resolved := true;
         ea_authorities_notified := false |} ]))).
  - intros a [<- | [<- | []]] Hr.
    + vm_compute. discriminate.
    + discriminate.
  - vm_compute. reflexivity.
Defined.

End EmergencyFacts.

(** ** Demand *)

Section DemandFacts.

Import CampusAnalytics.
Local Open Scope Z_scope.

(** X22.  A demand prediction always carries the recommendation the table
    holds for the predicted level, never the fall-back text; the level is
    high above 20 sessions, medium above 10, low otherwise, and a missing
    count stands for 0. *)
Theorem demand_prediction_recommends :
  forall historical : option Z,
    let p := _generate_demand_predictions historical in
    In (next_hour_demand p, recommendation p) demand_recommendations
    /\ recommendation p <> "Monitor situation closely."%string
    /\ (next_hour_demand p = "high"%string <-> 20 < or_zero historical)
    /\ (next_hour_demand p = "low"%string <-> or_zero historical <= 10)
    /\ _generate_demand_predictions None = _generate_demand_predictions (Some 0).
Proof.
  intros historical p. unfold p, _generate_demand_predictions.
  cbn [next_hour_demand recommendation].
  destruct (20 <? or_zero historical) eqn:H20.
  - apply Z.ltb_lt in H20.
    split; [left; reflexivity |]. split; [discriminate |].
    split; [tauto |]. split; [| reflexivity].
    split; [discriminate | lia].
  - apply Z.ltb_ge in H20. destruct (10 <? or_zero historical) eqn:H10.
    + apply Z.ltb_lt in H10.
      split; [right; left; reflexivity |]. split; [discriminate |].
      split; [split; [discriminate | lia] |]. split; [| reflexivity].
      split; [discriminate | lia].
    + apply Z.ltb_ge in H10.
      split; [right; right; left; reflexivity |]. split; [discriminate |].
      split; [split; [discriminate | lia] |]. split; [| reflexivity].
      tauto.
Qed.

(** X23.  The daily analysis never names a day.  The query selects the
    day number and the count, and the code keeps the day number alone with
    [.scalars().all()], then unpacks each item as [day, count]: the item
    is a number, so that every result with a row raises [TypeError], and
    what the function returns, on a result without rows, is the empty
    distribution with neither a busiest nor a quietest day. *)
Theorem daily_demand_raises_on_data :
  forall daily_rows : list (Z * Z),
    _analyze_daily_demand daily_rows =
    match daily_rows with
    | [] => inr {| daily_distribution := [];
                   busiest_day := None; quietest_day := None |}
    | _ :: _ => inl Py.TypeError
    end
    /\ forall d : daily_demand,
         _analyze_daily_demand daily_rows = inr d ->
         daily_rows = [] /\ daily_distribution d = []
         /\ busiest_day d = None /\ quietest_day d = None.
Proof.
  intros [| [day count] rest].
  - split; [reflexivity |]. intros d Hd. inversion Hd. repeat split.
  - split; [reflexivity |]. intros d Hd. discriminate Hd.
Qed.

Lemma daily_demand_raises_on_data_witness :
  _analyze_daily_demand [(1, 5); (3, 9)] = inl Py.TypeError.
Proof.
  apply (proj1 (daily_demand_raises_on_data [(1, 5); (3, 9)])).
Defined.

Local Open Scope Q_scope.

(** X24.  The passenger to driver ratio never divides by zero: with no
    active driver, or none counted, it is the number of passengers, and
    with passengers it lies between 0 and their number. *)
Theorem active_users_ratio :
  forall total drivers passengers : option Z,
    let u := active_users_of total drivers passengers in
    ((or_zero drivers <= 1)%Z -> au_ratio u == inject_Z (au_passengers u))
    /\ ((0 <= or_zero passengers)%Z ->
        0 <= au_ratio u <= inject_Z (au_passengers u))
    /\ au_passengers u = or_zero passengers
    /\ au_drivers u = or_zero drivers.
Proof.
  intros total drivers passengers u. unfold u, active_users_of.
  cbn [au_ratio au_passengers au_drivers].
  set (p := or_zero passengers). set (d := or_zero drivers).
  assert (Hm : (1 <= Z.max d 1)%Z) by lia.
  assert (HmQ : 1 <= inject_Z (Z.max d 1))
    by (change 1 with (inject_Z 1); rewrite <- Zle_Qle; exact Hm).
  split; [| split; [| split; reflexivity]].
  - intros Hd. rewrite Z.max_r by exact Hd.
    apply (Qeq_trans _ (Qround (inject_Z p) 2));
      [| apply Qround_inject_Z].
    apply Qround_Qeq. change (inject_Z 1) with 1. field.
  - intros Hp.
    assert (HpQ : 0 <= inject_Z p)
      by (change 0 with (inject_Z 0); rewrite <- Zle_Qle; exact Hp).
    assert (Hpos : 0 < inject_Z (Z.max d 1)) by lra.
    split.
    + apply (Qle_trans _ (Qround (inject_Z 0) 2));
        [rewrite Qround_inject_Z; apply Qle_refl |].
      apply Qround_mono. change (inject_Z 0) with 0.
      apply Qle_shift_div_l; [exact Hpos | lra].
    + apply (Qle_trans _ (Qround (inject_Z p) 2));
        [| rewrite Qround_inject_Z; apply Qle_refl].
      apply Qround_mono.
      apply Qle_shift_div_r; [exact Hpos |].
      assert (Hprod : 1 * inject_Z p <= inject_Z (Z.max d 1) * inject_Z p)
        by (apply Qmult_le_compat_r; assumption).
      lra.
Qed.

Lemma active_users_ratio_witness :
  au_ratio (active_users_of (Some 4%Z) None (Some 4%Z)) == 4.
Proof.
  apply (proj1 (active_users_ratio (Some 4%Z) None (Some 4%Z))).
  simpl. lia.
Defined.

End DemandFacts.

(** ** Heat map *)

Section HeatmapFacts.

Import Geofencing LocationUtils CampusAnalytics.
Local Open Scope Z_scope.

Lemma count_fold_keys_In {A : Type} (key : A -> string) (l : list A)
  (k : string) :
  In k (map fst
          (fold_left (fun d x => Dict.count_up String.eqb d (key x)) l
             (@nil (string * Z)))) ->
  exists x, In x l /\ key x = k.
Proof.
  induction l as [| x l IH] using rev_ind; [intros [] |].
  rewrite fold_left_app. cbn [fold_left]. unfold Dict.count_up at 1.
  rewrite (dict_keys_set String.eqb).
  destruct (existsb _ _).
  - intros Hin. destruct (IH Hin) as [y [Hy Hk]].
    exists y. split; [apply in_or_app; left; exact Hy | exact Hk].
  - intros Hin. apply in_app_or in Hin. destruct Hin as [Hin | [Hk | []]].
    + destruct (IH Hin) as [y [Hy Hk]].
      exists y. split; [apply in_or_app; left; exact Hy | exact Hk].
    + exists x. split; [apply in_or_app; right; left; reflexivity | exact Hk].
Qed.

Lemma most_active_mode {A : Type} (key : A -> string) (l : list A) :
  match
    most_active
      (fold_left (fun d x => Dict.count_up String.eqb d (key x)) l [])
  with
  | None => l = []
  | Some k =>
      (exists x, In x l /\ key x = k)
      /\ forall k' : string,
           (List.length (filter (fun x => String.eqb k' (key x)) l)
            <= List.length (filter (fun x => String.eqb k (key x)) l))%nat
  end.
Proof.
  unfold most_active.
  destruct (fold_left (fun d x => Dict.count_up String.eqb d (key x)) l [])
    as [| first rest] eqn:Hd.
  - apply (count_fold_nil_iff String.eqb) in Hd. exact Hd.
  - apply (count_fold_mode String.eqb string_eqb_spec key l first rest Hd).
Qed.

(** X25.  The heat map has one point of intensity 1 per location update;
    the zone counts, at most five, and the landmark counts each add up
    to the number of updates; the most active zone and landmark are
    missing exactly when there is no update, and the most active zone is
    the zone of some update, no zone holding more updates. *)
Theorem heatmap_totals :
  forall locations : list LocationUpdate,
    let h := heatmap_of locations in
    hm_total_data_points h = Z.of_nat (List.length (hm_heatmap_points h))
    /\ Forall (fun pt => hp_intensity pt = 1) (hm_heatmap_points h)
    /\ Analytics.sum_counts (hm_zone_activity h) = hm_total_data_points h
    /\ Analytics.sum_counts (hm_landmark_activity h) = hm_total_data_points h
    /\ (List.length (hm_zone_activity h) <= 5)%nat
    /\ (hm_most_active_zone h = None <-> locations = [])
    /\ (hm_most_active_landmark h = None <-> locations = [])
    /\ match hm_most_active_zone h with
       | None => True
       | Some z =>
           (exists loc, In loc locations
                        /\ determine_campus_zone (lu_latitude loc)
                             (lu_longitude loc) = z)
           /\ forall z' : string,
                (List.length
                   (filter (fun loc =>
                              String.eqb z'
                                (determine_campus_zone (lu_latitude loc)
                                   (lu_longitude loc))) locations)
                 <= List.length
                      (filter (fun loc =>
                                 String.eqb z
                                   (determine_campus_zone (lu_latitude loc)
                                      (lu_longitude loc))) locations))%nat
       end.
Proof.
  intros locations h. unfold h, heatmap_of.
  cbn [hm_total_data_points hm_heatmap_points hm_zone_activity
         hm_landmark_activity hm_most_active_zone hm_most_active_landmark].
  split; [rewrite length_map; reflexivity |].
  split; [apply Forall_forall; intros pt Hpt; apply in_map_iff in Hpt;
          destruct Hpt as [loc [<- _]]; reflexivity |].
  split; [apply (count_fold_sum String.eqb) |].
  split; [apply (count_fold_sum String.eqb) |].
  split.
  { rewrite <- (length_map fst).
    apply (NoDup_incl_length
             (count_fold_keys_NoDup String.eqb string_eqb_spec _ locations)
             (l' := [ "Academic Zone"; "Student Residential Zone";
                      "Medical Zone"; "Sports & Recreation Zone";
                      "General Campus Area" ]%string)).
    intros k Hk. apply count_fold_keys_In in Hk.
    destruct Hk as [loc [_ <-]]. apply determine_campus_zone_names. }
  pose proof (most_active_mode
                (fun loc => determine_campus_zone (lu_latitude loc)
                              (lu_longitude loc)) locations) as Hz.
  pose proof (most_active_mode
                (fun loc => get_nearest_landmark (lu_latitude loc)
                              (lu_longitude loc)) locations) as Hl.
  cbv beta in Hz, Hl.
  split; [| split].
  - destruct (most_active _) as [z |]; [| tauto].
    split; [discriminate |]. intros ->.
    destruct Hz as [[loc [[] _]] _].
  - clear Hz. destruct (most_active _) as [z |]; [| tauto].
    split; [discriminate |]. intros ->.
    destruct Hl as [[loc [[] _]] _].
  - destruct (most_active _) as [z |]; [exact Hz | exact I].
Qed.

End HeatmapFacts.
